(** * Order/balance ledger and gamification-score reconciliation

    A shallow embedding of the Go back end of the community-payment
    ledger: the [model] package (orders and users), the two task
    handlers of [internal/apps/user/tasks.go] and the transaction
    listing of [internal/apps/order/routers.go], together with the
    fragments of [fmt], [shopspring/decimal], [gorm] and the gin
    validator that those functions call; further the field encryption
    and the identifier generator of package [util] (over
    [encoding/hex], [encoding/base64] and an AES-GCM left abstract)
    and the API-key helpers of [internal/apps/merchant/utils.go].

    Layout: the embedding comes first (one module per Go package),
    the statements about it follow. *)

From stdpp Require Import base decidable option list sorting gmap strings pretty.
From Stdlib Require Import ZArith NArith Lia Ascii String.
From Stdlib.Strings Require Import Byte.

Local Open Scope string_scope.
Local Open Scope Z_scope.

(** ** Errors

    Go's [error] values.  [Errorf prefix inner] is
    [fmt.Errorf(prefix + ": %w", inner)]: a new error whose message
    starts with the formatted prefix and whose [Unwrap] is [inner]. *)

Inductive error : Type :=
| ErrDatastore (msg : string)          (* an error reported by the datastore driver *)
| ErrRecordNotFound                    (* gorm.ErrRecordNotFound *)
| ErrExternal (msg : string)           (* util.Request / HTTP status / body decoding *)
| ErrEnqueue (msg : string)            (* asynq client error *)
| ErrJSON (msg : string)               (* encoding/json *)
| ErrPanic (msg : string)              (* a Go run-time panic *)
| ErrValidation (msg : string)         (* validator.ValidationErrors *)
| Errorf (prefix : string) (inner : error).

Definition Unwrap (e : error) : option error :=
  match e with
  | Errorf _ inner => Some inner
  | _ => None
  end.

Fixpoint Error (e : error) : string :=
  match e with
  | ErrDatastore m => m
  | ErrRecordNotFound => "record not found"
  | ErrExternal m => m
  | ErrEnqueue m => m
  | ErrJSON m => m
  | ErrPanic m => m
  | ErrValidation m => m
  | Errorf p inner => p ++ ": " ++ Error inner
  end.

#[global] Instance error_eq_dec : EqDecision error.
Proof. solve_decision. Defined.

(** [errors.Is err target]: [target] occurs on the [Unwrap] chain of [err]. *)
Fixpoint errors_Is (err target : error) : bool :=
  bool_decide (err = target) ||
  match err with
  | Errorf _ inner => errors_Is inner target
  | _ => false
  end.

Inductive result (A : Type) : Type :=
| Ok (a : A)
| Err (e : error).
Arguments Ok {A} a.
Arguments Err {A} e.

(** ** Package [fmt]: integer formatting

    [fmtInteger] for an unsigned operand in base 10.  The digits are
    written right to left into a buffer, [i] being the index of the
    leftmost byte written so far; the string carried along is
    [buf[i:]]. *)

Module fmt.

Record flags : Type := { widPresent : bool; wid : nat; zero : bool }.

Definition intbuf_len : nat := 68.

(** [byte('0' + u)] *)
Definition digit_byte (u : N) : ascii := ascii_of_N (48 + u).

(** [for u >= 10 { i--; next := u / 10; buf[i] = byte('0' + u - next*10); u = next }]
    Writing below index 0 is an index-out-of-range panic ([None]). *)
Fixpoint write_digits (i : nat) (u : N) (out : string) : option (nat * N * string) :=
  if (10 <=? u)%N then
    match i with
    | O => None
    | S i' =>
        let next := (u / 10)%N in
        write_digits i' next (String (digit_byte (u - next * 10)) out)
    end
  else Some (i, u, out).

(** [for i > 0 && prec > len(buf)-i { i--; buf[i] = '0' }] *)
Fixpoint zero_fill (i : nat) (prec : nat) (out : string) : string :=
  match i with
  | O => out
  | S i' =>
      if (String.length out <? prec)%nat
      then zero_fill i' prec (String "0"%char out)
      else out
  end.

Fixpoint writePadding (n : nat) (c : ascii) (s : string) : string :=
  match n with
  | O => s
  | S n' => String c (writePadding n' c s)
  end.

(** [f.pad(b)] with the [minus] flag clear; [fmtInteger] clears
    [f.zero] around the call, so the padding byte is a space. *)
Definition pad (f : flags) (b : string) : string :=
  if negb (widPresent f) || (wid f =? 0)%nat then b
  else writePadding (wid f - String.length b) " "%char b.

Definition fmtInteger (f : flags) (u : N) : option string :=
  let buflen :=
    if widPresent f && (intbuf_len <? 3 + wid f)%nat
    then (3 + wid f)%nat else intbuf_len in
  let prec := if zero f && widPresent f then wid f else O in
  match write_digits buflen u "" with
  | None => None
  | Some (i, u', out) =>
      match i with
      | O => None
      | S i' => Some (pad f (zero_fill i' prec (String (digit_byte u') out)))
      end
  end.

(** [fmt.Sprintf("%018d", u)] and [fmt.Sprintf("%d", u)] for [u uint64]. *)
Definition Sprintf_018d (u : N) : option string :=
  fmtInteger {| widPresent := true; wid := 18; zero := true |} u.

Definition Sprintf_d (u : N) : option string :=
  fmtInteger {| widPresent := false; wid := 0; zero := false |} u.

End fmt.

(** ** Package [github.com/shopspring/decimal]

    A decimal is [value * 10 ^ exp] with an arbitrary-precision
    [value] and an [int32] exponent. *)

Module decimal.

Record Decimal : Type := { value : Z; exp : Z }.

#[global] Instance Decimal_eq_dec : EqDecision Decimal.
Proof. solve_decision. Defined.

Definition NewFromInt (v : Z) : Decimal := {| value := v; exp := 0 |}.

(** [big.Int.Quo] truncates toward zero, as [Z.quot] does. *)
Definition rescale (d : Decimal) (e : Z) : Decimal :=
  if exp d =? e then d
  else
    let diff := Z.abs (e - exp d) in
    let expScale := 10 ^ diff in
    if exp d <? e
    then {| value := Z.quot (value d) expScale; exp := e |}
    else {| value := value d * expScale; exp := e |}.

Definition RescalePair (d1 d2 : Decimal) : Decimal * Decimal :=
  if exp d1 <? exp d2 then (d1, rescale d2 (exp d1))
  else if exp d2 <? exp d1 then (rescale d1 (exp d2), d2)
  else (d1, d2).

Definition Add (d d2 : Decimal) : Decimal :=
  let '(rd, rd2) := RescalePair d d2 in
  {| value := value rd + value rd2; exp := exp rd |}.

Definition Sub (d d2 : Decimal) : Decimal :=
  let '(rd, rd2) := RescalePair d d2 in
  {| value := value rd - value rd2; exp := exp rd |}.

Definition Cmp (d d2 : Decimal) : comparison :=
  if exp d =? exp d2 then value d ?= value d2
  else let '(rd, rd2) := RescalePair d d2 in value rd ?= value rd2.

Definition Equal (d d2 : Decimal) : bool :=
  match Cmp d d2 with Eq => true | _ => false end.

Fixpoint repeat_zero (n : nat) : string :=
  match n with
  | O => ""
  | S n' => String "0"%char (repeat_zero n')
  end.

(** Drop the trailing ['0'] bytes of a fractional part. *)
Fixpoint trim_trailing_zeros (s : string) : string :=
  match s with
  | EmptyString => EmptyString
  | String c s' =>
      match trim_trailing_zeros s' with
      | EmptyString => if Ascii.eqb c "0"%char then EmptyString else String c EmptyString
      | t => String c t
      end
  end.

(** [d.String()], that is [d.string(true)]. *)
Definition String_ (d : Decimal) : string :=
  if 0 <=? exp d then pretty (value (rescale d 0))
  else
    let str := pretty (Z.abs_N (value d)) in
    let len := String.length str in
    let dExp := Z.to_nat (- exp d) in
    let '(intPart, fractionalPart) :=
      if (dExp <? len)%nat
      then (substring 0 (len - dExp) str, substring (len - dExp) dExp str)
      else ("0", repeat_zero (dExp - len) ++ str) in
    let fractionalPart := trim_trailing_zeros fractionalPart in
    let number :=
      if (0 <? String.length fractionalPart)%nat
      then intPart ++ "." ++ fractionalPart else intPart in
    if value d <? 0 then "-" ++ number else number.

End decimal.

(** ** Package [model] *)

Module model.
Import decimal.

(** [type OrderStatus string], [type OrderType string]: the handlers
    convert request strings to them directly. *)
Definition OrderStatus : Type := string.
Definition OrderType : Type := string.

(** Modelled from the spec: the Go constant block declaring
    [OrderStatusSuccess] and [OrderTypeCommunity] is not among the
    sources; the values are the literals of the status and type
    domains (also the members of the TypeScript unions of the front
    end). *)
Definition OrderStatusSuccess : OrderStatus := "success".
Definition OrderTypeCommunity : OrderType := "community".

Definition OrderType_domain : list string :=
  ["receive"; "payment"; "transfer"; "community"].

(** [time.Time] is a count of nanoseconds.  [ExpiresAt] is filled in
    by the reconciliation worker of [tasks.go]; the struct declaration
    at hand does not list it, the front-end [Order] type has it as
    [expires_at]. *)
Record Order : Type := {
  ID : N;                       (* uint64, primaryKey;autoIncrement *)
  OrderNo : string;             (* gorm:"-" *)
  OrderName : string;
  MerchantOrderNo : string;
  ClientID : string;
  PayerUsername : string;
  PayeeUsername : string;
  Amount : Decimal;             (* numeric(20,2) *)
  Status : OrderStatus;
  Type_ : OrderType;
  Remark : string;
  TradeTime : Z;
  ExpiresAt : Z;
  CreatedAt : Z;                (* autoCreateTime *)
  UpdatedAt : Z                 (* autoUpdateTime *)
}.

Definition set_OrderNo (o : Order) (s : string) : Order :=
  {| ID := ID o; OrderNo := s; OrderName := OrderName o;
     MerchantOrderNo := MerchantOrderNo o; ClientID := ClientID o;
     PayerUsername := PayerUsername o; PayeeUsername := PayeeUsername o;
     Amount := Amount o; Status := Status o; Type_ := Type_ o;
     Remark := Remark o; TradeTime := TradeTime o; ExpiresAt := ExpiresAt o;
     CreatedAt := CreatedAt o; UpdatedAt := UpdatedAt o |}.

(** The [AfterFind] hook of [Order]: it formats [OrderNo] from [ID]
    and returns no error. *)
Definition AfterFind (o : Order) : result Order :=
  match fmt.Sprintf_018d (ID o) with
  | Some s => Ok (set_OrderNo o s)
  | None => Err (ErrPanic "runtime error: index out of range")
  end.

Record User : Type := {
  User_ID : N;
  Username : string;
  Nickname : string;
  AvatarUrl : string;
  TrustLevel : N;
  PayScore : Z;
  PayKey : string;
  SignKey : string;
  TotalReceive : Decimal;
  TotalPayment : Decimal;
  TotalTransfer : Decimal;
  TotalCommunity : Decimal;
  AvailableBalance : Decimal;
  IsActive : bool;
  IsAdmin : bool;
  LastLoginAt : Z;
  User_CreatedAt : Z;
  User_UpdatedAt : Z
}.

(** [UserGamificationScoreResponse] *)
Record UserGamificationScoreResponse : Type := { GamificationScore : Z }.

End model.

(** ** The datastore

    Tables hold rows; a [numeric(20,2)] column holds a count of
    hundredths.  The [orders] table has no [order_no] column. *)

Module store.
Import decimal.

(** A row of [users]; the primary key [id] is the key of the table. *)
Record user_row : Type := {
  username : string;
  nickname : string;
  avatar_url : string;
  trust_level : N;
  pay_score : Z;
  pay_key : string;
  sign_key : string;
  total_receive : Z;
  total_payment : Z;
  total_transfer : Z;
  total_community : Z;
  available_balance : Z;
  is_active : bool;
  is_admin : bool;
  last_login_at : Z;
  created_at : Z;
  updated_at : Z
}.

Record order_row : Type := {
  o_id : N;
  o_order_name : string;
  o_merchant_order_no : string;
  o_client_id : string;
  o_payer_username : string;
  o_payee_username : string;
  o_amount : Z;
  o_status : string;
  o_type : string;
  o_remark : string;
  o_trade_time : Z;
  o_expires_at : Z;
  o_created_at : Z;
  o_updated_at : Z
}.

(** Reading a [numeric(20,2)] value: the driver hands over the text
    with two fractional digits, which [Decimal.Scan] parses. *)
Definition scan_numeric (n : Z) : Decimal := {| value := n; exp := -2 |}.

(** Storing a decimal in a [numeric(20,2)] column: exact when the
    decimal has at most two fractional digits, otherwise rounded
    half away from zero. *)
Definition store_numeric (d : Decimal) : Z :=
  if -2 <=? exp d then value d * 10 ^ (exp d + 2)
  else
    let scale := 10 ^ (- (exp d + 2)) in
    Z.sgn (value d) * ((Z.abs (value d) + scale / 2) / scale).

Record DB : Type := {
  users : gmap N user_row;
  orders : list order_row;
  orders_seq : N               (* last value of the auto-increment sequence *)
}.

Definition scan_user (uid : N) (r : user_row) : model.User :=
  {| model.User_ID := uid; model.Username := username r;
     model.Nickname := nickname r; model.AvatarUrl := avatar_url r;
     model.TrustLevel := trust_level r; model.PayScore := pay_score r;
     model.PayKey := pay_key r; model.SignKey := sign_key r;
     model.TotalReceive := scan_numeric (total_receive r);
     model.TotalPayment := scan_numeric (total_payment r);
     model.TotalTransfer := scan_numeric (total_transfer r);
     model.TotalCommunity := scan_numeric (total_community r);
     model.AvailableBalance := scan_numeric (available_balance r);
     model.IsActive := is_active r; model.IsAdmin := is_admin r;
     model.LastLoginAt := last_login_at r;
     model.User_CreatedAt := created_at r; model.User_UpdatedAt := updated_at r |}.

(** [Select("u.id, u.username")]: the other fields keep Go's zero values. *)
Definition scan_user_id_username (kr : N * user_row) : model.User :=
  {| model.User_ID := kr.1; model.Username := username kr.2;
     model.Nickname := ""; model.AvatarUrl := "";
     model.TrustLevel := 0%N; model.PayScore := 0;
     model.PayKey := ""; model.SignKey := "";
     model.TotalReceive := NewFromInt 0; model.TotalPayment := NewFromInt 0;
     model.TotalTransfer := NewFromInt 0; model.TotalCommunity := NewFromInt 0;
     model.AvailableBalance := NewFromInt 0;
     model.IsActive := false; model.IsAdmin := false;
     model.LastLoginAt := 0; model.User_CreatedAt := 0; model.User_UpdatedAt := 0 |}.

(** A row as inserted by [Create]: the primary key comes from the
    sequence, [created_at]/[updated_at] from the clock; [OrderNo] is
    not a column. *)
Definition row_of_order (o : model.Order) (new_id : N) (now : Z) : order_row :=
  {| o_id := new_id; o_order_name := model.OrderName o;
     o_merchant_order_no := model.MerchantOrderNo o;
     o_client_id := model.ClientID o;
     o_payer_username := model.PayerUsername o;
     o_payee_username := model.PayeeUsername o;
     o_amount := store_numeric (model.Amount o);
     o_status := model.Status o; o_type := model.Type_ o;
     o_remark := model.Remark o; o_trade_time := model.TradeTime o;
     o_expires_at := model.ExpiresAt o;
     o_created_at := now; o_updated_at := now |}.

(** A row as scanned by [Find], before the [AfterFind] hook runs. *)
Definition scan_order (r : order_row) : model.Order :=
  {| model.ID := o_id r; model.OrderNo := "";
     model.OrderName := o_order_name r;
     model.MerchantOrderNo := o_merchant_order_no r;
     model.ClientID := o_client_id r;
     model.PayerUsername := o_payer_username r;
     model.PayeeUsername := o_payee_username r;
     model.Amount := scan_numeric (o_amount r);
     model.Status := o_status r; model.Type_ := o_type r;
     model.Remark := o_remark r; model.TradeTime := o_trade_time r;
     model.ExpiresAt := o_expires_at r;
     model.CreatedAt := o_created_at r; model.UpdatedAt := o_updated_at r |}.

End store.

(** ** The world the handlers run in

    Handlers are state transformers over the datastore, the task
    queue and the trace of statements sent to the datastore.  The
    environment fixes everything a handler reads from outside: the
    clock, the configuration, the external score source, and which
    datastore statements and enqueue calls fail. *)

Module gorm.
Import decimal store.

(** The right-hand side of a column assignment: a plain value, or
    [gorm.Expr("col + ?", d)]. *)
Inductive expr : Type :=
| Val (d : Decimal)
| ColPlus (col : string) (d : Decimal).

(** The [Where] conditions the order listing builds. *)
Inductive cond : Type :=
| PayeeOrPayer (u : string)
| StatusEq (s : model.OrderStatus)
| TypeEq (t : model.OrderType)
| CreatedGe (t : Z)
| CreatedLe (t : Z).

Inductive stmt : Type :=
| SelectUserByID (uid : N)
| SelectActivePage (cutoff limit offset : Z)
| Begin
| Commit
| UpdateUser (uid : N) (set : list (string * expr))
| InsertOrder (o : model.Order)
| CountOrders (q : list cond)
| SelectOrders (q : list cond) (offset limit : Z).

End gorm.

(** A task handed to the queue: [asynq.NewTask(type, payload)] with
    the options [ProcessIn(delay)] and [MaxRetry(n)].  The payload is
    the JSON object [{"user_id": id}]; a payload that does not decode
    to that shape is [BadPayload]. *)
Module asynq.

Inductive payload : Type :=
| UserIDPayload (user_id : N)
| BadPayload (raw : string) (e : error).

Record Task : Type := { Typename : string; Payload : payload }.

Record Scheduled : Type := {
  task : Task;
  ProcessIn : Z;              (* time.Duration, nanoseconds *)
  MaxRetry : Z
}.

End asynq.

Record World : Type := {
  db : store.DB;
  queue : list asynq.Scheduled;
  trace : list gorm.stmt
}.

Record Env : Type := {
  now : Z;                                                   (* time.Now() *)
  stmt_fault : gorm.stmt -> option error;
  enqueue_fault : asynq.Scheduled -> option error;
  score_source : string -> result model.UserGamificationScoreResponse;
  SessionAge : Z;                                            (* config.Config.App.SessionAge *)
  UserGamificationScoreDispatchIntervalSeconds : Z;          (* config.Config.Schedule *)
  UpdateSingleUserGamificationScoreTask : string             (* constant of package task *)
}.

(** The state-and-error monad of the handlers. *)
Definition M (A : Type) : Type := World -> result A * World.

Definition ret {A} (a : A) : M A := fun w => (Ok a, w).
Definition fail {A} (e : error) : M A := fun w => (Err e, w).
Definition bind {A B} (m : M A) (k : A -> M B) : M B :=
  fun w => match m w with
           | (Ok a, w') => k a w'
           | (Err e, w') => (Err e, w')
           end.

Declare Scope go_scope.
Delimit Scope go_scope with go.
Notation "x <- m ;; k" := (bind m (fun x => k))
  (at level 100, m at next level, right associativity) : go_scope.
Notation "m ;;; k" := (bind m (fun _ => k))
  (at level 100, right associativity) : go_scope.

Definition get_db : M store.DB := fun w => (Ok (db w), w).
Definition put_db (d : store.DB) : M unit :=
  fun w => (Ok tt, {| db := d; queue := queue w; trace := trace w |}).

Module gorm_ops.
Import decimal store gorm.
Local Open Scope go_scope.

(** Send a statement: it is recorded, and fails if the environment
    says so. *)
Definition exec (env : Env) (s : stmt) : M unit :=
  fun w =>
    let w' := {| db := db w; queue := queue w; trace := trace w ++ [s] |} in
    match stmt_fault env s with
    | Some e => (Err e, w')
    | None => (Ok tt, w')
    end.

(** [db.Where("id = ?", id).First(&user)] *)
Definition First_user (env : Env) (uid : N) : M model.User :=
  exec env (SelectUserByID uid) ;;;
  d <- get_db ;;
  match users d !! uid with
  | Some r => ret (scan_user uid r)
  | None => fail ErrRecordNotFound
  end.

Definition with_totals (r : user_row) (tr tp tt tc ab : Z) : user_row :=
  {| username := username r; nickname := nickname r;
     avatar_url := avatar_url r; trust_level := trust_level r;
     pay_score := pay_score r; pay_key := pay_key r; sign_key := sign_key r;
     total_receive := tr; total_payment := tp; total_transfer := tt;
     total_community := tc; available_balance := ab;
     is_active := is_active r; is_admin := is_admin r;
     last_login_at := last_login_at r;
     created_at := created_at r; updated_at := updated_at r |}.

Definition numeric_col (r : user_row) (c : string) : option Z :=
  if (c =? "total_receive")%string then Some (total_receive r)
  else if (c =? "total_payment")%string then Some (total_payment r)
  else if (c =? "total_transfer")%string then Some (total_transfer r)
  else if (c =? "total_community")%string then Some (total_community r)
  else if (c =? "available_balance")%string then Some (available_balance r)
  else None.

Definition set_numeric_col (r : user_row) (c : string) (v : Z) : option user_row :=
  let tr := total_receive r in let tp := total_payment r in
  let tt := total_transfer r in let tc := total_community r in
  let ab := available_balance r in
  if (c =? "total_receive")%string then Some (with_totals r v tp tt tc ab)
  else if (c =? "total_payment")%string then Some (with_totals r tr v tt tc ab)
  else if (c =? "total_transfer")%string then Some (with_totals r tr tp v tc ab)
  else if (c =? "total_community")%string then Some (with_totals r tr tp tt v ab)
  else if (c =? "available_balance")%string then Some (with_totals r tr tp tt tc v)
  else None.

(** Every right-hand side is evaluated on the row as it stands
    in the table before the statement. *)
Definition eval_expr (old : user_row) (e : expr) : option Z :=
  match e with
  | Val d => Some (store_numeric d)
  | ColPlus c d =>
      match numeric_col old c with
      | Some v => Some (store_numeric (Add (scan_numeric v) d))
      | None => None
      end
  end.

Fixpoint apply_set (old : user_row) (set : list (string * expr)) (r : user_row)
  : option user_row :=
  match set with
  | [] => Some r
  | (c, e) :: rest =>
      match eval_expr old e with
      | Some v =>
          match set_numeric_col r c v with
          | Some r' => apply_set old rest r'
          | None => None
          end
      | None => None
      end
  end.

(** [tx.Model(&user).UpdateColumns(set)]:
    [UPDATE users SET ... WHERE id = user.ID], no hooks and no
    time tracking. *)
Definition UpdateColumns (env : Env) (u : model.User) (set : list (string * expr))
  : M unit :=
  exec env (UpdateUser (model.User_ID u) set) ;;;
  d <- get_db ;;
  match users d !! model.User_ID u with
  | None => ret tt
  | Some r =>
      match apply_set r set r with
      | Some r' =>
          put_db {| users := <[model.User_ID u := r']> (users d);
                    orders := orders d; orders_seq := orders_seq d |}
      | None => fail (ErrDatastore "column does not exist")
      end
  end.

(** [tx.Create(&order)] *)
Definition Create_order (env : Env) (o : model.Order) : M unit :=
  exec env (InsertOrder o) ;;;
  d <- get_db ;;
  let new_id := (orders_seq d + 1)%N in
  put_db {| users := users d;
            orders := orders d ++ [row_of_order o new_id (now env)];
            orders_seq := new_id |}.

(** Undo the table changes made since [snap]; sequence values that
    were handed out stay consumed. *)
Definition rollback (snap w : World) : World :=
  {| db := {| users := users (db snap); orders := orders (db snap);
              orders_seq := orders_seq (db w) |};
     queue := queue w; trace := trace w |}.

(** [db.Transaction(fc)]: begin, run [fc], commit if it returned
    [nil], roll back otherwise (also when the commit fails). *)
Definition Transaction (env : Env) (fc : M unit) : M unit :=
  fun w =>
    match exec env Begin w with
    | (Err e, w1) => (Err e, w1)
    | (Ok _, w1) =>
        match fc w1 with
        | (Err e, w2) => (Err e, rollback w1 w2)
        | (Ok _, w2) =>
            match exec env Commit w2 with
            | (Err e, w3) => (Err e, rollback w1 w3)
            | (Ok _, w3) => (Ok tt, w3)
            end
        end
    end.

End gorm_ops.

(** Go's [int] and [time.Duration] are 64-bit two's-complement. *)
Definition wrap64 (z : Z) : Z := (z + 2 ^ 63) mod 2 ^ 64 - 2 ^ 63.

(** [if err != nil { return fmt.Errorf(prefix + ": %w", err) }] *)
Definition wrap_err {A} (prefix : string) (m : M A) : M A :=
  fun w => match m w with
           | (Err e, w') => (Err (Errorf prefix e), w')
           | r => r
           end.

Definition lift {A} (r : result A) : M A := fun w => (r, w).

(** ** Package [user]: the task handlers of [tasks.go]

    Calls to the logger change nothing the handlers or their callers
    read; they are left out. *)

Module user.
Import decimal store gorm gorm_ops asynq.
Local Open Scope go_scope.

Definition Second : Z := 1000000000.
Definition day : Z := 86400 * Second.

(** *** The dispatcher *)

(** The rows with [last_login_at >= cutoff], most recent login first. *)
Definition login_desc (a b : N * user_row) : Prop :=
  last_login_at b.2 <= last_login_at a.2.

#[global] Instance login_desc_dec a b : Decision (login_desc a b).
Proof. unfold login_desc. apply _. Defined.

Definition active_users (d : DB) (cutoff : Z) : list (N * user_row) :=
  merge_sort login_desc
    (filter (fun kr => cutoff <= last_login_at kr.2) (map_to_list (users d))).

(** The page query: the join keeps exactly the rows of the inner
    [ORDER BY last_login_at DESC LIMIT ? OFFSET ?]; they are listed
    in that order. *)
Definition Find_active_page (env : Env) (cutoff limit offset : Z) : M (list model.User) :=
  exec env (SelectActivePage cutoff limit offset) ;;;
  d <- get_db ;;
  if (limit <? 0) || (offset <? 0)
  then fail (ErrDatastore "LIMIT and OFFSET must not be negative")
  else ret (scan_user_id_username <$>
              take (Z.to_nat limit) (drop (Z.to_nat offset) (active_users d cutoff))).

(** [schedule.AsynqClient.Enqueue(task, opts...)] *)
Definition Enqueue (env : Env) (s : Scheduled) : M unit :=
  fun w =>
    match enqueue_fault env s with
    | Some e => (Err e, w)
    | None => (Ok tt, {| db := db w; queue := queue w ++ [s]; trace := trace w |})
    end.

(** [for _, user := range users { ... }]; yields the delay reached. *)
Fixpoint enqueue_users (env : Env) (us : list model.User) (currentDelay : Z) : M Z :=
  match us with
  | [] => ret currentDelay
  | u :: rest =>
      let currentDelay :=
        wrap64 (currentDelay +
                wrap64 (UserGamificationScoreDispatchIntervalSeconds env * Second)) in
      let payload := UserIDPayload (model.User_ID u) in
      Enqueue env
        {| task := {| Typename := UpdateSingleUserGamificationScoreTask env;
                      Payload := payload |};
           ProcessIn := currentDelay; MaxRetry := 3 |} ;;;
      enqueue_users env rest currentDelay
  end.

(** The [for { ... }] loop over pages.  [fuel] bounds the number of
    iterations; [None] means the bound was reached. *)
Fixpoint sweep (fuel : nat) (env : Env) (pageSize oneWeekAgo page currentDelay : Z)
  (w : World) : option (result unit * World) :=
  match fuel with
  | O => None
  | S fuel' =>
      match Find_active_page env oneWeekAgo pageSize (wrap64 (page * pageSize)) w with
      | (Err e, w1) => Some (Err e, w1)
      | (Ok users, w1) =>
          if (List.length users =? 0)%nat then Some (Ok tt, w1)
          else
            match enqueue_users env users currentDelay w1 with
            | (Err e, w2) => Some (Err e, w2)
            | (Ok currentDelay', w2) =>
                sweep fuel' env pageSize oneWeekAgo (wrap64 (page + 1)) currentDelay' w2
            end
      end
  end.

(** The activity cut-off: midnight of the current day minus the
    session age in days, at least 7 (days of 24 hours). *)
Definition oneWeekAgo (env : Env) : Z :=
  let today := now env - now env mod day in
  let sessionAgeDays := Z.quot (SessionAge env) 86400 in
  let sessionAgeDays := if sessionAgeDays <? 7 then 7 else sessionAgeDays in
  today - sessionAgeDays * day.

Definition HandleUpdateUserGamificationScores (fuel : nat) (env : Env) (t : Task)
  (w : World) : option (result unit * World) :=
  let pageSize := 200 in
  let page := 0 in
  let currentDelay := 0 * Second in
  sweep fuel env pageSize (oneWeekAgo env) page currentDelay w.

(** *** The single-user worker *)

Definition community_order (user : model.User)
  (oldCommunityBalance newCommunityBalance diff : Decimal) (now_ : Z) : model.Order :=
  {| model.ID := 0%N; model.OrderNo := "";
     model.OrderName := "社区积分更新";
     model.MerchantOrderNo := ""; model.ClientID := "";
     model.PayerUsername := "LINUX DO Community";
     model.PayeeUsername := model.Username user;
     model.Amount := diff;
     model.Status := model.OrderStatusSuccess;
     model.Type_ := model.OrderTypeCommunity;
     model.Remark :=
       "社区积分从 " ++ String_ oldCommunityBalance ++ " 更新到 "
       ++ String_ newCommunityBalance ++ "，变化 " ++ String_ diff;
     model.TradeTime := now_; model.ExpiresAt := now_;
     model.CreatedAt := 0; model.UpdatedAt := 0 |}.

(** The function passed to [Transaction]. *)
Definition update_score_tx (env : Env) (user : model.User)
  (oldCommunityBalance newCommunityBalance diff : Decimal) (now_ : Z) : M unit :=
  wrap_err ("更新用户[" ++ model.Username user ++ "]积分失败")
    (UpdateColumns env user
       [("total_community", Val newCommunityBalance);
        ("total_receive", ColPlus "total_receive" diff);
        ("available_balance", ColPlus "available_balance" diff)]) ;;;
  let order := community_order user oldCommunityBalance newCommunityBalance diff now_ in
  wrap_err ("创建用户[" ++ model.Username user ++ "]社区积分订单失败")
    (Create_order env order) ;;;
  ret tt.

Definition query_user_prefix (uid : N) : result string :=
  match fmt.Sprintf_d uid with
  | Some s => Ok ("查询用户ID[" ++ s ++ "]失败")
  | None => Err (ErrPanic "runtime error: index out of range")
  end.

Definition HandleUpdateSingleUserGamificationScore (env : Env) (t : Task) : M unit :=
  match Payload t with
  | BadPayload _ e => fail (Errorf "解析任务参数失败" e)
  | UserIDPayload uid =>
      user <- (fun w =>
                 match First_user env uid w with
                 | (Err e, w') =>
                     match query_user_prefix uid with
                     | Ok p => (Err (Errorf p e), w')
                     | Err panic => (Err panic, w')
                     end
                 | r => r
                 end) ;;
      response <- lift (score_source env (model.Username user)) ;;
      let newCommunityBalance := NewFromInt (model.GamificationScore response) in
      if Equal (model.TotalCommunity user) newCommunityBalance then ret tt
      else
        let diff := Sub newCommunityBalance (model.TotalCommunity user) in
        let oldCommunityBalance := model.TotalCommunity user in
        let now_ := now env in
        Transaction env
          (update_score_tx env user oldCommunityBalance newCommunityBalance diff now_)
  end.

End user.

(** ** Package [util]: the response envelope *)

Module util.

Record Response (T : Type) : Type := { ErrorMsg : string; Data : option T }.
Arguments ErrorMsg {T} _.
Arguments Data {T} _.

Definition OK {T} (data : T) : Response T := {| ErrorMsg := ""; Data := Some data |}.
Definition Err_ {T} (msg : string) : Response T := {| ErrorMsg := msg; Data := None |}.

End util.

(** ** Package [order]: the transaction listing of [routers.go] *)

Module order.
Import decimal store gorm gorm_ops.
Local Open Scope go_scope.

Record TransactionListRequest : Type := {
  Page : Z;                    (* binding:"min=1" *)
  PageSize : Z;                (* binding:"min=1,max=100" *)
  Type_ : string;              (* binding:"omitempty,oneof=receive payment transfer community" *)
  Status : string;             (* binding:"omitempty,oneof=success pending failed disputing refund refunded" *)
  StartTime : option Z;        (* binding:"omitempty" *)
  EndTime : option Z           (* binding:"omitempty,gtfield=StartTime" *)
}.


Record TransactionListResponse : Type := {
  Total : Z;
  resp_Page : Z;
  resp_PageSize : Z;
  Orders : list model.Order
}.

(** *** The binding tags, as the validator checks them *)

Record FieldError : Type := { Field : string; Tag : string }.

Definition Type_oneof : list string := ["receive"; "payment"; "transfer"; "community"].
Definition Status_oneof : list string :=
  ["success"; "pending"; "failed"; "disputing"; "refund"; "refunded"].

Definition isOneOf (vals : list string) (v : string) : bool :=
  existsb (String.eqb v) vals.

Definition validate_Page (req : TransactionListRequest) : list FieldError :=
  if Page req <? 1 then [{| Field := "Page"; Tag := "min" |}] else [].

Definition validate_PageSize (req : TransactionListRequest) : list FieldError :=
  if PageSize req <? 1 then [{| Field := "PageSize"; Tag := "min" |}]
  else if 100 <? PageSize req then [{| Field := "PageSize"; Tag := "max" |}]
  else [].

Definition validate_Type (req : TransactionListRequest) : list FieldError :=
  if (Type_ req =? "")%string then []
  else if isOneOf Type_oneof (Type_ req) then []
  else [{| Field := "Type"; Tag := "oneof" |}].

Definition validate_Status (req : TransactionListRequest) : list FieldError :=
  if (Status req =? "")%string then []
  else if isOneOf Status_oneof (Status req) then []
  else [{| Field := "Status"; Tag := "oneof" |}].

(** [gtfield] on a set [EndTime] fails when [StartTime] is unset:
    the two fields then have different kinds. *)
Definition validate_EndTime (req : TransactionListRequest) : list FieldError :=
  match EndTime req with
  | None => []
  | Some e =>
      match StartTime req with
      | Some s => if s <? e then [] else [{| Field := "EndTime"; Tag := "gtfield" |}]
      | None => [{| Field := "EndTime"; Tag := "gtfield" |}]
      end
  end.

Definition validate (req : TransactionListRequest) : list FieldError :=
  (validate_Page req ++ validate_PageSize req ++ validate_Type req
   ++ validate_Status req ++ validate_EndTime req)%list.

Definition newline : string := String (ascii_of_nat 10) "".

Definition FieldError_Error (fe : FieldError) : string :=
  "Key: 'TransactionListRequest." ++ Field fe
  ++ "' Error:Field validation for '" ++ Field fe
  ++ "' failed on the '" ++ Tag fe ++ "' tag".

Fixpoint ValidationErrors_Error (errs : list FieldError) : string :=
  match errs with
  | [] => ""
  | [fe] => FieldError_Error fe
  | fe :: rest => FieldError_Error fe ++ newline ++ ValidationErrors_Error rest
  end.

(** [c.ShouldBindJSON(&req)]: [decoded] is the outcome of decoding
    the body; a decoded request is then validated. *)
Definition ShouldBindJSON (decoded : result TransactionListRequest)
  : result TransactionListRequest :=
  match decoded with
  | Err e => Err e
  | Ok req =>
      match validate req with
      | [] => Ok req
      | errs => Err (ErrValidation (ValidationErrors_Error errs))
      end
  end.

(** *** The queries *)

Definition holds (c : cond) (r : order_row) : bool :=
  match c with
  | PayeeOrPayer u =>
      (o_payee_username r =? u)%string || (o_payer_username r =? u)%string
  | StatusEq s => (o_status r =? s)%string
  | TypeEq t => (o_type r =? t)%string
  | CreatedGe t => t <=? o_created_at r
  | CreatedLe t => o_created_at r <=? t
  end.

Definition selected (q : list cond) (d : DB) : list order_row :=
  List.filter (fun r => forallb (fun c => holds c r) q) (orders d).

Definition created_desc (a b : order_row) : Prop := o_created_at b <= o_created_at a.

#[global] Instance created_desc_dec a b : Decision (created_desc a b).
Proof. unfold created_desc. apply _. Defined.

(** [baseQuery.Count(&total)] *)
Definition Count (env : Env) (q : list cond) : M Z :=
  exec env (CountOrders q) ;;;
  d <- get_db ;;
  ret (Z.of_nat (List.length (selected q d))).

Fixpoint after_find_all (os : list model.Order) : result (list model.Order) :=
  match os with
  | [] => Ok []
  | o :: rest =>
      match model.AfterFind o with
      | Err e => Err e
      | Ok o' =>
          match after_find_all rest with
          | Err e => Err e
          | Ok rest' => Ok (o' :: rest')
          end
      end
  end.

(** [baseQuery.Order("created_at DESC").Offset(offset).Limit(limit).Find(&orders)]:
    gorm emits [OFFSET] only for a positive offset and [LIMIT] only
    for a non-negative limit; every row found goes through
    [AfterFind]. *)
Definition Find (env : Env) (q : list cond) (offset limit : Z) : M (list model.Order) :=
  exec env (SelectOrders q offset limit) ;;;
  d <- get_db ;;
  let sorted := merge_sort created_desc (selected q d) in
  let skipped := drop (Z.to_nat offset) sorted in
  let rows := if limit <? 0 then skipped else take (Z.to_nat limit) skipped in
  lift (after_find_all (scan_order <$> rows)).

(** *** The handler; it answers with a status code and an envelope *)

Definition StatusOK : Z := 200.
Definition StatusBadRequest : Z := 400.
Definition StatusInternalServerError : Z := 500.

Definition ListTransactions (env : Env) (decoded : result TransactionListRequest)
  (user : model.User) (w : World)
  : (Z * util.Response TransactionListResponse) * World :=
  match ShouldBindJSON decoded with
  | Err err => ((StatusBadRequest, util.Err_ (Error err)), w)
  | Ok req =>
      let baseQuery := [PayeeOrPayer (model.Username user)] in
      let baseQuery :=
        if negb (Status req =? "")%string
        then (baseQuery ++ [StatusEq (Status req)])%list else baseQuery in
      let baseQuery :=
        if negb (Type_ req =? "")%string
        then (baseQuery ++ [TypeEq (Type_ req)])%list else baseQuery in
      let baseQuery :=
        match StartTime req with
        | Some t => (baseQuery ++ [CreatedGe t])%list
        | None => baseQuery
        end in
      let baseQuery :=
        match EndTime req with
        | Some t => (baseQuery ++ [CreatedLe t])%list
        | None => baseQuery
        end in
      match Count env baseQuery w with
      | (Err err, w1) => ((StatusInternalServerError, util.Err_ (Error err)), w1)
      | (Ok total, w1) =>
          let offset := wrap64 ((Page req - 1) * PageSize req) in
          match Find env baseQuery offset (PageSize req) w1 with
          | (Err err, w2) => ((StatusInternalServerError, util.Err_ (Error err)), w2)
          | (Ok orders, w2) =>
              ((StatusOK,
                util.OK {| Total := total; resp_Page := Page req;
                           resp_PageSize := PageSize req; Orders := orders |}), w2)
          end
      end
  end.

End order.

(** ** Reference definitions

    Notions the statements below compare the code against; they are
    written from the wording of the design document, not from the Go
    code. *)

Module spec.

(** [pad(s, width, c)]: [s] left-padded with [c] to at least
    [width] characters. *)
Definition pad (s : string) (width : nat) (c : ascii) : string :=
  string_of_list_ascii (replicate (width - String.length s) c) ++ s.

(** [order_no = pad(id, 18, '0')], [id] rendered in decimal. *)
Definition order_no (id : N) : string := pad (pretty id) 18 "0"%char.

End spec.

(** ** Vocabulary of the statements

    Names for what the worker computes from a stored row [r] and an
    observed [score]; totals are counts of hundredths. *)

Module ledger.
Import decimal store gorm gorm_ops.

(** The column map of the worker's [UpdateColumns] call. *)
Definition score_set (newBal diff : Decimal) : list (string * expr) :=
  [("total_community", Val newBal);
   ("total_receive", ColPlus "total_receive" diff);
   ("available_balance", ColPlus "available_balance" diff)].

(** [new - old], with two fractional digits. *)
Definition score_diff (r : user_row) (score : Z) : Decimal :=
  {| value := score * 100 - total_community r; exp := -2 |}.

(** The row after the update. *)
Definition credited (r : user_row) (score : Z) : user_row :=
  let d := score * 100 - total_community r in
  with_totals r (total_receive r + d) (total_payment r) (total_transfer r)
    (score * 100) (available_balance r + d).

Definition score_update (uid : N) (r : user_row) (score : Z) : stmt :=
  UpdateUser uid (score_set (NewFromInt score) (score_diff r score)).

Definition score_order (env : Env) (uid : N) (r : user_row) (score : Z) : model.Order :=
  user.community_order (scan_user uid r) (scan_numeric (total_community r))
    (NewFromInt score) (score_diff r score) (now env).

Definition update_prefix (r : user_row) : string :=
  "更新用户[" ++ username r ++ "]积分失败".
Definition create_prefix (r : user_row) : string :=
  "创建用户[" ++ username r ++ "]社区积分订单失败".

(** The world after the statements [l] were sent without effect on
    the tables. *)
Definition logged (w : World) (l : list stmt) : World :=
  {| db := db w; queue := queue w; trace := trace w ++ l |}.

End ledger.

(** What a sweep is expected to issue and enqueue. *)
Module dispatch.
Import store gorm asynq.

(** The users of the activity window as the page query lists them. *)
Definition candidates (w : World) (cutoff : Z) : list model.User :=
  scan_user_id_username <$> user.active_users (db w) cutoff.

Definition scheduled (env : Env) (u : model.User) (d : Z) : Scheduled :=
  {| task := {| Typename := UpdateSingleUserGamificationScoreTask env;
                Payload := UserIDPayload (model.User_ID u) |};
     ProcessIn := d; MaxRetry := 3 |}.

Definition next_delay (env : Env) (d : Z) : Z :=
  wrap64 (d + wrap64 (UserGamificationScoreDispatchIntervalSeconds env * user.Second)).

(** The tasks for the users [us], in order, the delay standing at
    [d] before the first. *)
Fixpoint plan (env : Env) (us : list model.User) (d : Z) : list Scheduled :=
  match us with
  | [] => []
  | u :: rest => scheduled env u (next_delay env d) :: plan env rest (next_delay env d)
  end.

Fixpoint delay_after (env : Env) (us : list model.User) (d : Z) : Z :=
  match us with
  | [] => d
  | _ :: rest => delay_after env rest (next_delay env d)
  end.

(** The query for page [k] (pages count from 0), and the first [m]
    of them. *)
Definition page_query (cutoff pageSize : Z) (k : nat) : stmt :=
  SelectActivePage cutoff pageSize (Z.of_nat k * pageSize).

Definition page_queries (cutoff pageSize : Z) (m : nat) : list stmt :=
  page_query cutoff pageSize <$> seq 0 m.

(** [ceil(n / p)] *)
Definition ceil_div (n p : Z) : Z := (n + p - 1) / p.

(** The delay and the world when the loop is about to query page [k],
    all earlier pages having gone through. *)
Definition delay_at (env : Env) (pageSize cutoff : Z) (w : World) (k : nat) : Z :=
  delay_after env (take (k * Z.to_nat pageSize) (candidates w cutoff)) 0.

Definition at_page (env : Env) (pageSize cutoff : Z) (w : World) (k : nat) : World :=
  {| db := db w;
     queue := queue w ++ take (k * Z.to_nat pageSize) (plan env (candidates w cutoff) 0);
     trace := trace w ++ page_queries cutoff pageSize k |}.

End dispatch.

(** What the listing reads. *)
Module listing.
Import store gorm order.

(** The conditions the handler puts on the query. *)
Definition base_query (req : TransactionListRequest) (user : model.User) : list cond :=
  ([PayeeOrPayer (model.Username user)]
   ++ (if negb (Status req =? "")%string then [StatusEq (Status req)] else [])
   ++ (if negb (Type_ req =? "")%string then [TypeEq (Type_ req)] else [])
   ++ match StartTime req with Some t => [CreatedGe t] | None => [] end
   ++ match EndTime req with Some t => [CreatedLe t] | None => [] end)%list.

(** The rows [Find] hands to the hook, and what comes back. *)
Definition page_rows (q : list cond) (offset limit : Z) (d : DB) : list order_row :=
  let skipped := drop (Z.to_nat offset) (merge_sort created_desc (selected q d)) in
  if limit <? 0 then skipped else take (Z.to_nat limit) skipped.

End listing.

(** ** Runs of the worker in sequence, and totals over the tables *)

Module runs.
Import store gorm_ops asynq.

(** The worker run once per job, each run in the world the previous
    one left; a job brings its own environment. *)
Fixpoint run_worker (jobs : list (Env * Task)) (w : World) : World :=
  match jobs with
  | [] => w
  | (env, t) :: rest =>
      run_worker rest (user.HandleUpdateSingleUserGamificationScore env t w).2
  end.

Definition Zsum (l : list Z) : Z := foldr Z.add 0 l.

(** Column totals, in hundredths. *)
Definition sum_available (d : DB) : Z :=
  Zsum ((fun kr : N * user_row => available_balance kr.2) <$> map_to_list (users d)).

Definition sum_receive (d : DB) : Z :=
  Zsum ((fun kr : N * user_row => total_receive kr.2) <$> map_to_list (users d)).

Definition sum_amounts (d : DB) : Z := Zsum (o_amount <$> orders d).

(** [r'] differs from [r] at most in [total_receive],
    [total_community] and [available_balance]. *)
Definition other_columns_kept (r r' : user_row) : Prop :=
  r' = with_totals r (total_receive r') (total_payment r) (total_transfer r)
         (total_community r') (available_balance r').

End runs.

(** ** What the tasks of a sweep look like *)

Module window.
Import store asynq.


End window.

(** ** Reading a display number *)

Module display.

(** The value of a decimal digit, and of a string of digits read from
    the left. *)
Definition digit_value (c : ascii) : N := (N_of_ascii c - 48)%N.

Fixpoint read_from (acc : N) (s : string) : N :=
  match s with
  | EmptyString => acc
  | String c rest => read_from (acc * 10 + digit_value c) rest
  end.

Definition read_number (s : string) : N := read_from 0 s.

Definition is_digit (c : ascii) : bool :=
  ((48 <=? N_of_ascii c) && (N_of_ascii c <=? 57))%N.

End display.

(** ** Bytes, and the errors of the encoding and cipher packages

    A [[]byte] is a list of bytes; [[]byte(s)] and [string(b)] are
    [list_byte_of_string] and [string_of_list_byte]. *)

Inductive failure : Type :=
| InvalidByteError (c : ascii)        (* encoding/hex *)
| ErrLength                           (* encoding/hex *)
| CorruptInputError                   (* encoding/base64; the offset is left out *)
| KeySizeError (n : nat)              (* crypto/aes *)
| ErrBlockSize                        (* crypto/cipher: NewGCM requires 128-bit block cipher *)
| errOpen                             (* crypto/cipher: message authentication failed *)
| EOF                                 (* io *)
| ErrUnexpectedEOF                    (* io *)
| errors_New (msg : string)
| fmt_Errorf (prefix : string) (inner : failure).

Inductive outcome (A : Type) : Type :=
| Done (a : A)
| Failed (e : failure).
Arguments Done {A} a.
Arguments Failed {A} e.

(** The byte with value [n mod 256]: Go's [byte(n)]. *)
Definition byte_of (n : N) : byte :=
  match Byte.of_N (n mod 256) with
  | Some b => b
  | None => x00
  end.

Module io.

(** A reader is the bytes it will still deliver; after them it
    reports the end of input.  [io.ReadFull(r, buf)] with
    [len(buf) = n]. *)
Definition ReadFull (r : list byte) (n : nat) : outcome (list byte) :=
  if (n <=? List.length r)%nat then Done (take n r)
  else match r with
       | [] => Failed EOF
       | _ => Failed ErrUnexpectedEOF
       end.

End io.

Module hex.

Definition hextable : string := "0123456789abcdef".

Definition hexchar (i : N) : ascii :=
  match String.get (N.to_nat i) hextable with
  | Some c => c
  | None => "000"%char
  end.

(** [reverseHexTable]: the value of a digit of either case. *)
Definition fromHexChar (c : ascii) : option N :=
  let n := N_of_ascii c in
  if ((48 <=? n) && (n <=? 57))%N then Some (n - 48)%N
  else if ((97 <=? n) && (n <=? 102))%N then Some (n - 97 + 10)%N
  else if ((65 <=? n) && (n <=? 70))%N then Some (n - 65 + 10)%N
  else None.

(** [dst[j] = hextable[v>>4]; dst[j+1] = hextable[v&0x0f]] *)
Fixpoint Encode (src : list byte) : list ascii :=
  match src with
  | [] => []
  | v :: rest =>
      hexchar (N.shiftr (Byte.to_N v) 4) :: hexchar (N.land (Byte.to_N v) 15)
        :: Encode rest
  end.

Definition EncodeToString (src : list byte) : string :=
  string_of_list_ascii (Encode src).

(** The loop of [Decode] over pairs, then the check of an odd
    length; an invalid character is reported before a bad length.
    The bytes returned beside an error are left out. *)
Fixpoint Decode (src : list ascii) : outcome (list byte) :=
  match src with
  | [] => Done []
  | [p] =>
      match fromHexChar p with
      | None => Failed (InvalidByteError p)
      | Some _ => Failed ErrLength
      end
  | p :: q :: rest =>
      match fromHexChar p with
      | None => Failed (InvalidByteError p)
      | Some a =>
          match fromHexChar q with
          | None => Failed (InvalidByteError q)
          | Some b =>
              match Decode rest with
              | Done bs => Done (byte_of (N.lor (N.shiftl a 4) b) :: bs)
              | Failed e => Failed e
              end
          end
      end
  end.

Definition DecodeString (s : string) : outcome (list byte) :=
  Decode (list_ascii_of_string s).

End hex.

Module base64.

Definition encodeStd : string :=
  "ABCDEFGHIJKLMNOPQRSTUVWXYZabcdefghijklmnopqrstuvwxyz0123456789+/".

Definition StdPadding : ascii := "="%char.

(** [enc.encode[i]] *)
Definition encode (i : N) : ascii :=
  match String.get (N.to_nat i) encodeStd with
  | Some c => c
  | None => "000"%char
  end.

(** [enc.decodeMap[c]]: the index of [c] in the alphabet; [None] is
    the entry [0xFF]. *)
Fixpoint index_from (i : N) (alphabet : string) (c : ascii) : option N :=
  match alphabet with
  | EmptyString => None
  | String a rest => if Ascii.eqb a c then Some i else index_from (i + 1) rest c
  end.

Definition decodeMap (c : ascii) : option N := index_from 0 encodeStd c.

Definition sextet (val : N) (shift : N) : ascii :=
  encode (N.land (N.shiftr val shift) 63).

(** [Encode]: whole groups of three bytes, then the remainder of one
    or two bytes, padded. *)
Fixpoint Encode (src : list byte) : list ascii :=
  match src with
  | [] => []
  | [b0] =>
      let val := N.shiftl (Byte.to_N b0) 16 in
      [sextet val 18; sextet val 12; StdPadding; StdPadding]
  | [b0; b1] =>
      let val := N.lor (N.shiftl (Byte.to_N b0) 16) (N.shiftl (Byte.to_N b1) 8) in
      [sextet val 18; sextet val 12; sextet val 6; StdPadding]
  | b0 :: b1 :: b2 :: rest =>
      let val := N.lor (N.lor (N.shiftl (Byte.to_N b0) 16) (N.shiftl (Byte.to_N b1) 8))
                   (Byte.to_N b2) in
      sextet val 18 :: sextet val 12 :: sextet val 6 :: sextet val 0 :: Encode rest
  end.

Definition EncodeToString (src : list byte) : string :=
  string_of_list_ascii (Encode src).

Definition newline (c : ascii) : bool :=
  Ascii.eqb c (ascii_of_nat 10) || Ascii.eqb c (ascii_of_nat 13).

(** [val = dbuf[0]<<18 | dbuf[1]<<12 | dbuf[2]<<6 | dbuf[3]] *)
Definition quantum (d0 d1 d2 d3 : N) : N :=
  N.lor (N.lor (N.lor (N.shiftl d0 18) (N.shiftl d1 12)) (N.shiftl d2 6)) d3.

(** [decodeQuantum], quantum after quantum, on the input without its
    line breaks (the decoder skips ['\r'] and ['\n'] wherever they
    stand).  A quantum is four characters of the alphabet; the last
    one may end in one or two padding characters after at least two
    characters of the alphabet, and nothing may follow the padding.
    The decoding is not strict: the bits left over in a padded
    quantum are dropped. *)
Fixpoint decodeQuanta (src : list ascii) : outcome (list byte) :=
  match src with
  | [] => Done []
  | c0 :: c1 :: c2 :: c3 :: rest =>
      match decodeMap c0, decodeMap c1 with
      | Some d0, Some d1 =>
          match decodeMap c2 with
          | Some d2 =>
              match decodeMap c3 with
              | Some d3 =>
                  let val := quantum d0 d1 d2 d3 in
                  match decodeQuanta rest with
                  | Done bs =>
                      Done (byte_of (N.shiftr val 16) :: byte_of (N.shiftr val 8)
                              :: byte_of val :: bs)
                  | Failed e => Failed e
                  end
              | None =>
                  if Ascii.eqb c3 StdPadding && bool_decide (rest = [])
                  then let val := quantum d0 d1 d2 0 in
                       Done [byte_of (N.shiftr val 16); byte_of (N.shiftr val 8)]
                  else Failed CorruptInputError
              end
          | None =>
              if Ascii.eqb c2 StdPadding && Ascii.eqb c3 StdPadding
                 && bool_decide (rest = [])
              then let val := quantum d0 d1 0 0 in
                   Done [byte_of (N.shiftr val 16)]
              else Failed CorruptInputError
          end
      | _, _ => Failed CorruptInputError
      end
  | _ => Failed CorruptInputError
  end.

Definition DecodeString (s : string) : outcome (list byte) :=
  decodeQuanta (List.filter (fun c => negb (newline c)) (list_ascii_of_string s)).

End base64.

Module sha256.

(** [sha256.Sum256], whose result has type [[32]byte]. *)
Class Hash : Type := {
  Sum256 : list byte -> list byte;
  Size : forall data : list byte, List.length (Sum256 data) = 32%nat
}.

End sha256.

Module aes.

Definition BlockSize : nat := 16.

Record Block : Type := { key : list byte }.

(** [aes.NewCipher]: the key must have 16, 24 or 32 bytes. *)
Definition NewCipher (k : list byte) : outcome Block :=
  match List.length k with
  | 16%nat | 24%nat | 32%nat => Done {| key := k |}
  | n => Failed (KeySizeError n)
  end.

End aes.

Module cipher.

(** The sealing and opening of AES-GCM for a key, a nonce, a text
    and additional data; opening gives [None] when the
    authentication fails. *)
Class Algorithm : Type := {
  seal : list byte -> list byte -> list byte -> list byte -> list byte;
  open : list byte -> list byte -> list byte -> list byte -> option (list byte)
}.

Record GCM : Type := { block : aes.Block }.

(** [cipher.NewGCM]: the block cipher must have 128-bit blocks. *)
Definition NewGCM (b : aes.Block) : outcome GCM :=
  if (aes.BlockSize =? 16)%nat then Done {| block := b |} else Failed ErrBlockSize.

(** [gcmStandardNonceSize] *)
Definition NonceSize (g : GCM) : nat := 12.

(** [Seal] and [Open] append their result to [dst]. *)
Definition Seal `{Algorithm} (g : GCM) (dst nonce plaintext additionalData : list byte)
  : list byte :=
  (dst ++ seal (aes.key (block g)) nonce plaintext additionalData)%list.

Definition Open `{Algorithm} (g : GCM) (dst nonce ciphertext additionalData : list byte)
  : outcome (list byte) :=
  match open (aes.key (block g)) nonce ciphertext additionalData with
  | Some plaintext => Done (dst ++ plaintext)%list
  | None => Failed errOpen
  end.

End cipher.

(** ** Package [util]: field encryption and identifiers

    [rand.Reader] is the reader [random]. *)

Module util_crypto.

Definition encryptBytes `{cipher.Algorithm} (random : list byte) (signKey : string)
  (plaintext : list byte) : outcome string :=
  match hex.DecodeString signKey with
  | Failed err => Failed (fmt_Errorf "invalid sign key" err)
  | Done key =>
      if negb (List.length key =? 32)%nat
      then Failed (errors_New "sign key must be 32 bytes (64 hex characters)")
      else
        match aes.NewCipher key with
        | Failed err => Failed (fmt_Errorf "failed to create cipher" err)
        | Done block =>
            match cipher.NewGCM block with
            | Failed err => Failed (fmt_Errorf "failed to create GCM" err)
            | Done gcm =>
                match io.ReadFull random (cipher.NonceSize gcm) with
                | Failed err => Failed (fmt_Errorf "failed to generate nonce" err)
                | Done nonce =>
                    let ciphertext := cipher.Seal gcm nonce nonce plaintext [] in
                    Done (base64.EncodeToString ciphertext)
                end
            end
        end
  end.

Definition decryptBytes `{cipher.Algorithm} (signKey : string) (ciphertext : string)
  : outcome (list byte) :=
  match hex.DecodeString signKey with
  | Failed err => Failed (fmt_Errorf "invalid sign key" err)
  | Done key =>
      if negb (List.length key =? 32)%nat
      then Failed (errors_New "sign key must be 32 bytes (64 hex characters)")
      else
        match base64.DecodeString ciphertext with
        | Failed err => Failed (fmt_Errorf "failed to decode ciphertext" err)
        | Done data =>
            match aes.NewCipher key with
            | Failed err => Failed (fmt_Errorf "failed to create cipher" err)
            | Done block =>
                match cipher.NewGCM block with
                | Failed err => Failed (fmt_Errorf "failed to create GCM" err)
                | Done gcm =>
                    let nonceSize := cipher.NonceSize gcm in
                    if (List.length data <? nonceSize)%nat
                    then Failed (errors_New "ciphertext too short")
                    else
                      let nonce := take nonceSize data in
                      let ciphertextBytes := drop nonceSize data in
                      match cipher.Open gcm [] nonce ciphertextBytes [] with
                      | Failed err => Failed (fmt_Errorf "failed to decrypt" err)
                      | Done plaintext => Done plaintext
                      end
                end
            end
        end
  end.

Definition Encrypt `{cipher.Algorithm} (random : list byte) (signKey : string)
  (plaintext : string) : outcome string :=
  encryptBytes random signKey (list_byte_of_string plaintext).

Definition Decrypt `{cipher.Algorithm} (signKey : string) (ciphertext : string)
  : outcome string :=
  match decryptBytes signKey ciphertext with
  | Failed err => Failed err
  | Done plaintext => Done (string_of_list_byte plaintext)
  end.

(** [copy(dst, src)]: the first [min(len(dst), len(src))] bytes of
    [dst] are overwritten. *)
Definition copy (dst src : list byte) : list byte :=
  (take (List.length dst) src ++ drop (List.length src) dst)%list.

(** [uuid] is the string [uuid.NewString()] returns.  A read that
    fails leaves the bytes it got at the front of the buffer. *)
Definition GenerateUniqueIDSimple `{sha256.Hash} (random : list byte) (uuid : string)
  : string :=
  let randomBytes := replicate 32 x00 in
  let randomBytes :=
    match io.ReadFull random 32 with
    | Done bs => bs
    | Failed _ =>
        let uuidBytes := list_byte_of_string uuid in
        let hash := sha256.Sum256 uuidBytes in
        copy (random ++ drop (List.length random) randomBytes)%list hash
    end in
  hex.EncodeToString randomBytes.

End util_crypto.

(** ** Stand-ins for the primitives, used to instantiate the statements *)

Module example_crypto.

(** A cipher that seals nothing and a hash that is constant. *)
Definition null_cipher : cipher.Algorithm :=
  {| cipher.seal := fun _ _ plaintext _ => plaintext;
     cipher.open := fun _ _ ciphertext _ => Some ciphertext |}.

Definition zero_hash : sha256.Hash :=
  {| sha256.Sum256 := fun _ => replicate 32 x00;
     sha256.Size := fun _ => eq_refl |}.

Definition key_bytes : list byte := replicate 32 "a"%byte.
Definition sign_key : string := hex.EncodeToString key_bytes.
Definition nonce_source : list byte := replicate 16 "z"%byte.

End example_crypto.

(** ** The request context of gin, and the merchant's API key in it *)

Module gin.

(** A value of type [any] as the key map holds it: its dynamic type
    with its value.  A [*model.MerchantAPIKey] is [nil] or points to a
    key; [K] is the type [model.MerchantAPIKey]. *)
Inductive any (K : Type) : Type :=
| NilAny                                (* the nil interface value *)
| APIKeyPointer (p : option K)          (* dynamic type *model.MerchantAPIKey *)
| OtherValue (typ : string) (repr : string).  (* a value of another type *)
Arguments NilAny {K}.
Arguments APIKeyPointer {K} p.
Arguments OtherValue {K} typ repr.

(** [Context.Keys], a [map[string]any] that is [nil] until the first
    [Set]. *)
Record Context (K : Type) : Type := { Keys : option (gmap string (any K)) }.
Arguments Keys {K} c.

(** [Context.Set]:
    [if c.Keys == nil { c.Keys = make(map[string]any) }; c.Keys[key] = value] *)
Definition Set_ {K : Type} (c : Context K) (key : string) (value : any K) : Context K :=
  {| Keys := Some (<[key := value]> (match Keys c with Some m => m | None => ∅ end)) |}.

(** [value, exists = c.Keys[key]] *)
Definition Get {K : Type} (c : Context K) (key : string) : any K * bool :=
  match Keys c with
  | None => (NilAny, false)
  | Some m =>
      match m !! key with
      | Some value => (value, true)
      | None => (NilAny, false)
      end
  end.

End gin.

Module merchant.
Import gin.

(** [APIKeyObjKey] is a constant of the package; its value is not
    among the sources and is a parameter here. *)
Definition GetAPIKeyFromContext {K : Type} (APIKeyObjKey : string) (c : Context K)
  : option K * bool :=
  let (apiKey, exists_) := Get c APIKeyObjKey in
  if negb exists_ then (None, false)
  else
    match apiKey with
    | APIKeyPointer key => (key, true)
    | _ => (None, false)
    end.

Definition SetAPIKeyToContext {K : Type} (APIKeyObjKey : string) (c : Context K)
  (apiKey : option K) : Context K :=
  Set_ c APIKeyObjKey (APIKeyPointer apiKey).

End merchant.

(** ** A small concrete world, used to instantiate the statements *)

Module example.
Import store.

Definition row (name : string) (tr tc ab login : Z) : user_row :=
  {| username := name; nickname := ""; avatar_url := ""; trust_level := 1%N;
     pay_score := 7; pay_key := ""; sign_key := name;
     total_receive := tr; total_payment := 1100; total_transfer := 2200;
     total_community := tc; available_balance := ab;
     is_active := true; is_admin := false;
     last_login_at := login; created_at := 1; updated_at := 2 |}.

Definition now0 : Z := 1700000000000000000.

Definition alice : user_row := row "alice" 20000 10000 5000 (now0 - 1000).
Definition bob : user_row := row "bob" 0 5000 700 (now0 - 5000).

Definition db0 : DB :=
  {| users := <[1%N := alice]> (<[2%N := bob]> ∅); orders := []; orders_seq := 0%N |}.

Definition w0 : World := {| db := db0; queue := []; trace := [] |}.

(** No fault; every user's observed score is [score]. *)
Definition env_score (score : Z) : Env :=
  {| now := now0;
     stmt_fault := fun _ => None;
     enqueue_fault := fun _ => None;
     score_source := fun _ => Ok {| model.GamificationScore := score |};
     SessionAge := 0;
     UserGamificationScoreDispatchIntervalSeconds := 2;
     UpdateSingleUserGamificationScoreTask := "update_single_user_gamification_score" |}.

(** As [env_score], but the datastore rejects every [UPDATE users]. *)
Definition env_update_fails (score : Z) : Env :=
  {| now := now0;
     stmt_fault := fun s => match s with
                            | gorm.UpdateUser _ _ => Some (ErrDatastore "deadlock detected")
                            | _ => None
                            end;
     enqueue_fault := fun _ => None;
     score_source := fun _ => Ok {| model.GamificationScore := score |};
     SessionAge := 0;
     UserGamificationScoreDispatchIntervalSeconds := 2;
     UpdateSingleUserGamificationScoreTask := "update_single_user_gamification_score" |}.

(** As [env_score], but the score source is down. *)
Definition env_source_down : Env :=
  {| now := now0;
     stmt_fault := fun _ => None;
     enqueue_fault := fun _ => None;
     score_source := fun _ => Err (ErrExternal "Get https://linux.do: timeout");
     SessionAge := 0;
     UserGamificationScoreDispatchIntervalSeconds := 2;
     UpdateSingleUserGamificationScoreTask := "update_single_user_gamification_score" |}.

(** As [env_score], with a per-user dispatch interval of zero seconds. *)
Definition env_zero_interval : Env :=
  {| now := now0;
     stmt_fault := fun _ => None;
     enqueue_fault := fun _ => None;
     score_source := fun _ => Ok {| model.GamificationScore := 0 |};
     SessionAge := 0;
     UserGamificationScoreDispatchIntervalSeconds := 0;
     UpdateSingleUserGamificationScoreTask := "update_single_user_gamification_score" |}.

(** As [env_score], but the queue rejects the task of user [uid]. *)
Definition env_enqueue_fails (uid : N) : Env :=
  {| now := now0;
     stmt_fault := fun _ => None;
     enqueue_fault :=
       fun s => match asynq.Payload (asynq.task s) with
                | asynq.UserIDPayload u =>
                    if (u =? uid)%N then Some (ErrEnqueue "redis: connection refused")
                    else None
                | _ => None
                end;
     score_source := fun _ => Ok {| model.GamificationScore := 0 |};
     SessionAge := 0;
     UserGamificationScoreDispatchIntervalSeconds := 2;
     UpdateSingleUserGamificationScoreTask := "update_single_user_gamification_score" |}.

(** Three orders of alice, inserted out of creation order, and one
    order between other users. *)
Definition order_row_at (oid : N) (payer payee : string) (amount created : Z)
  : order_row :=
  {| o_id := oid; o_order_name := "order"; o_merchant_order_no := "";
     o_client_id := ""; o_payer_username := payer; o_payee_username := payee;
     o_amount := amount; o_status := "success"; o_type := "transfer";
     o_remark := ""; o_trade_time := created; o_expires_at := created;
     o_created_at := created; o_updated_at := created |}.

Definition w_orders : World :=
  {| db := {| users := users db0;
              orders := [order_row_at 1 "alice" "bob" 500 (now0 - 300);
                         order_row_at 2 "carol" "alice" 700 (now0 - 100);
                         order_row_at 3 "carol" "bob" 900 (now0 - 50);
                         order_row_at 4 "bob" "alice" 100 (now0 - 200)];
              orders_seq := 4%N |};
     queue := []; trace := [] |}.

Definition first_page (size : Z) (status : string) : order.TransactionListRequest :=
  {| order.Page := 1; order.PageSize := size; order.Type_ := "";
     order.Status := status; order.StartTime := None; order.EndTime := None |}.

Definition task_for (uid : N) : asynq.Task :=
  {| asynq.Typename := "update_single_user_gamification_score";
     asynq.Payload := asynq.UserIDPayload uid |}.

End example.

(** * Facts about the embedding *)

(** ** Errors *)

Lemma errors_Is_refl (e : error) : errors_Is e e = true.
Proof.
  destruct e; cbn [errors_Is]; rewrite bool_decide_eq_true_2 by done; reflexivity.
Qed.

Lemma errors_Is_wrapped (e : error) (prefix : string) :
  errors_Is (Errorf prefix e) e = true.
Proof. cbn [errors_Is]. rewrite errors_Is_refl. apply orb_true_r. Qed.

(** ** Integer formatting *)

Section fmt_facts.
Import fmt.

Lemma digit_byte_char (u : N) : (u < 10)%N -> digit_byte u = pretty_N_char u.
Proof.
  intros Hu.
  assert (u = 0 \/ u = 1 \/ u = 2 \/ u = 3 \/ u = 4 \/ u = 5
          \/ u = 6 \/ u = 7 \/ u = 8 \/ u = 9)%N as Hcases by lia.
  repeat (destruct Hcases as [-> | Hcases]; [reflexivity |]).
  subst u. reflexivity.
Qed.

Lemma write_digits_small (i : nat) (u : N) (out : string) :
  (u < 10)%N -> write_digits i u out = Some (i, u, out).
Proof.
  intros Hu. destruct i; simpl; destruct (N.leb_spec 10 u); (lia || reflexivity).
Qed.

Lemma write_digits_step (i : nat) (u : N) (out : string) :
  (10 <= u)%N ->
  write_digits (S i) u out
  = write_digits i (u / 10) (String (digit_byte (u - u / 10 * 10)) out).
Proof.
  intros Hu. simpl. destruct (N.leb_spec 10 u); [reflexivity | lia].
Qed.

Lemma pretty_N_go_small (u : N) (out : string) :
  (0 < u < 10)%N -> pretty_N_go u out = String (digit_byte u) out.
Proof.
  intros [Hpos Hlt]. rewrite pretty_N_go_step by done.
  rewrite N.div_small, N.mod_small, pretty_N_go_0 by done.
  now rewrite digit_byte_char.
Qed.

(** The digit loop stops after at most [k] rounds on a number below
    [10 ^ (k + 1)], and what it has written, with the leading digit
    still to come, is the decimal rendering. *)
Lemma write_digits_spec (k : nat) :
  forall (i : nat) (u : N) (out : string),
    (u < 10 ^ N.of_nat (S k))%N -> (k <= i)%nat ->
    exists (j : nat) (u' : N) (out' : string),
      write_digits i u out = Some ((i - j)%nat, u', out')
      /\ (j <= k)%nat
      /\ String.length out' = (String.length out + j)%nat
      /\ (u' < 10)%N
      /\ (u = 0%N -> u' = 0%N /\ out' = out)
      /\ ((0 < u)%N -> String (digit_byte u') out' = pretty_N_go u out).
Proof.
  induction k as [| k IH]; intros i u out Hu Hk.
  - change (10 ^ N.of_nat 1)%N with 10%N in Hu.
    exists O, u, out. rewrite write_digits_small by done.
    replace (i - 0)%nat with i by lia.
    split; [reflexivity |]. split; [lia |]. split; [lia |].
    split; [done |]. split; [done |].
    intros Hpos. symmetry. now apply pretty_N_go_small.
  - destruct (N.leb_spec 10 u) as [Hge | Hlt].
    + destruct i as [| i]; [lia |].
      assert (u / 10 < 10 ^ N.of_nat (S k))%N as Hdiv.
      { apply N.Div0.div_lt_upper_bound.
        replace (N.of_nat (S (S k))) with (N.succ (N.of_nat (S k))) in Hu by lia.
        rewrite N.pow_succ_r' in Hu. exact Hu. }
      assert (0 < u / 10)%N as Hdivpos.
      { apply N.div_str_pos. lia. }
      destruct (IH i (u / 10)%N
                  (String (digit_byte (u - u / 10 * 10)) out) Hdiv ltac:(lia))
        as (j & u' & out' & Hw & Hj & Hlen & Hu' & _ & Hpretty).
      exists (S j), u', out'.
      rewrite write_digits_step by done.
      replace (S i - S j)%nat with (i - j)%nat by lia.
      split; [exact Hw |]. split; [lia |].
      split; [simpl in Hlen; lia |]. split; [exact Hu' |].
      split; [lia |].
      intros Hpos. rewrite Hpretty by done.
      rewrite (pretty_N_go_step u) by done.
      replace (u - u / 10 * 10)%N with (u mod 10)%N.
      * rewrite digit_byte_char by (apply N.mod_lt; lia). reflexivity.
      * rewrite N.Div0.mod_eq, (N.mul_comm 10). reflexivity.
    + exists O, u, out. rewrite write_digits_small by done.
      replace (i - 0)%nat with i by lia.
      split; [reflexivity |]. split; [lia |]. split; [lia |].
      split; [done |]. split; [done |].
      intros Hpos. symmetry. now apply pretty_N_go_small.
Qed.

Lemma writePadding_replicate (n : nat) (c : ascii) (s : string) :
  writePadding n c s = string_of_list_ascii (replicate n c) ++ s.
Proof. induction n as [| n IH]; simpl; [reflexivity | now rewrite IH]. Qed.

Lemma writePadding_length (n : nat) (c : ascii) (s : string) :
  String.length (writePadding n c s) = (n + String.length s)%nat.
Proof. induction n as [| n IH]; simpl; [reflexivity | now rewrite IH]. Qed.

Lemma pad_length (s : string) (width : nat) (c : ascii) :
  String.length (spec.pad s width c) = (width - String.length s + String.length s)%nat.
Proof.
  unfold spec.pad. rewrite <- writePadding_replicate. apply writePadding_length.
Qed.

Lemma zero_fill_spec (i : nat) :
  forall (prec : nat) (s : string),
    (prec - String.length s <= i)%nat ->
    zero_fill i prec s = writePadding (prec - String.length s) "0"%char s.
Proof.
  induction i as [| i IH]; intros prec s Hroom.
  - replace (prec - String.length s)%nat with O by lia. reflexivity.
  - simpl. destruct (Nat.ltb_spec (String.length s) prec) as [Hlt | Hge].
    + rewrite IH by (simpl; lia). simpl String.length.
      replace (prec - String.length s)%nat
        with (S (prec - S (String.length s))) by lia.
      simpl. clear. generalize (prec - S (String.length s))%nat as n.
      induction n as [| n IHn]; simpl; [reflexivity | now rewrite IHn].
    + replace (prec - String.length s)%nat with O by lia. reflexivity.
Qed.

(** The digits [fmtInteger] produces before any padding. *)
Lemma leading_digit_pretty (u u' : N) (out' : string) :
  (u = 0%N -> u' = 0%N /\ out' = "") ->
  ((0 < u)%N -> String (digit_byte u') out' = pretty_N_go u "") ->
  String (digit_byte u') out' = pretty u.
Proof.
  intros H0 Hpos. unfold pretty, pretty_N.
  destruct (decide (u = 0%N)) as [-> | Hne].
  - destruct H0 as [-> ->]; reflexivity.
  - apply Hpos. lia.
Qed.

Lemma pow10_20 : (2 ^ 64 < 10 ^ N.of_nat 20)%N.
Proof. reflexivity. Qed.

Lemma fmtInteger_digits (f : flags) (u : N) :
  (u < 2 ^ 64)%N -> (wid f <= 18)%nat ->
  fmtInteger f u
  = Some (pad f (writePadding
                   ((if zero f && widPresent f then wid f else O)
                    - String.length (pretty u)) "0"%char (pretty u))).
Proof.
  intros Hu Hwid. unfold fmtInteger.
  assert ((if widPresent f && (intbuf_len <? 3 + wid f)%nat
           then (3 + wid f)%nat else intbuf_len) = 68%nat) as ->.
  { unfold intbuf_len. destruct (Nat.ltb_spec 68 (3 + wid f)); [lia |].
    now rewrite andb_false_r. }
  destruct (write_digits_spec 19 68 u "")
    as (j & u' & out' & Hw & Hj & Hlen & Hu' & H0 & Hpos);
    [ pose proof pow10_20; lia | lia |].
  rewrite Hw.
  destruct (68 - j)%nat as [| i'] eqn:Hi; [lia |].
  pose proof (leading_digit_pretty u u' out' H0 Hpos) as Hd.
  rewrite Hd.
  assert (String.length (pretty u) = S j) as Hl.
  { rewrite <- Hd. simpl. rewrite Hlen. reflexivity. }
  rewrite zero_fill_spec; [reflexivity |].
  destruct (zero f && widPresent f); lia.
Qed.

Lemma Sprintf_018d_spec (u : N) :
  (u < 2 ^ 64)%N -> Sprintf_018d u = Some (spec.order_no u).
Proof.
  intros Hu. unfold Sprintf_018d.
  rewrite fmtInteger_digits by (cbn; (done || lia)).
  cbn [zero widPresent wid andb]. unfold pad. cbn [widPresent wid negb orb Nat.eqb].
  rewrite writePadding_length.
  replace (18 - (18 - String.length (pretty u) + String.length (pretty u)))%nat
    with O by lia.
  cbn [writePadding]. unfold spec.order_no, spec.pad.
  f_equal. apply writePadding_replicate.
Qed.

Lemma Sprintf_d_spec (u : N) :
  (u < 2 ^ 64)%N -> Sprintf_d u = Some (pretty u).
Proof.
  intros Hu. unfold Sprintf_d.
  rewrite fmtInteger_digits by (cbn; (done || lia)).
  reflexivity.
Qed.

End fmt_facts.

(** ** The display number of an order *)

(** C7.  For every order (its ID a [uint64]) the [AfterFind] hook
    returns the order with its [OrderNo] field holding the ID rendered
    in decimal and left-padded with ['0'] to 18 characters (so at
    least 18 characters long), and with every other field as it was.
    The number is not persisted: the row written by [Create] is the
    same for two orders that differ in [OrderNo] alone, a row scanned
    back has an empty [OrderNo], and the hook recomputes the number
    from the row's ID.  An order with ID 42 gets the display number
    "000000000000000042" and one with ID 123456789012345678 gets its
    own 18 digits. *)
Theorem order_no_display (o : model.Order) (Hid : (model.ID o < 2 ^ 64)%N) :
  (exists o' : model.Order,
     model.AfterFind o = Ok o'
     /\ model.OrderNo o' = spec.order_no (model.ID o)
     /\ (18 <= String.length (model.OrderNo o'))%nat
     /\ model.ID o' = model.ID o
     /\ model.OrderName o' = model.OrderName o
     /\ model.MerchantOrderNo o' = model.MerchantOrderNo o
     /\ model.ClientID o' = model.ClientID o
     /\ model.PayerUsername o' = model.PayerUsername o
     /\ model.PayeeUsername o' = model.PayeeUsername o
     /\ model.Amount o' = model.Amount o
     /\ model.Status o' = model.Status o
     /\ model.Type_ o' = model.Type_ o
     /\ model.Remark o' = model.Remark o
     /\ model.TradeTime o' = model.TradeTime o
     /\ model.ExpiresAt o' = model.ExpiresAt o
     /\ model.CreatedAt o' = model.CreatedAt o
     /\ model.UpdatedAt o' = model.UpdatedAt o)
  /\ model.AfterFind o = Ok (model.set_OrderNo o (spec.order_no (model.ID o)))
  /\ (18 <= String.length (spec.order_no (model.ID o)))%nat
  /\ (forall (s : string) (new_id : N) (t : Z),
        model.OrderNo (model.set_OrderNo o s) = s
        /\ store.row_of_order (model.set_OrderNo o s) new_id t
           = store.row_of_order o new_id t
        /\ model.OrderNo (store.scan_order (store.row_of_order o new_id t)) = "")
  /\ (forall r : store.order_row,
        store.o_id r = model.ID o ->
        model.OrderNo (store.scan_order r) = ""
        /\ model.AfterFind (store.scan_order r)
           = Ok (model.set_OrderNo (store.scan_order r) (spec.order_no (model.ID o)))
        /\ exists o' : model.Order,
            model.AfterFind (store.scan_order r) = Ok o'
            /\ model.OrderNo o' = spec.order_no (model.ID o)
            /\ store.row_of_order o' (store.o_id r) (store.o_created_at r)
               = store.row_of_order (store.scan_order r) (store.o_id r)
                   (store.o_created_at r))
  /\ (model.ID o = 42%N ->
      exists o' : model.Order,
        model.AfterFind o = Ok o' /\ model.OrderNo o' = "000000000000000042")
  /\ (model.ID o = 123456789012345678%N ->
      exists o' : model.Order,
        model.AfterFind o = Ok o'
        /\ model.OrderNo o' = "123456789012345678"
        /\ model.OrderNo o' = pretty (model.ID o))
  /\ fmt.Sprintf_018d 42 = Some "000000000000000042"
  /\ fmt.Sprintf_018d 123456789012345678 = Some "123456789012345678"
  /\ pretty 123456789012345678%N = "123456789012345678".
Proof.
  assert (model.AfterFind o = Ok (model.set_OrderNo o (spec.order_no (model.ID o))))
    as Hfind.
  { unfold model.AfterFind. now rewrite Sprintf_018d_spec. }
  assert (18 <= String.length (spec.order_no (model.ID o)))%nat as Hlen.
  { unfold spec.order_no, spec.pad.
    fold (spec.pad (pretty (model.ID o)) 18 "0"%char). rewrite pad_length. lia. }
  split.
  { exists (model.set_OrderNo o (spec.order_no (model.ID o))).
    split; [exact Hfind |]. cbn [model.set_OrderNo model.OrderNo].
    split; [reflexivity |]. split; [exact Hlen |]. repeat split. }
  split; [exact Hfind |]. split; [exact Hlen |].
  split; [intros s new_id t; repeat split |].
  split.
  { intros r Hr. split; [reflexivity |].
    assert (model.AfterFind (store.scan_order r)
            = Ok (model.set_OrderNo (store.scan_order r) (spec.order_no (model.ID o))))
      as Hscan.
    { unfold model.AfterFind. cbn [store.scan_order model.ID].
      rewrite Hr. now rewrite Sprintf_018d_spec. }
    split; [exact Hscan |]. eexists. split; [exact Hscan |].
    split; reflexivity. }
  split.
  { intros H42. eexists. split; [exact Hfind |].
    cbn [model.set_OrderNo model.OrderNo]. rewrite H42. vm_compute. reflexivity. }
  split.
  { intros Hbig. eexists. split; [exact Hfind |].
    cbn [model.set_OrderNo model.OrderNo]. rewrite Hbig.
    split; vm_compute; reflexivity. }
  split; [vm_compute; reflexivity |].
  split; vm_compute; reflexivity.
Qed.

Lemma order_no_display_witness :
  exists o' : model.Order,
    model.AfterFind (store.scan_order
       {| store.o_id := 42; store.o_order_name := "n"; store.o_merchant_order_no := "";
          store.o_client_id := ""; store.o_payer_username := "a";
          store.o_payee_username := "b"; store.o_amount := 100;
          store.o_status := "success"; store.o_type := "transfer";
          store.o_remark := ""; store.o_trade_time := 0; store.o_expires_at := 0;
          store.o_created_at := 0; store.o_updated_at := 0 |}) = Ok o'
    /\ model.OrderNo o' = "000000000000000042"
    /\ model.ID o' = 42%N.
Proof.
  destruct (order_no_display (store.scan_order
       {| store.o_id := 42; store.o_order_name := "n"; store.o_merchant_order_no := "";
          store.o_client_id := ""; store.o_payer_username := "a";
          store.o_payee_username := "b"; store.o_amount := 100;
          store.o_status := "success"; store.o_type := "transfer";
          store.o_remark := ""; store.o_trade_time := 0; store.o_expires_at := 0;
          store.o_created_at := 0; store.o_updated_at := 0 |}))
    as ((o' & Hfind & Hno & _ & Hid & _) & _).
  - vm_compute. reflexivity.
  - exists o'. split; [exact Hfind |]. split; [| exact Hid].
    rewrite Hno. vm_compute. reflexivity.
Defined.


(** ** Decimals and [numeric(20,2)] columns *)

Section decimal_facts.
Import decimal store.

Lemma Sub_NewFromInt_scan (s tc : Z) :
  Sub (NewFromInt s) (scan_numeric tc) = {| value := s * 100 - tc; exp := -2 |}.
Proof. reflexivity. Qed.

Lemma Equal_scan_NewFromInt (tc s : Z) :
  Equal (scan_numeric tc) (NewFromInt s) = (tc =? s * 100).
Proof. rewrite Z.eqb_compare. reflexivity. Qed.

Lemma store_numeric_NewFromInt (s : Z) : store_numeric (NewFromInt s) = s * 100.
Proof. reflexivity. Qed.

Lemma store_numeric_Add_scan (v x : Z) :
  store_numeric (Add (scan_numeric v) {| value := x; exp := -2 |}) = v + x.
Proof. unfold store_numeric, Add, scan_numeric. cbn. lia. Qed.

End decimal_facts.

(** ** The single-user worker *)

Section worker_facts.
Import decimal store gorm gorm_ops asynq user ledger.
Variable env : Env.

Lemma exec_ok (s : stmt) (w : World) :
  stmt_fault env s = None -> exec env s w = (Ok tt, logged w [s]).
Proof. intros H. unfold exec. now rewrite H. Qed.

Lemma exec_err (s : stmt) (e : error) (w : World) :
  stmt_fault env s = Some e -> exec env s w = (Err e, logged w [s]).
Proof. intros H. unfold exec. now rewrite H. Qed.

Lemma apply_score_set (r : user_row) (score : Z) :
  apply_set r (score_set (NewFromInt score) (score_diff r score)) r
  = Some (credited r score).
Proof.
  unfold score_set, score_diff, apply_set, eval_expr, credited.
  cbn [numeric_col set_numeric_col String.eqb Ascii.eqb Bool.eqb].
  rewrite !store_numeric_Add_scan, store_numeric_NewFromInt.
  destruct r; reflexivity.
Qed.

(** The prefix of the lookup error is always available for a
    [uint64] identifier. *)
Lemma query_user_prefix_ok (uid : N) :
  (uid < 2 ^ 64)%N ->
  query_user_prefix uid = Ok ("查询用户ID[" ++ pretty uid ++ "]失败").
Proof. intros Hu. unfold query_user_prefix. now rewrite Sprintf_d_spec. Qed.

Lemma First_user_found (uid : N) (r : user_row) (w : World) :
  stmt_fault env (SelectUserByID uid) = None ->
  users (db w) !! uid = Some r ->
  First_user env uid w = (Ok (scan_user uid r), logged w [SelectUserByID uid]).
Proof.
  intros Hf Hr. unfold First_user, bind. rewrite exec_ok by done.
  unfold get_db. cbn. rewrite Hr. reflexivity.
Qed.

Lemma UpdateColumns_score (uid : N) (r : user_row) (score : Z) (w : World) :
  stmt_fault env (score_update uid r score) = None ->
  users (db w) !! uid = Some r ->
  UpdateColumns env (scan_user uid r)
    (score_set (NewFromInt score) (score_diff r score)) w
  = (Ok tt,
     {| db := {| users := <[uid := credited r score]> (users (db w));
                 orders := orders (db w); orders_seq := orders_seq (db w) |};
        queue := queue w; trace := trace w ++ [score_update uid r score] |}).
Proof.
  intros Hf Hr. unfold UpdateColumns, bind. cbn [model.User_ID scan_user].
  fold (score_update uid r score). rewrite exec_ok by done.
  unfold get_db, logged. cbn [db]. rewrite Hr, apply_score_set. reflexivity.
Qed.

(** Up to the transaction: the user is found, the score source
    answers, and the score differs from the stored total. *)
Lemma worker_reaches_tx (t : Task) (w : World) (uid : N) (r : user_row) (score : Z) :
  Payload t = UserIDPayload uid ->
  users (db w) !! uid = Some r ->
  score_source env (username r) = Ok {| model.GamificationScore := score |} ->
  total_community r <> score * 100 ->
  stmt_fault env (SelectUserByID uid) = None ->
  HandleUpdateSingleUserGamificationScore env t w
  = Transaction env
      (update_score_tx env (scan_user uid r) (scan_numeric (total_community r))
         (NewFromInt score) (score_diff r score) (now env))
      (logged w [SelectUserByID uid]).
Proof.
  intros Hp Hr Hs Hne Hf1.
  unfold HandleUpdateSingleUserGamificationScore. rewrite Hp.
  unfold bind at 1. rewrite (First_user_found uid r) by done.
  unfold bind at 1, lift. cbn [model.Username scan_user]. rewrite Hs.
  cbn [model.TotalCommunity model.GamificationScore].
  change (model.TotalCommunity (scan_user uid r))
    with (scan_numeric (total_community r)).
  rewrite Equal_scan_NewFromInt.
  destruct (Z.eqb_spec (total_community r) (score * 100)) as [| _]; [done |].
  rewrite Sub_NewFromInt_scan. reflexivity.
Qed.

(** The score is unchanged: the short-circuit. *)
Lemma worker_skips (t : Task) (w : World) (uid : N) (r : user_row) (score : Z) :
  Payload t = UserIDPayload uid ->
  users (db w) !! uid = Some r ->
  score_source env (username r) = Ok {| model.GamificationScore := score |} ->
  total_community r = score * 100 ->
  stmt_fault env (SelectUserByID uid) = None ->
  HandleUpdateSingleUserGamificationScore env t w
  = (Ok tt, logged w [SelectUserByID uid]).
Proof.
  intros Hp Hr Hs Heq Hf1.
  unfold HandleUpdateSingleUserGamificationScore. rewrite Hp.
  unfold bind at 1. rewrite (First_user_found uid r) by done.
  unfold bind at 1, lift. cbn [model.Username scan_user]. rewrite Hs.
  cbn [model.TotalCommunity model.GamificationScore].
  change (model.TotalCommunity (scan_user uid r))
    with (scan_numeric (total_community r)).
  rewrite Equal_scan_NewFromInt.
  destruct (Z.eqb_spec (total_community r) (score * 100)) as [_ |]; done.
Qed.

(** The five ways the transaction of the worker can end. *)
Lemma tx_begin_fails (uid : N) (r : user_row) (score : Z) (w : World) (e : error) :
  stmt_fault env Begin = Some e ->
  Transaction env
    (update_score_tx env (scan_user uid r) (scan_numeric (total_community r))
       (NewFromInt score) (score_diff r score) (now env)) w
  = (Err e, logged w [Begin]).
Proof. intros Hf. unfold Transaction. now rewrite (exec_err _ e). Qed.

Lemma tx_update_fails (uid : N) (r : user_row) (score : Z) (w : World) (e : error) :
  stmt_fault env Begin = None ->
  stmt_fault env (score_update uid r score) = Some e ->
  exists w',
    Transaction env
      (update_score_tx env (scan_user uid r) (scan_numeric (total_community r))
         (NewFromInt score) (score_diff r score) (now env)) w
    = (Err (Errorf (update_prefix r) e), w')
    /\ users (db w') = users (db w) /\ orders (db w') = orders (db w)
    /\ queue w' = queue w
    /\ trace w' = (trace w ++ [Begin; score_update uid r score])%list.
Proof.
  intros Hf2 Hf3. unfold Transaction. rewrite exec_ok by done.
  unfold update_score_tx, bind, wrap_err, UpdateColumns.
  cbn [model.User_ID scan_user].
  fold (score_set (NewFromInt score) (score_diff r score)).
  fold (score_update uid r score).
  unfold bind. rewrite (exec_err _ e) by done.
  eexists; split; [reflexivity |].
  unfold rollback, logged. cbn. rewrite <- app_assoc. done.
Qed.

Lemma tx_insert_fails (uid : N) (r : user_row) (score : Z) (w : World) (e : error) :
  users (db w) !! uid = Some r ->
  stmt_fault env Begin = None ->
  stmt_fault env (score_update uid r score) = None ->
  stmt_fault env (InsertOrder (score_order env uid r score)) = Some e ->
  exists w',
    Transaction env
      (update_score_tx env (scan_user uid r) (scan_numeric (total_community r))
         (NewFromInt score) (score_diff r score) (now env)) w
    = (Err (Errorf (create_prefix r) e), w')
    /\ users (db w') = users (db w) /\ orders (db w') = orders (db w)
    /\ queue w' = queue w
    /\ trace w' = (trace w ++ [Begin; score_update uid r score;
                              InsertOrder (score_order env uid r score)])%list.
Proof.
  intros Hr Hf2 Hf3 Hf4. unfold Transaction. rewrite exec_ok by done.
  unfold update_score_tx, bind, wrap_err.
  fold (score_set (NewFromInt score) (score_diff r score)).
  rewrite (UpdateColumns_score uid r score) by done.
  fold (score_order env uid r score).
  unfold Create_order, bind. rewrite (exec_err _ e) by done.
  eexists; split; [reflexivity |].
  unfold rollback, logged. cbn. rewrite <- !app_assoc. done.
Qed.

Lemma tx_commit_fails (uid : N) (r : user_row) (score : Z) (w : World) (e : error) :
  users (db w) !! uid = Some r ->
  stmt_fault env Begin = None ->
  stmt_fault env (score_update uid r score) = None ->
  stmt_fault env (InsertOrder (score_order env uid r score)) = None ->
  stmt_fault env Commit = Some e ->
  exists w',
    Transaction env
      (update_score_tx env (scan_user uid r) (scan_numeric (total_community r))
         (NewFromInt score) (score_diff r score) (now env)) w
    = (Err e, w')
    /\ users (db w') = users (db w) /\ orders (db w') = orders (db w)
    /\ queue w' = queue w
    /\ trace w' = (trace w ++ [Begin; score_update uid r score;
                              InsertOrder (score_order env uid r score); Commit])%list.
Proof.
  intros Hr Hf2 Hf3 Hf4 Hf5. unfold Transaction. rewrite exec_ok by done.
  unfold update_score_tx, bind, wrap_err.
  fold (score_set (NewFromInt score) (score_diff r score)).
  rewrite (UpdateColumns_score uid r score) by done.
  fold (score_order env uid r score).
  unfold Create_order, bind. rewrite exec_ok by done.
  unfold get_db, put_db, ret. cbn [fst snd].
  rewrite (exec_err _ e) by done.
  eexists; split; [reflexivity |].
  unfold rollback, logged. cbn. rewrite <- !app_assoc. done.
Qed.

Lemma tx_commits (uid : N) (r : user_row) (score : Z) (w : World) :
  users (db w) !! uid = Some r ->
  stmt_fault env Begin = None ->
  stmt_fault env (score_update uid r score) = None ->
  stmt_fault env (InsertOrder (score_order env uid r score)) = None ->
  stmt_fault env Commit = None ->
  Transaction env
    (update_score_tx env (scan_user uid r) (scan_numeric (total_community r))
       (NewFromInt score) (score_diff r score) (now env)) w
  = (Ok tt,
     {| db := {| users := <[uid := credited r score]> (users (db w));
                 orders := orders (db w)
                           ++ [row_of_order (score_order env uid r score)
                                 (orders_seq (db w) + 1)%N (now env)];
                 orders_seq := (orders_seq (db w) + 1)%N |};
        queue := queue w;
        trace := trace w ++ [Begin; score_update uid r score;
                             InsertOrder (score_order env uid r score); Commit] |}).
Proof.
  intros Hr Hf2 Hf3 Hf4 Hf5. unfold Transaction. rewrite exec_ok by done.
  unfold update_score_tx, bind, wrap_err.
  fold (score_set (NewFromInt score) (score_diff r score)).
  rewrite (UpdateColumns_score uid r score) by done.
  fold (score_order env uid r score).
  unfold Create_order, bind. rewrite exec_ok by done.
  unfold get_db, put_db, ret. cbn [fst snd].
  rewrite exec_ok by done. unfold logged. cbn.
  rewrite <- !app_assoc. reflexivity.
Qed.

Lemma worker_commits (t : Task) (w : World) (uid : N) (r : user_row) (score : Z) :
  Payload t = UserIDPayload uid ->
  users (db w) !! uid = Some r ->
  score_source env (username r) = Ok {| model.GamificationScore := score |} ->
  total_community r <> score * 100 ->
  stmt_fault env (SelectUserByID uid) = None ->
  stmt_fault env Begin = None ->
  stmt_fault env (score_update uid r score) = None ->
  stmt_fault env (InsertOrder (score_order env uid r score)) = None ->
  stmt_fault env Commit = None ->
  HandleUpdateSingleUserGamificationScore env t w
  = (Ok tt,
     {| db := {| users := <[uid := credited r score]> (users (db w));
                 orders := orders (db w)
                           ++ [row_of_order (score_order env uid r score)
                                 (orders_seq (db w) + 1)%N (now env)];
                 orders_seq := (orders_seq (db w) + 1)%N |};
        queue := queue w;
        trace := trace w ++ [SelectUserByID uid; Begin; score_update uid r score;
                             InsertOrder (score_order env uid r score); Commit] |}).
Proof.
  intros Hp Hr Hs Hne Hf1 Hf2 Hf3 Hf4 Hf5.
  rewrite (worker_reaches_tx t w uid r score) by done.
  rewrite tx_commits by done.
  unfold logged. cbn. rewrite <- app_assoc. reflexivity.
Qed.

(** Close a case in which the run is over and the tables stand as
    they were. *)
Ltac tables_untouched := eexists _, _; split; [reflexivity |]; auto.

(** Every run of the worker either leaves both tables as they
    were, or commits exactly one update and one order. *)
Lemma worker_outcome (t : Task) (w : World) :
  exists (res : result unit) (w' : World),
    HandleUpdateSingleUserGamificationScore env t w = (res, w')
    /\ queue w' = queue w
    /\ ((users (db w') = users (db w) /\ orders (db w') = orders (db w))
        \/ (res = Ok tt
            /\ exists (uid : N) (r : user_row) (score : Z),
                Payload t = UserIDPayload uid
                /\ users (db w) !! uid = Some r
                /\ score_source env (username r)
                   = Ok {| model.GamificationScore := score |}
                /\ total_community r <> score * 100
                /\ users (db w') = <[uid := credited r score]> (users (db w))
                /\ orders (db w')
                   = (orders (db w)
                      ++ [row_of_order (score_order env uid r score)
                            (orders_seq (db w) + 1)%N (now env)])%list)).
Proof.
  destruct (Payload t) as [uid | raw e0] eqn:Hp.
  2: { unfold HandleUpdateSingleUserGamificationScore. rewrite Hp.
       tables_untouched. }
  destruct (stmt_fault env (SelectUserByID uid)) as [e1 |] eqn:Hf1.
  { unfold HandleUpdateSingleUserGamificationScore. rewrite Hp.
    unfold bind at 1. unfold First_user, bind. rewrite (exec_err _ e1) by done.
    destruct (query_user_prefix uid); tables_untouched. }
  destruct (users (db w) !! uid) as [r |] eqn:Hr.
  2: { unfold HandleUpdateSingleUserGamificationScore. rewrite Hp.
       unfold bind at 1. unfold First_user, bind. rewrite exec_ok by done.
       unfold get_db, logged. cbn [db]. rewrite Hr. unfold fail.
       destruct (query_user_prefix uid); tables_untouched. }
  destruct (score_source env (username r)) as [[score] | e2] eqn:Hs.
  2: { unfold HandleUpdateSingleUserGamificationScore. rewrite Hp.
       unfold bind at 1. rewrite (First_user_found uid r) by done.
       unfold bind, lift. cbn [model.Username scan_user]. rewrite Hs.
       tables_untouched. }
  destruct (Z.eq_dec (total_community r) (score * 100)) as [Heq | Hne].
  { rewrite (worker_skips t w uid r score) by done.
    tables_untouched. }
  rewrite (worker_reaches_tx t w uid r score) by done.
  destruct (stmt_fault env Begin) as [e3 |] eqn:Hf2.
  { rewrite (tx_begin_fails uid r score _ e3) by done.
    tables_untouched. }
  destruct (stmt_fault env (score_update uid r score)) as [e4 |] eqn:Hf3.
  { destruct (tx_update_fails uid r score (logged w [SelectUserByID uid]) e4)
      as (w' & -> & Hu & Ho & Hq & _); [done .. |].
    tables_untouched. }
  destruct (stmt_fault env (InsertOrder (score_order env uid r score)))
    as [e5 |] eqn:Hf4.
  { destruct (tx_insert_fails uid r score (logged w [SelectUserByID uid]) e5)
      as (w' & -> & Hu & Ho & Hq & _); [done .. |].
    tables_untouched. }
  destruct (stmt_fault env Commit) as [e6 |] eqn:Hf5.
  { destruct (tx_commit_fails uid r score (logged w [SelectUserByID uid]) e6)
      as (w' & -> & Hu & Ho & Hq & _); [done .. |].
    tables_untouched. }
  rewrite tx_commits by done.
  eexists _, _. split; [reflexivity |]. split; [reflexivity |].
  right. split; [reflexivity |]. exists uid, r, score. auto 10.
Qed.

End worker_facts.

(** ** Statements about the single-user worker *)

Section worker_claims.
Import decimal store gorm gorm_ops asynq user ledger.

(** A successful run either skipped the update (the stored total
    already equals the score) or committed it. *)
Lemma worker_ok_cases (env : Env) (t : Task) (w w1 : World) (uid : N)
  (r : user_row) (score : Z) :
  Payload t = UserIDPayload uid ->
  users (db w) !! uid = Some r ->
  score_source env (username r) = Ok {| model.GamificationScore := score |} ->
  HandleUpdateSingleUserGamificationScore env t w = (Ok tt, w1) ->
  (total_community r = score * 100 /\ w1 = logged w [SelectUserByID uid])
  \/ (total_community r <> score * 100
      /\ users (db w1) = <[uid := credited r score]> (users (db w))
      /\ orders (db w1)
         = (orders (db w)
            ++ [row_of_order (score_order env uid r score)
                  (orders_seq (db w) + 1)%N (now env)])%list
      /\ queue w1 = queue w).
Proof.
  intros Hp Hr Hs Hrun.
  destruct (stmt_fault env (SelectUserByID uid)) as [e1 |] eqn:Hf1.
  { exfalso. revert Hrun.
    unfold HandleUpdateSingleUserGamificationScore. rewrite Hp.
    unfold bind at 1. unfold First_user, bind. rewrite (exec_err _ _ e1) by done.
    destruct (query_user_prefix uid); discriminate. }
  destruct (Z.eq_dec (total_community r) (score * 100)) as [Heq | Hne].
  { left. split; [done |].
    rewrite (worker_skips env t w uid r score) in Hrun by done. congruence. }
  right. split; [done |].
  rewrite (worker_reaches_tx env t w uid r score) in Hrun by done.
  destruct (stmt_fault env Begin) as [e3 |] eqn:Hf2.
  { rewrite (tx_begin_fails env uid r score _ e3) in Hrun by done. discriminate. }
  destruct (stmt_fault env (score_update uid r score)) as [e4 |] eqn:Hf3.
  { destruct (tx_update_fails env uid r score (logged w [SelectUserByID uid]) e4)
      as (w' & Htx & _); [done .. |]. congruence. }
  destruct (stmt_fault env (InsertOrder (score_order env uid r score)))
    as [e5 |] eqn:Hf4.
  { destruct (tx_insert_fails env uid r score (logged w [SelectUserByID uid]) e5)
      as (w' & Htx & _); [done .. |]. congruence. }
  destruct (stmt_fault env Commit) as [e6 |] eqn:Hf5.
  { destruct (tx_commit_fails env uid r score (logged w [SelectUserByID uid]) e6)
      as (w' & Htx & _); [done .. |]. congruence. }
  rewrite tx_commits in Hrun by done.
  injection Hrun as <-. done.
Qed.

(** C1.  Stored [total_community] 100.00, observed score 135, no
    datastore fault: one run of the worker succeeds, appends exactly
    one order of type [community] with amount 35.00 for the user,
    sets [total_community] to 135.00, adds 35.00 to [total_receive]
    and to [available_balance], and changes nothing else in the
    user's row (in particular not [total_payment], [total_transfer],
    [pay_score]), in the other rows or in the queue. *)
Theorem delta_correctness (env : Env) (t : Task) (w : World) (uid : N) (r : user_row)
  (Hpayload : Payload t = UserIDPayload uid)
  (Huser : users (db w) !! uid = Some r)
  (Hstored : total_community r = 10000)
  (Hscore : score_source env (username r) = Ok {| model.GamificationScore := 135 |})
  (Hnofault : forall s : stmt, stmt_fault env s = None) :
  exists (w' : World) (o : order_row) (r' : user_row),
    HandleUpdateSingleUserGamificationScore env t w = (Ok tt, w')
    /\ orders (db w') = (orders (db w) ++ [o])%list
    /\ o_type o = "community"
    /\ o_amount o = 3500
    /\ o_payee_username o = username r
    /\ users (db w') = <[uid := r']> (users (db w))
    /\ total_community r' = 13500
    /\ total_receive r' = total_receive r + 3500
    /\ available_balance r' = available_balance r + 3500
    /\ total_payment r' = total_payment r
    /\ total_transfer r' = total_transfer r
    /\ pay_score r' = pay_score r
    /\ r' = with_totals r (total_receive r + 3500) (total_payment r)
              (total_transfer r) 13500 (available_balance r + 3500)
    /\ queue w' = queue w.
Proof.
  exists {| db := {| users := <[uid := credited r 135]> (users (db w));
                     orders := orders (db w)
                               ++ [row_of_order (score_order env uid r 135)
                                     (orders_seq (db w) + 1)%N (now env)];
                     orders_seq := (orders_seq (db w) + 1)%N |};
            queue := queue w;
            trace := trace w ++ [SelectUserByID uid; Begin; score_update uid r 135;
                                 InsertOrder (score_order env uid r 135); Commit] |},
    (row_of_order (score_order env uid r 135) (orders_seq (db w) + 1)%N (now env)),
    (credited r 135).
  split.
  { apply worker_commits; try done. lia. }
  cbn [db orders users queue].
  split; [reflexivity |]. split; [reflexivity |].
  split.
  { cbn [row_of_order o_amount score_order community_order model.Amount score_diff].
    unfold score_diff. rewrite Hstored. reflexivity. }
  split; [reflexivity |]. split; [reflexivity |].
  unfold credited. rewrite Hstored. cbn.
  repeat split; lia.
Qed.

Lemma delta_correctness_witness :
  exists (w' : World) (o : order_row) (r' : user_row),
    HandleUpdateSingleUserGamificationScore (example.env_score 135)
      (example.task_for 1) example.w0 = (Ok tt, w')
    /\ orders (db w') = (orders (db example.w0) ++ [o])%list
    /\ o_type o = "community"
    /\ o_amount o = 3500
    /\ o_payee_username o = username example.alice
    /\ users (db w') = <[1%N := r']> (users (db example.w0))
    /\ total_community r' = 13500
    /\ total_receive r' = total_receive example.alice + 3500
    /\ available_balance r' = available_balance example.alice + 3500
    /\ total_payment r' = total_payment example.alice
    /\ total_transfer r' = total_transfer example.alice
    /\ pay_score r' = pay_score example.alice
    /\ r' = with_totals example.alice (total_receive example.alice + 3500)
              (total_payment example.alice) (total_transfer example.alice)
              13500 (available_balance example.alice + 3500)
    /\ queue w' = queue example.w0.
Proof.
  apply (delta_correctness (example.env_score 135) (example.task_for 1)
           example.w0 1%N example.alice).
  - reflexivity.
  - vm_compute. reflexivity.
  - reflexivity.
  - reflexivity.
  - intros s. reflexivity.
Defined.

(** C2.  Once the worker has reached its transaction (user found,
    score obtained and different from the stored total, transaction
    begun): if the balance update fails with [e0], or the update
    succeeds and the order insert fails with [e0], the worker
    returns an error that wraps [e0] ([Unwrap] gives [e0] back) and
    both tables are exactly as before.  More generally no run that
    returns an error changes the [users] or the [orders] table. *)
Theorem atomicity (env : Env) (t : Task) (w : World) (uid : N) (r : user_row)
  (score : Z) (e0 : error)
  (Hpayload : Payload t = UserIDPayload uid)
  (Huser : users (db w) !! uid = Some r)
  (Hscore : score_source env (username r) = Ok {| model.GamificationScore := score |})
  (Hdiffers : total_community r <> score * 100)
  (Hfind : stmt_fault env (SelectUserByID uid) = None)
  (Hbegin : stmt_fault env Begin = None) :
  (stmt_fault env (score_update uid r score) = Some e0 ->
     exists (err : error) (w' : World),
       HandleUpdateSingleUserGamificationScore env t w = (Err err, w')
       /\ err = Errorf (update_prefix r) e0
       /\ Unwrap err = Some e0 /\ errors_Is err e0 = true
       /\ users (db w') = users (db w) /\ orders (db w') = orders (db w))
  /\ (stmt_fault env (score_update uid r score) = None ->
      stmt_fault env (InsertOrder (score_order env uid r score)) = Some e0 ->
      exists (err : error) (w' : World),
        HandleUpdateSingleUserGamificationScore env t w = (Err err, w')
        /\ err = Errorf (create_prefix r) e0
        /\ Unwrap err = Some e0 /\ errors_Is err e0 = true
        /\ users (db w') = users (db w) /\ orders (db w') = orders (db w))
  /\ (forall (env' : Env) (t' : Task) (w0 w' : World) (err : error),
        HandleUpdateSingleUserGamificationScore env' t' w0 = (Err err, w') ->
        users (db w') = users (db w0) /\ orders (db w') = orders (db w0)).
Proof.
  pose proof (errors_Is_wrapped e0) as His.
  split; [| split].
  - intros Hupd.
    rewrite (worker_reaches_tx env t w uid r score) by done.
    destruct (tx_update_fails env uid r score (logged w [SelectUserByID uid]) e0)
      as (w' & -> & Hu & Ho & _); [done .. |].
    exists (Errorf (update_prefix r) e0), w'. auto 10.
  - intros Hupd Hins.
    rewrite (worker_reaches_tx env t w uid r score) by done.
    destruct (tx_insert_fails env uid r score (logged w [SelectUserByID uid]) e0)
      as (w' & -> & Hu & Ho & _); [done .. |].
    exists (Errorf (create_prefix r) e0), w'. auto 10.
  - intros env' t' w0 w' err Hrun.
    destruct (worker_outcome env' t' w0) as (res & w'' & Hrun' & _ & [Hsame | [Hok _]]).
    + rewrite Hrun in Hrun'. injection Hrun' as <- <-. exact Hsame.
    + rewrite Hrun in Hrun'. congruence.
Qed.

Lemma atomicity_witness :
  exists (err : error) (w' : World),
    HandleUpdateSingleUserGamificationScore (example.env_update_fails 135)
      (example.task_for 1) example.w0 = (Err err, w')
    /\ err = Errorf (update_prefix example.alice) (ErrDatastore "deadlock detected")
    /\ Unwrap err = Some (ErrDatastore "deadlock detected")
    /\ errors_Is err (ErrDatastore "deadlock detected") = true
    /\ users (db w') = users (db example.w0)
    /\ orders (db w') = orders (db example.w0).
Proof.
  refine (proj1 (atomicity (example.env_update_fails 135) (example.task_for 1)
                   example.w0 1%N example.alice 135
                   (ErrDatastore "deadlock detected") _ _ _ _ _ _) _).
  - reflexivity.
  - vm_compute. reflexivity.
  - reflexivity.
  - vm_compute. discriminate.
  - reflexivity.
  - reflexivity.
  - reflexivity.
Defined.

(** C3.  When the observed score, as a decimal, equals the stored
    [total_community], the worker returns success and changes
    neither table nor the queue.  Hence a second run after a
    successful first one, with the same observed score, creates no
    order and changes no balance. *)
Theorem idempotence (env1 env2 : Env) (t : Task) (w : World) (uid : N)
  (r : user_row) (score : Z)
  (Hpayload : Payload t = UserIDPayload uid)
  (Huser : users (db w) !! uid = Some r)
  (Hscore1 : score_source env1 (username r) = Ok {| model.GamificationScore := score |})
  (Hscore2 : score_source env2 (username r) = Ok {| model.GamificationScore := score |})
  (Hfind1 : stmt_fault env1 (SelectUserByID uid) = None)
  (Hfind2 : stmt_fault env2 (SelectUserByID uid) = None) :
  (Equal (model.TotalCommunity (scan_user uid r)) (NewFromInt score) = true ->
     exists w1 : World,
       HandleUpdateSingleUserGamificationScore env1 t w = (Ok tt, w1)
       /\ db w1 = db w /\ queue w1 = queue w)
  /\ (forall w1 : World,
        HandleUpdateSingleUserGamificationScore env1 t w = (Ok tt, w1) ->
        exists w2 : World,
          HandleUpdateSingleUserGamificationScore env2 t w1 = (Ok tt, w2)
          /\ db w2 = db w1 /\ queue w2 = queue w1).
Proof.
  split.
  - change (model.TotalCommunity (scan_user uid r))
      with (scan_numeric (total_community r)).
    rewrite Equal_scan_NewFromInt. intros Heq%Z.eqb_eq.
    exists (logged w [SelectUserByID uid]).
    split; [now apply (worker_skips env1 t w uid r score) |]. done.
  - intros w1 Hrun.
    destruct (worker_ok_cases env1 t w w1 uid r score Hpayload Huser Hscore1 Hrun)
      as [[Heq ->] | (Hne & Hu & Ho & Hq)].
    + exists (logged (logged w [SelectUserByID uid]) [SelectUserByID uid]).
      split; [| done].
      now apply (worker_skips env2 t _ uid r score).
    + exists (logged w1 [SelectUserByID uid]).
      split; [| done].
      apply (worker_skips env2 t w1 uid (credited r score) score); try done.
      rewrite Hu. apply lookup_insert_eq.
Qed.

Lemma idempotence_witness :
  exists w1 w2 : World,
    HandleUpdateSingleUserGamificationScore (example.env_score 135)
      (example.task_for 1) example.w0 = (Ok tt, w1)
    /\ HandleUpdateSingleUserGamificationScore (example.env_score 135)
         (example.task_for 1) w1 = (Ok tt, w2)
    /\ db w2 = db w1 /\ queue w2 = queue w1.
Proof.
  exists (HandleUpdateSingleUserGamificationScore (example.env_score 135)
            (example.task_for 1) example.w0).2.
  assert (HandleUpdateSingleUserGamificationScore (example.env_score 135)
            (example.task_for 1) example.w0
          = (Ok tt, (HandleUpdateSingleUserGamificationScore (example.env_score 135)
                       (example.task_for 1) example.w0).2)) as Hfirst.
  { rewrite (worker_commits (example.env_score 135) (example.task_for 1)
               example.w0 1%N example.alice 135);
      [ reflexivity | reflexivity | vm_compute; reflexivity | reflexivity
      | vm_compute; discriminate | reflexivity .. ]. }
  destruct (proj2 (idempotence (example.env_score 135) (example.env_score 135)
                     (example.task_for 1) example.w0 1%N example.alice 135
                     eq_refl ltac:(vm_compute; reflexivity) eq_refl eq_refl
                     eq_refl eq_refl) _ Hfirst) as (w2 & Hsecond & Hdb & Hq).
  exists w2. split; [exact Hfirst |]. split; [exact Hsecond |]. split; assumption.
Defined.

(** C4, as the code has it.  Stored [total_community] 50.00,
    observed score 40, no datastore fault: the delta is -10.00; it
    is added to [total_receive] and [available_balance], which so
    decrease by 10.00; [total_community] becomes 40.00; the one
    order created carries the signed delta -10.00 as its amount,
    and its remark spells out the old value, the new value and the
    delta. *)
Theorem negative_correction (env : Env) (t : Task) (w : World) (uid : N) (r : user_row)
  (Hpayload : Payload t = UserIDPayload uid)
  (Huser : users (db w) !! uid = Some r)
  (Hstored : total_community r = 5000)
  (Hscore : score_source env (username r) = Ok {| model.GamificationScore := 40 |})
  (Hnofault : forall s : stmt, stmt_fault env s = None) :
  Sub (NewFromInt 40) (model.TotalCommunity (scan_user uid r))
  = {| value := -1000; exp := -2 |}
  /\ exists (w' : World) (o : order_row) (r' : user_row),
      HandleUpdateSingleUserGamificationScore env t w = (Ok tt, w')
      /\ orders (db w') = (orders (db w) ++ [o])%list
      /\ o_type o = "community"
      /\ o_amount o = -1000
      /\ o_remark o = "社区积分从 50 更新到 40，变化 -10"
      /\ users (db w') = <[uid := r']> (users (db w))
      /\ total_community r' = 4000
      /\ total_receive r' = total_receive r - 1000
      /\ available_balance r' = available_balance r - 1000.
Proof.
  split.
  { change (model.TotalCommunity (scan_user uid r))
      with (scan_numeric (total_community r)).
    rewrite Hstored. reflexivity. }
  exists {| db := {| users := <[uid := credited r 40]> (users (db w));
                     orders := orders (db w)
                               ++ [row_of_order (score_order env uid r 40)
                                     (orders_seq (db w) + 1)%N (now env)];
                     orders_seq := (orders_seq (db w) + 1)%N |};
            queue := queue w;
            trace := trace w ++ [SelectUserByID uid; Begin; score_update uid r 40;
                                 InsertOrder (score_order env uid r 40); Commit] |},
    (row_of_order (score_order env uid r 40) (orders_seq (db w) + 1)%N (now env)),
    (credited r 40).
  split.
  { apply worker_commits; try done. lia. }
  cbn [db orders users queue].
  split; [reflexivity |]. split; [reflexivity |].
  split.
  { cbn [row_of_order o_amount score_order community_order model.Amount].
    unfold score_diff. rewrite Hstored. reflexivity. }
  split.
  { cbn [row_of_order o_remark score_order community_order model.Remark].
    unfold score_diff. rewrite Hstored. vm_compute. reflexivity. }
  split; [reflexivity |].
  unfold credited. rewrite Hstored. cbn.
  repeat split; lia.
Qed.

Lemma negative_correction_witness :
  exists (w' : World) (o : order_row) (r' : user_row),
    HandleUpdateSingleUserGamificationScore (example.env_score 40)
      (example.task_for 2) example.w0 = (Ok tt, w')
    /\ orders (db w') = (orders (db example.w0) ++ [o])%list
    /\ o_type o = "community"
    /\ o_amount o = -1000
    /\ o_remark o = "社区积分从 50 更新到 40，变化 -10"
    /\ users (db w') = <[2%N := r']> (users (db example.w0))
    /\ total_community r' = 4000
    /\ total_receive r' = total_receive example.bob - 1000
    /\ available_balance r' = available_balance example.bob - 1000.
Proof.
  refine (proj2 (negative_correction (example.env_score 40) (example.task_for 2)
                   example.w0 2%N example.bob _ _ _ _ _)).
  - reflexivity.
  - vm_compute. reflexivity.
  - reflexivity.
  - reflexivity.
  - intros s. reflexivity.
Defined.

Lemma bob_run_amounts :
  exists w' : World,
    HandleUpdateSingleUserGamificationScore (example.env_score 40)
      (example.task_for 2) example.w0 = (Ok tt, w')
    /\ o_amount <$> orders (db w') = [-1000].
Proof.
  rewrite (worker_commits (example.env_score 40) (example.task_for 2)
             example.w0 2%N example.bob 40);
    [| reflexivity | vm_compute; reflexivity | reflexivity
     | vm_compute; discriminate | reflexivity ..].
  eexists. split; [reflexivity |]. vm_compute. reflexivity.
Qed.

(** C4 as worded fails: for the user with stored total 50.00 and
    observed score 40 the order created has amount -10.00, which is
    neither 10.00 nor non-negative. *)
Lemma negative_correction_magnitude_counterexample :
  exists w' : World,
    HandleUpdateSingleUserGamificationScore (example.env_score 40)
      (example.task_for 2) example.w0 = (Ok tt, w')
    /\ o_amount <$> orders (db w') = [-1000]
    /\ ~ (exists o : order_row,
            orders (db w') = (orders (db example.w0) ++ [o])%list
            /\ o_amount o = 1000)
    /\ ~ Forall (fun o => 0 <= o_amount o) (orders (db w')).
Proof.
  destruct bob_run_amounts as (w' & Hrun & Hamounts).
  exists w'. split; [exact Hrun |]. split; [exact Hamounts |]. split.
  - intros (o & Ho & Hamt). rewrite Ho in Hamounts. cbn in Hamounts.
    injection Hamounts as Hamounts. lia.
  - intros Hall.
    assert (Forall (fun a => 0 <= a) (o_amount <$> orders (db w'))) as Hall'.
    { apply Forall_fmap. exact Hall. }
    rewrite Hamounts in Hall'. apply Forall_cons in Hall' as [Hneg _]. lia.
Qed.

(** C10.  Whatever the environment and the task, the rows the
    worker adds to [orders] (none or one) have status [success],
    type [community], payer "LINUX DO Community", the fixed order
    name, and a trade time equal to the expiry time; the order value
    the worker builds has these fields for every user, balance and
    instant. *)
Theorem community_order_shape (env : Env) (t : Task) (w : World) :
  (exists added : list order_row,
     orders (db (HandleUpdateSingleUserGamificationScore env t w).2)
     = (orders (db w) ++ added)%list
     /\ (List.length added <= 1)%nat
     /\ Forall (fun o =>
                  o_status o = model.OrderStatusSuccess
                  /\ o_status o = "success"
                  /\ o_type o = model.OrderTypeCommunity
                  /\ o_type o = "community"
                  /\ o_payer_username o = "LINUX DO Community"
                  /\ o_order_name o = "社区积分更新"
                  /\ o_trade_time o = o_expires_at o) added)
  /\ (forall (u : model.User) (old new diff : Decimal) (at_ : Z),
        let o := community_order u old new diff at_ in
        model.Status o = "success" /\ model.Type_ o = "community"
        /\ model.PayerUsername o = "LINUX DO Community"
        /\ model.OrderName o = "社区积分更新"
        /\ model.TradeTime o = model.ExpiresAt o).
Proof.
  split; [| intros; cbn; done].
  destruct (worker_outcome env t w)
    as (res & w' & -> & _ & [[_ Ho] | (_ & uid & r & score & _ & _ & _ & _ & _ & Ho)]);
    cbn [snd].
  - exists []. rewrite Ho, app_nil_r. split; [done |]. split; [cbn; lia |].
    constructor.
  - eexists. split; [exact Ho |]. split; [cbn; lia |].
    constructor; [| constructor]. cbn. done.
Qed.

End worker_claims.

(** ** The dispatcher *)

Section dispatch_facts.
Import decimal store gorm gorm_ops asynq user ledger dispatch.
Variable env : Env.

Lemma wrap64_id (z : Z) : - 2 ^ 63 <= z < 2 ^ 63 -> wrap64 z = z.
Proof. intros Hz. unfold wrap64. rewrite Z.mod_small; lia. Qed.

Lemma plan_app (us1 us2 : list model.User) (d : Z) :
  plan env (us1 ++ us2) d
  = (plan env us1 d ++ plan env us2 (delay_after env us1 d))%list.
Proof.
  revert d. induction us1 as [| u us1 IH]; intros d; cbn; [reflexivity |].
  now rewrite IH.
Qed.

Lemma delay_after_app (us1 us2 : list model.User) (d : Z) :
  delay_after env (us1 ++ us2) d = delay_after env us2 (delay_after env us1 d).
Proof. revert d. induction us1 as [| u us1 IH]; intros d; cbn; auto. Qed.

Lemma plan_length (us : list model.User) (d : Z) :
  List.length (plan env us d) = List.length us.
Proof. revert d. induction us as [| u us IH]; intros d; cbn; auto. Qed.

Lemma plan_take (j : nat) (us : list model.User) (d : Z) :
  take j (plan env us d) = plan env (take j us) d.
Proof.
  revert us d. induction j as [| j IH]; intros [| u us] d; cbn; try reflexivity.
  now rewrite IH.
Qed.

Lemma enqueue_users_ok (us : list model.User) (d : Z) (w : World) :
  Forall (fun s => enqueue_fault env s = None) (plan env us d) ->
  enqueue_users env us d w
  = (Ok (delay_after env us d),
     {| db := db w; queue := queue w ++ plan env us d; trace := trace w |}).
Proof.
  revert d w. induction us as [| u us IH]; intros d w Hok.
  - cbn. rewrite app_nil_r. destruct w; reflexivity.
  - cbn in Hok. apply Forall_cons in Hok as [Hu Hrest].
    cbn [enqueue_users]. unfold bind, Enqueue.
    fold (next_delay env d). fold (scheduled env u (next_delay env d)).
    rewrite Hu. rewrite IH by done. cbn.
    now rewrite <- app_assoc.
Qed.

Lemma enqueue_users_err (us : list model.User) (d : Z) (w : World)
  (j : nat) (s : Scheduled) (e : error) :
  plan env us d !! j = Some s ->
  Forall (fun s => enqueue_fault env s = None) (take j (plan env us d)) ->
  enqueue_fault env s = Some e ->
  enqueue_users env us d w
  = (Err e,
     {| db := db w; queue := queue w ++ take j (plan env us d); trace := trace w |}).
Proof.
  revert d w j. induction us as [| u us IH]; intros d w j Hs Hpre He.
  - discriminate.
  - cbn [enqueue_users]. unfold bind, Enqueue.
    fold (next_delay env d). fold (scheduled env u (next_delay env d)).
    destruct j as [| j].
    + cbn in Hs. injection Hs as <-. rewrite He. cbn.
      rewrite app_nil_r. destruct w; reflexivity.
    + cbn in Hs, Hpre. apply Forall_cons in Hpre as [Hu Hrest].
      rewrite Hu. rewrite (IH _ _ j) by done. cbn.
      now rewrite <- app_assoc.
Qed.

Lemma Find_active_page_ok (cutoff limit offset : Z) (w : World) :
  stmt_fault env (SelectActivePage cutoff limit offset) = None ->
  0 <= limit -> 0 <= offset ->
  Find_active_page env cutoff limit offset w
  = (Ok (take (Z.to_nat limit) (drop (Z.to_nat offset) (candidates w cutoff))),
     logged w [SelectActivePage cutoff limit offset]).
Proof.
  intros Hf Hl Ho. unfold Find_active_page, bind.
  rewrite exec_ok by done. unfold get_db.
  destruct (Z.ltb_spec limit 0); [lia |].
  destruct (Z.ltb_spec offset 0); [lia |].
  cbn [orb]. unfold ret, candidates, logged. cbn [db].
  now rewrite fmap_take, fmap_drop.
Qed.

Lemma Find_active_page_err (cutoff limit offset : Z) (w : World) (e : error) :
  stmt_fault env (SelectActivePage cutoff limit offset) = Some e ->
  Find_active_page env cutoff limit offset w
  = (Err e, logged w [SelectActivePage cutoff limit offset]).
Proof.
  intros Hf. unfold Find_active_page, bind. now rewrite (exec_err _ _ e).
Qed.

Lemma next_delay_fits (d : Z) :
  0 <= UserGamificationScoreDispatchIntervalSeconds env * Second ->
  0 <= d ->
  d + UserGamificationScoreDispatchIntervalSeconds env * Second < 2 ^ 63 ->
  next_delay env d = d + UserGamificationScoreDispatchIntervalSeconds env * Second.
Proof.
  intros Hi Hd Hsum. unfold next_delay.
  rewrite (wrap64_id (_ * _)) by lia. apply wrap64_id. lia.
Qed.

(** Without overflow the [j]-th task (from 0) is delayed by [j + 1]
    intervals past the starting delay. *)
Lemma plan_delay (us : list model.User) :
  forall (d : Z) (j : nat) (s : Scheduled),
    0 <= UserGamificationScoreDispatchIntervalSeconds env * Second ->
    0 <= d ->
    d + Z.of_nat (List.length us)
        * (UserGamificationScoreDispatchIntervalSeconds env * Second) < 2 ^ 63 ->
    plan env us d !! j = Some s ->
    ProcessIn s
    = d + (Z.of_nat j + 1) * (UserGamificationScoreDispatchIntervalSeconds env * Second).
Proof.
  induction us as [| u us IH]; intros d j s Hi Hd Hsum Hs; [discriminate |].
  cbn [plan] in Hs. cbn [List.length] in Hsum.
  rewrite next_delay_fits in Hs by nia.
  destruct j as [| j].
  - cbn in Hs. injection Hs as <-. cbn. lia.
  - cbn [lookup list_lookup] in Hs. apply IH in Hs; [| lia | lia | nia].
    rewrite Hs. lia.
Qed.

Lemma plan_payloads (us : list model.User) (d : Z) :
  (fun s => Payload (task s)) <$> plan env us d
  = (fun u => UserIDPayload (model.User_ID u)) <$> us.
Proof.
  revert d. induction us as [| u us IH]; intros d; cbn; [reflexivity |].
  now rewrite IH.
Qed.

End dispatch_facts.

Section ceil_facts.
Import dispatch.
Variable pageSize : Z.
Hypothesis pageSize_pos : 0 < pageSize.

(** [ceil(n / pageSize)] is the number of non-empty pages. *)
Lemma ceil_div_bounds (n : nat) :
  (forall k : nat, (k < Z.to_nat (ceil_div (Z.of_nat n) pageSize))%nat ->
     (k * Z.to_nat pageSize < n)%nat)
  /\ (n <= Z.to_nat (ceil_div (Z.of_nat n) pageSize) * Z.to_nat pageSize)%nat
  /\ (Z.to_nat (ceil_div (Z.of_nat n) pageSize) * Z.to_nat pageSize
      < n + Z.to_nat pageSize)%nat.
Proof.
  unfold ceil_div.
  pose proof (Z.mul_div_le (Z.of_nat n + pageSize - 1) pageSize pageSize_pos) as Hlo.
  pose proof (Z.mul_succ_div_gt (Z.of_nat n + pageSize - 1) pageSize pageSize_pos) as Hhi.
  assert (0 <= (Z.of_nat n + pageSize - 1) / pageSize) as Hc.
  { apply Z.div_pos; lia. }
  set (c := (Z.of_nat n + pageSize - 1) / pageSize) in *.
  split; [| split].
  - intros k Hk.
    assert (Z.of_nat k * pageSize < Z.of_nat n) by nia. nia.
  - assert (Z.of_nat n <= c * pageSize) by nia. nia.
  - assert (c * pageSize < Z.of_nat n + pageSize) by nia. nia.
Qed.

End ceil_facts.

(** *** The loop over pages *)

Section sweep_facts.
Import decimal store gorm gorm_ops asynq user ledger dispatch.
Variable env : Env.
Variables (pageSize cutoff : Z) (w : World).
Hypothesis pageSize_pos : 0 < pageSize.
Hypothesis fits : Z.of_nat (List.length (candidates w cutoff)) + pageSize < 2 ^ 63.

Lemma plan_page (k : nat) :
  take (S k * Z.to_nat pageSize) (plan env (candidates w cutoff) 0)
  = (take (k * Z.to_nat pageSize) (plan env (candidates w cutoff) 0)
     ++ plan env (take (Z.to_nat pageSize)
                    (drop (k * Z.to_nat pageSize) (candidates w cutoff)))
          (delay_at env pageSize cutoff w k))%list.
Proof.
  rewrite !plan_take. unfold delay_at. rewrite <- plan_app.
  rewrite take_take_drop. f_equal. f_equal. lia.
Qed.

Lemma delay_page (k : nat) :
  delay_after env (take (Z.to_nat pageSize)
                     (drop (k * Z.to_nat pageSize) (candidates w cutoff)))
    (delay_at env pageSize cutoff w k)
  = delay_at env pageSize cutoff w (S k).
Proof.
  unfold delay_at. rewrite <- delay_after_app, take_take_drop.
  f_equal. f_equal. lia.
Qed.

Lemma page_queries_S (k : nat) :
  page_queries cutoff pageSize (S k)
  = (page_queries cutoff pageSize k ++ [page_query cutoff pageSize k])%list.
Proof. unfold page_queries. rewrite seq_S, fmap_app. reflexivity. Qed.

Lemma candidates_at_page (k : nat) :
  candidates (at_page env pageSize cutoff w k) cutoff = candidates w cutoff.
Proof. reflexivity. Qed.

(** A page that is reached before the end of the list is not empty. *)
Lemma page_nonempty (k : nat) :
  (k * Z.to_nat pageSize < List.length (candidates w cutoff))%nat ->
  (List.length (take (Z.to_nat pageSize)
                  (drop (k * Z.to_nat pageSize) (candidates w cutoff))) =? 0)%nat
  = false.
Proof.
  intros Hk. apply Nat.eqb_neq. rewrite length_take, length_drop. lia.
Qed.

Lemma offset_fits (k : nat) :
  (k * Z.to_nat pageSize <= List.length (candidates w cutoff) + Z.to_nat pageSize)%nat ->
  wrap64 (Z.of_nat k * pageSize) = Z.of_nat k * pageSize
  /\ Z.to_nat (Z.of_nat k * pageSize) = (k * Z.to_nat pageSize)%nat
  /\ 0 <= Z.of_nat k * pageSize.
Proof.
  intros Hk.
  assert (Z.of_nat k * pageSize = Z.of_nat (k * Z.to_nat pageSize)) as Heq by nia.
  split; [| split]; [| lia | lia].
  apply wrap64_id. nia.
Qed.

(** One round of the loop on a page that is neither empty nor hit by
    a fault. *)
Lemma sweep_step (fuel k : nat) :
  (k * Z.to_nat pageSize < List.length (candidates w cutoff))%nat ->
  stmt_fault env (page_query cutoff pageSize k) = None ->
  Forall (fun s => enqueue_fault env s = None)
    (take (S k * Z.to_nat pageSize) (plan env (candidates w cutoff) 0)) ->
  sweep (S fuel) env pageSize cutoff (Z.of_nat k)
    (delay_at env pageSize cutoff w k) (at_page env pageSize cutoff w k)
  = sweep fuel env pageSize cutoff (Z.of_nat (S k))
      (delay_at env pageSize cutoff w (S k)) (at_page env pageSize cutoff w (S k)).
Proof.
  intros Hk Hq Henq.
  destruct (offset_fits k) as (Hwrap & Hnat & Hpos); [lia |].
  cbn [sweep]. rewrite Hwrap.
  fold (page_query cutoff pageSize k) in *.
  rewrite Find_active_page_ok by (done || lia).
  rewrite candidates_at_page, Hnat, page_nonempty by done.
  rewrite plan_page in Henq. apply Forall_app in Henq as [_ Hpage].
  rewrite enqueue_users_ok by done.
  rewrite delay_page.
  replace (wrap64 (Z.of_nat k + 1)) with (Z.of_nat (S k)).
  2: { rewrite wrap64_id; [lia |]. nia. }
  f_equal. unfold at_page, logged. cbn [db queue trace].
  rewrite plan_page, page_queries_S, <- !app_assoc. reflexivity.
Qed.


Lemma at_page_0 : at_page env pageSize cutoff w 0 = w.
Proof. unfold at_page. cbn. rewrite !app_nil_r. destruct w; reflexivity. Qed.

(** [m] rounds in a row. *)
Lemma sweep_rounds (m : nat) :
  forall fuel : nat,
    (forall k : nat, (k < m)%nat ->
       (k * Z.to_nat pageSize < List.length (candidates w cutoff))%nat) ->
    (forall k : nat, (k < m)%nat ->
       stmt_fault env (page_query cutoff pageSize k) = None) ->
    Forall (fun s => enqueue_fault env s = None)
      (take (m * Z.to_nat pageSize) (plan env (candidates w cutoff) 0)) ->
    sweep (m + fuel) env pageSize cutoff 0 0 w
    = sweep fuel env pageSize cutoff (Z.of_nat m)
        (delay_at env pageSize cutoff w m) (at_page env pageSize cutoff w m).
Proof.
  induction m as [| m IH]; intros fuel Hne Hq Henq.
  - cbn [Nat.add]. rewrite at_page_0. reflexivity.
  - replace (S m + fuel)%nat with (m + S fuel)%nat by lia.
    rewrite IH.
    + apply sweep_step; [apply Hne; lia | apply Hq; lia | exact Henq].
    + intros k Hk. apply Hne. lia.
    + intros k Hk. apply Hq. lia.
    + rewrite plan_page in Henq. now apply Forall_app in Henq as [? _].
Qed.

(** The three ways the loop ends at page [k]. *)
Lemma sweep_stop_empty (fuel k : nat) (d : Z) :
  (List.length (candidates w cutoff) <= k * Z.to_nat pageSize)%nat ->
  (k * Z.to_nat pageSize <= List.length (candidates w cutoff) + Z.to_nat pageSize)%nat ->
  stmt_fault env (page_query cutoff pageSize k) = None ->
  sweep (S fuel) env pageSize cutoff (Z.of_nat k) d (at_page env pageSize cutoff w k)
  = Some (Ok tt, at_page env pageSize cutoff w (S k)).
Proof.
  intros Hend Hk Hq.
  destruct (offset_fits k) as (Hwrap & Hnat & Hpos); [lia |].
  cbn [sweep]. rewrite Hwrap.
  fold (page_query cutoff pageSize k) in *.
  rewrite Find_active_page_ok by (done || lia).
  rewrite candidates_at_page, Hnat.
  rewrite (drop_ge (candidates w cutoff)) by lia. rewrite take_nil. cbn [List.length Nat.eqb].
  do 2 f_equal. unfold at_page, logged. cbn [db queue trace].
  rewrite page_queries_S, <- app_assoc.
  rewrite (take_ge (plan env (candidates w cutoff) 0) (S k * _)),
    (take_ge (plan env (candidates w cutoff) 0) (k * _)) by (rewrite plan_length; lia).
  reflexivity.
Qed.

Lemma sweep_stop_query_fault (fuel k : nat) (d : Z) (e : error) :
  (k * Z.to_nat pageSize <= List.length (candidates w cutoff) + Z.to_nat pageSize)%nat ->
  stmt_fault env (page_query cutoff pageSize k) = Some e ->
  sweep (S fuel) env pageSize cutoff (Z.of_nat k) d (at_page env pageSize cutoff w k)
  = Some (Err e,
          {| db := db w;
             queue := queue w ++ take (k * Z.to_nat pageSize)
                                   (plan env (candidates w cutoff) 0);
             trace := trace w ++ page_queries cutoff pageSize (S k) |}).
Proof.
  intros Hk Hq.
  destruct (offset_fits k) as (Hwrap & Hnat & Hpos); [lia |].
  cbn [sweep]. rewrite Hwrap.
  fold (page_query cutoff pageSize k) in *.
  rewrite (Find_active_page_err env _ _ _ _ e) by done.
  do 2 f_equal. unfold at_page, logged. cbn [db queue trace].
  rewrite page_queries_S, <- app_assoc. reflexivity.
Qed.

Lemma sweep_stop_enqueue_fault (fuel k j : nat) (s : Scheduled) (e : error) :
  (k * Z.to_nat pageSize <= j)%nat -> (j < S k * Z.to_nat pageSize)%nat ->
  plan env (candidates w cutoff) 0 !! j = Some s ->
  Forall (fun s => enqueue_fault env s = None)
    (take j (plan env (candidates w cutoff) 0)) ->
  enqueue_fault env s = Some e ->
  stmt_fault env (page_query cutoff pageSize k) = None ->
  sweep (S fuel) env pageSize cutoff (Z.of_nat k)
    (delay_at env pageSize cutoff w k) (at_page env pageSize cutoff w k)
  = Some (Err e,
          {| db := db w;
             queue := queue w ++ take j (plan env (candidates w cutoff) 0);
             trace := trace w ++ page_queries cutoff pageSize (S k) |}).
Proof.
  intros Hlo Hhi Hs Hpre He Hq.
  assert (j < List.length (candidates w cutoff))%nat as Hj.
  { apply lookup_lt_Some in Hs. now rewrite plan_length in Hs. }
  destruct (offset_fits k) as (Hwrap & Hnat & Hpos); [lia |].
  cbn [sweep]. rewrite Hwrap.
  fold (page_query cutoff pageSize k) in *.
  rewrite Find_active_page_ok by (done || lia).
  rewrite candidates_at_page, Hnat, page_nonempty by lia.
  pose proof (plan_page k) as Hpage.
  assert (take j (plan env (candidates w cutoff) 0)
          = (take (k * Z.to_nat pageSize) (plan env (candidates w cutoff) 0)
             ++ take (j - k * Z.to_nat pageSize)
                  (plan env (take (Z.to_nat pageSize)
                               (drop (k * Z.to_nat pageSize) (candidates w cutoff)))
                     (delay_at env pageSize cutoff w k)))%list) as Hsplit.
  { replace j with (Nat.min j (S k * Z.to_nat pageSize)) at 1 by lia.
    rewrite <- take_take, Hpage, take_app, length_take, plan_length.
    rewrite Nat.min_l by lia.
    rewrite take_take. f_equal. f_equal. lia. }
  rewrite (enqueue_users_err env _ _ _ (j - k * Z.to_nat pageSize) s e).
  - do 2 f_equal. unfold at_page, logged. cbn [db queue trace].
    rewrite Hsplit, page_queries_S, <- !app_assoc. reflexivity.
  - rewrite <- Hs.
    rewrite <- (lookup_take_lt (plan env (candidates w cutoff) 0)
                  (S k * Z.to_nat pageSize) j) by lia.
    rewrite Hpage. rewrite lookup_app_r by (rewrite length_take, plan_length; lia).
    rewrite length_take, plan_length. f_equal. lia.
  - rewrite Hsplit in Hpre. now apply Forall_app in Hpre as [_ ?].
  - exact He.
Qed.


End sweep_facts.


Section dispatch_order.
Import store user.

#[local] Instance login_desc_trans : Transitive login_desc.
Proof. intros a b c. unfold login_desc. lia. Qed.

#[local] Instance login_desc_total : Total login_desc.
Proof. intros a b. unfold login_desc. lia. Qed.

Lemma active_users_sorted (d : DB) (cutoff : Z) :
  StronglySorted login_desc (active_users d cutoff).
Proof. unfold active_users. apply StronglySorted_merge_sort; apply _. Qed.

End dispatch_order.

(** ** Statements about the dispatcher *)

Section dispatch_claims.
Import decimal store gorm gorm_ops asynq user ledger dispatch.

(** C5, as the code has it.  With [n] users in the activity window,
    a positive page size, no fault, and enough iterations allowed
    (more than [ceil(n / pageSize)]), the sweep returns [nil] after
    exactly [ceil(n / pageSize) + 1] page queries, with [LIMIT
    pageSize] and [OFFSET k * pageSize] for [k = 0, 1, ...]: the first
    [ceil(n / pageSize)] pages are non-empty and the last one is the
    first empty page.  Exactly [n] tasks are enqueued, one per user in
    the order of the listing (most recent login first).  The datastore
    is not touched.  For a positive interval whose [n]-fold fits in a
    [time.Duration], task [j] (from 0) is delayed by [j + 1]
    intervals, so the delays increase strictly.  The handler is this
    sweep with page size 200. *)
Theorem dispatch_sweep (env : Env) (t : Task) (pageSize cutoff : Z) (w : World)
  (fuel : nat)
  (Hpos : 0 < pageSize)
  (Hfits : Z.of_nat (List.length (candidates w cutoff)) + pageSize < 2 ^ 63)
  (Hstmt : forall s : stmt, stmt_fault env s = None)
  (Henq : forall s : Scheduled, enqueue_fault env s = None)
  (Hfuel : (Z.to_nat (ceil_div (Z.of_nat (List.length (candidates w cutoff))) pageSize)
            < fuel)%nat) :
  sweep fuel env pageSize cutoff 0 0 w
  = Some (Ok tt,
          {| db := db w;
             queue := queue w ++ plan env (candidates w cutoff) 0;
             trace := trace w
                      ++ page_queries cutoff pageSize
                           (S (Z.to_nat (ceil_div
                                 (Z.of_nat (List.length (candidates w cutoff)))
                                 pageSize))) |})
  /\ List.length (page_queries cutoff pageSize
                    (S (Z.to_nat (ceil_div
                          (Z.of_nat (List.length (candidates w cutoff))) pageSize))))
     = S (Z.to_nat (ceil_div (Z.of_nat (List.length (candidates w cutoff))) pageSize))
  /\ (forall k : nat,
        (k < Z.to_nat (ceil_div (Z.of_nat (List.length (candidates w cutoff)))
                         pageSize))%nat ->
        take (Z.to_nat pageSize) (drop (k * Z.to_nat pageSize) (candidates w cutoff))
        <> [])
  /\ take (Z.to_nat pageSize)
       (drop (Z.to_nat (ceil_div (Z.of_nat (List.length (candidates w cutoff)))
                          pageSize) * Z.to_nat pageSize)
          (candidates w cutoff)) = []
  /\ List.length (plan env (candidates w cutoff) 0)
     = List.length (candidates w cutoff)
  /\ (fun s => Payload (task s)) <$> plan env (candidates w cutoff) 0
     = (fun u => UserIDPayload (model.User_ID u)) <$> candidates w cutoff
  /\ StronglySorted login_desc (active_users (db w) cutoff)
  /\ (0 < UserGamificationScoreDispatchIntervalSeconds env ->
      Z.of_nat (List.length (candidates w cutoff))
      * (UserGamificationScoreDispatchIntervalSeconds env * Second) < 2 ^ 63 ->
      (forall (j : nat) (s : Scheduled),
         plan env (candidates w cutoff) 0 !! j = Some s ->
         ProcessIn s
         = (Z.of_nat j + 1) * (UserGamificationScoreDispatchIntervalSeconds env * Second))
      /\ (forall (i j : nat) (s1 s2 : Scheduled),
            (i < j)%nat ->
            plan env (candidates w cutoff) 0 !! i = Some s1 ->
            plan env (candidates w cutoff) 0 !! j = Some s2 ->
            ProcessIn s1 < ProcessIn s2))
  /\ HandleUpdateUserGamificationScores fuel env t w
     = sweep fuel env 200 (oneWeekAgo env) 0 0 w.
Proof.
  set (n := List.length (candidates w cutoff)) in *.
  set (m := Z.to_nat (ceil_div (Z.of_nat n) pageSize)) in *.
  destruct (ceil_div_bounds pageSize Hpos n) as (Hbefore & Hcover & Hnear).
  fold m in Hbefore, Hcover, Hnear.
  split.
  { replace fuel with (m + S (fuel - S m))%nat by lia.
    rewrite (sweep_rounds env pageSize cutoff w Hpos Hfits m).
    - rewrite sweep_stop_empty; [| done | done | fold n; lia | fold n; lia | apply Hstmt].
      do 2 f_equal. unfold at_page. f_equal.
      rewrite take_ge; [reflexivity |]. rewrite plan_length. fold n. lia.
    - intros k Hk. fold n. now apply Hbefore.
    - intros k _. apply Hstmt.
    - apply Forall_forall. intros s _. apply Henq. }
  split.
  { unfold page_queries. now rewrite length_fmap, length_seq. }
  split.
  { intros k Hk Hempty. apply (f_equal List.length) in Hempty.
    rewrite length_take, length_drop in Hempty. cbn in Hempty.
    specialize (Hbefore k Hk). fold n in Hempty. lia. }
  split.
  { rewrite drop_ge by (fold n; lia). apply take_nil. }
  split; [apply plan_length |].
  split; [apply plan_payloads |].
  split; [apply active_users_sorted |].
  split; [| reflexivity].
  intros Hinterval Htotal.
  assert (forall (j : nat) (s : Scheduled),
            plan env (candidates w cutoff) 0 !! j = Some s ->
            ProcessIn s
            = (Z.of_nat j + 1)
              * (UserGamificationScoreDispatchIntervalSeconds env * Second)) as Hdelay.
  { intros j s Hs.
    rewrite (plan_delay env (candidates w cutoff) 0 j s); [lia | | lia | | exact Hs].
    - unfold Second. lia.
    - fold n. lia. }
  split; [exact Hdelay |].
  intros i j s1 s2 Hij H1 H2.
  rewrite (Hdelay i s1 H1), (Hdelay j s2 H2). unfold Second. nia.
Qed.

Lemma dispatch_sweep_witness :
  sweep 5 (example.env_score 0) 200 (oneWeekAgo (example.env_score 0)) 0 0 example.w0
  = Some (Ok tt,
          {| db := db example.w0;
             queue := queue example.w0
                      ++ plan (example.env_score 0)
                           (candidates example.w0 (oneWeekAgo (example.env_score 0))) 0;
             trace := trace example.w0
                      ++ page_queries (oneWeekAgo (example.env_score 0)) 200
                           (S (Z.to_nat
                                 (ceil_div
                                    (Z.of_nat
                                       (List.length
                                          (candidates example.w0
                                             (oneWeekAgo (example.env_score 0)))))
                                    200))) |}).
Proof.
  refine (proj1 (dispatch_sweep (example.env_score 0) (example.task_for 0) 200
                   (oneWeekAgo (example.env_score 0)) example.w0 5 _ _ _ _ _)).
  - lia.
  - vm_compute. reflexivity.
  - intros s. reflexivity.
  - intros s. reflexivity.
  - vm_compute. lia.
Defined.

(** C5 as worded fails on the number of queries: with two users in
    the window and pages of 200 the sweep issues two page queries (the
    second one finds the empty page), while [ceil(2 / 200)] is 1.  And
    with a configured interval of zero both tasks get the delay 0, so
    the delays do not increase. *)
Lemma dispatch_query_count_counterexample :
  exists w' w'' : World,
    HandleUpdateUserGamificationScores 5 (example.env_score 0) (example.task_for 0)
      example.w0 = Some (Ok tt, w')
    /\ List.length (candidates example.w0 (oneWeekAgo (example.env_score 0))) = 2%nat
    /\ List.length (queue w') = 2%nat
    /\ trace w' = [SelectActivePage (oneWeekAgo (example.env_score 0)) 200 0;
                   SelectActivePage (oneWeekAgo (example.env_score 0)) 200 200]
    /\ ceil_div 2 200 = 1
    /\ Z.of_nat (List.length (trace w')) <> ceil_div 2 200
    /\ HandleUpdateUserGamificationScores 5 example.env_zero_interval
         (example.task_for 0) example.w0 = Some (Ok tt, w'')
    /\ ProcessIn <$> queue w'' = [0; 0].
Proof.
  eexists _, _. split; [vm_compute; reflexivity |].
  split; [vm_compute; reflexivity |].
  split; [vm_compute; reflexivity |].
  split; [vm_compute; reflexivity |].
  split; [vm_compute; reflexivity |].
  split; [vm_compute; discriminate |].
  split; vm_compute; reflexivity.
Qed.

(** C6.  Let the page size be positive.  If the query for page [k]
    fails with [e], nothing having failed before it, the sweep
    returns [e] itself at once: the queue holds exactly the tasks of
    the pages before [k] and no query follows.  If enqueueing task
    [j] of the listing fails with [e], nothing having failed before
    it, the sweep returns [e] itself at once: the queue holds exactly
    the [j] tasks before it, and the last query is the one of the page
    of task [j].  In neither case is anything enqueued for the rest of
    the population.  The handler is this sweep with page size 200. *)
Theorem dispatch_aborts (env : Env) (t : Task) (pageSize cutoff : Z) (w : World)
  (e : error)
  (Hpos : 0 < pageSize)
  (Hfits : Z.of_nat (List.length (candidates w cutoff)) + pageSize < 2 ^ 63) :
  (forall k fuel : nat,
     (forall k' : nat, (k' < k)%nat ->
        (k' * Z.to_nat pageSize < List.length (candidates w cutoff))%nat) ->
     (forall k' : nat, (k' < k)%nat ->
        stmt_fault env (page_query cutoff pageSize k') = None) ->
     Forall (fun s => enqueue_fault env s = None)
       (take (k * Z.to_nat pageSize) (plan env (candidates w cutoff) 0)) ->
     stmt_fault env (page_query cutoff pageSize k) = Some e ->
     (k < fuel)%nat ->
     sweep fuel env pageSize cutoff 0 0 w
     = Some (Err e,
             {| db := db w;
                queue := queue w ++ take (k * Z.to_nat pageSize)
                                      (plan env (candidates w cutoff) 0);
                trace := trace w ++ page_queries cutoff pageSize (S k) |}))
  /\ (forall (j fuel : nat) (s : Scheduled),
        plan env (candidates w cutoff) 0 !! j = Some s ->
        Forall (fun s => enqueue_fault env s = None)
          (take j (plan env (candidates w cutoff) 0)) ->
        (forall k' : nat, (k' <= j / Z.to_nat pageSize)%nat ->
           stmt_fault env (page_query cutoff pageSize k') = None) ->
        enqueue_fault env s = Some e ->
        (j / Z.to_nat pageSize < fuel)%nat ->
        sweep fuel env pageSize cutoff 0 0 w
        = Some (Err e,
                {| db := db w;
                   queue := queue w ++ take j (plan env (candidates w cutoff) 0);
                   trace := trace w
                            ++ page_queries cutoff pageSize
                                 (S (j / Z.to_nat pageSize)) |}))
  /\ (forall fuel : nat,
        HandleUpdateUserGamificationScores fuel env t w
        = sweep fuel env 200 (oneWeekAgo env) 0 0 w).
Proof.
  split; [| split; [| reflexivity]].
  - intros k fuel Hne Hq Henq Hfail Hfuel.
    replace fuel with (k + S (fuel - S k))%nat by lia.
    rewrite (sweep_rounds env pageSize cutoff w Hpos Hfits k) by done.
    apply sweep_stop_query_fault; [done | done | | done].
    destruct k as [| k]; [lia |]. specialize (Hne k ltac:(lia)). lia.
  - intros j fuel s Hs Hpre Hq Hfail Hfuel.
    assert (j < List.length (candidates w cutoff))%nat as Hj.
    { apply lookup_lt_Some in Hs. now rewrite plan_length in Hs. }
    assert (Z.to_nat pageSize <> 0%nat) as Hp by lia.
    pose proof (Nat.div_mod j (Z.to_nat pageSize) Hp) as Hdm.
    pose proof (Nat.mod_upper_bound j (Z.to_nat pageSize) Hp) as Hmod.
    set (k := (j / Z.to_nat pageSize)%nat) in *.
    assert (k * Z.to_nat pageSize <= j)%nat as Hlo by lia.
    assert (j < S k * Z.to_nat pageSize)%nat as Hhi by lia.
    replace fuel with (k + S (fuel - S k))%nat by lia.
    rewrite (sweep_rounds env pageSize cutoff w Hpos Hfits k).
    + apply (sweep_stop_enqueue_fault env pageSize cutoff w Hpos Hfits _ k j s e);
        [done | done | done | done | done |]. apply Hq. lia.
    + intros k' Hk'. nia.
    + intros k' Hk'. apply Hq. lia.
    + replace (k * Z.to_nat pageSize)%nat
        with (Nat.min (k * Z.to_nat pageSize) j) by lia.
      rewrite <- take_take. now apply Forall_take.
Qed.

Lemma dispatch_aborts_witness :
  HandleUpdateUserGamificationScores 5 (example.env_enqueue_fails 2)
    (example.task_for 0) example.w0
  = Some (Err (ErrEnqueue "redis: connection refused"),
          {| db := db example.w0;
             queue := queue example.w0
                      ++ take 1 (plan (example.env_enqueue_fails 2)
                                   (candidates example.w0
                                      (oneWeekAgo (example.env_enqueue_fails 2))) 0);
             trace := trace example.w0
                      ++ page_queries (oneWeekAgo (example.env_enqueue_fails 2)) 200
                           (S (1 / Z.to_nat 200)) |}).
Proof.
  destruct (dispatch_aborts (example.env_enqueue_fails 2) (example.task_for 0) 200
              (oneWeekAgo (example.env_enqueue_fails 2)) example.w0
              (ErrEnqueue "redis: connection refused")
              ltac:(lia) ltac:(vm_compute; reflexivity)) as (_ & Henqueue & Hhandler).
  rewrite Hhandler.
  apply (Henqueue 1%nat 5%nat
           (scheduled (example.env_enqueue_fails 2)
              (scan_user_id_username (2%N, example.bob)) 4000000000)).
  - vm_compute. reflexivity.
  - vm_compute. repeat constructor.
  - intros k' _. reflexivity.
  - reflexivity.
  - vm_compute. lia.
Defined.

End dispatch_claims.

(** ** The transaction listing *)

Section listing_facts.
Import decimal store gorm gorm_ops order ledger listing.

Lemma validate_nil (req : TransactionListRequest) :
  validate req = []
  <-> validate_Page req = [] /\ validate_PageSize req = []
      /\ validate_Type req = [] /\ validate_Status req = []
      /\ validate_EndTime req = [].
Proof.
  unfold validate. rewrite !app_nil. tauto.
Qed.

Lemma validate_PageSize_nil (req : TransactionListRequest) :
  validate_PageSize req = [] <-> 1 <= PageSize req <= 100.
Proof.
  unfold validate_PageSize.
  destruct (Z.ltb_spec (PageSize req) 1); [split; [discriminate | lia] |].
  destruct (Z.ltb_spec 100 (PageSize req)); [split; [discriminate | lia] |].
  split; [lia | reflexivity].
Qed.


Lemma ShouldBindJSON_rejects (req : TransactionListRequest) :
  validate req <> [] ->
  ShouldBindJSON (Ok req)
  = Err (ErrValidation (ValidationErrors_Error (validate req))).
Proof.
  intros Hne. unfold ShouldBindJSON. destruct (validate req); [done | reflexivity].
Qed.

Lemma ShouldBindJSON_accepts (req : TransactionListRequest) :
  validate req = [] -> ShouldBindJSON (Ok req) = Ok req.
Proof. intros Hnil. unfold ShouldBindJSON. now rewrite Hnil. Qed.

(** A request that fails validation is answered with 400 and reaches
    no query. *)
Lemma ListTransactions_rejected (env : Env) (req : TransactionListRequest)
  (user : model.User) (w : World) :
  validate req <> [] ->
  ListTransactions env (Ok req) user w
  = ((StatusBadRequest, util.Err_ (ValidationErrors_Error (validate req))), w).
Proof.
  intros Hne. unfold ListTransactions. now rewrite ShouldBindJSON_rejects.
Qed.

(** The hook keeps everything but the display number. *)
Lemma after_find_all_created (os os' : list model.Order) :
  after_find_all os = Ok os' ->
  model.CreatedAt <$> os' = model.CreatedAt <$> os.
Proof.
  revert os'. induction os as [| o os IH]; intros os' Hall; cbn in Hall.
  - injection Hall as <-. reflexivity.
  - unfold model.AfterFind in Hall.
    destruct (fmt.Sprintf_018d (model.ID o)); [| discriminate].
    destruct (after_find_all os) as [rest |]; [| discriminate].
    injection Hall as <-. cbn. f_equal. now apply IH.
Qed.

Lemma sorted_by_key {A : Type} (f : A -> Z) (l : list A) :
  StronglySorted (fun x y => y <= x) (f <$> l) ->
  StronglySorted (fun a b => f b <= f a) l.
Proof.
  induction l as [| a l IH]; intros Hs; [constructor |].
  cbn in Hs. apply StronglySorted_inv in Hs as [Htl Hhd].
  constructor; [now apply IH |].
  apply Forall_forall. intros b Hb.
  rewrite Forall_forall in Hhd. apply Hhd.
  now apply list_elem_of_fmap_2.
Qed.

Lemma key_sorted {A : Type} (f : A -> Z) (l : list A) :
  StronglySorted (fun a b => f b <= f a) l ->
  StronglySorted (fun x y => y <= x) (f <$> l).
Proof.
  induction 1 as [| a l Hs IH Hhd]; cbn; constructor; [exact IH |].
  apply Forall_forall. intros y (b & -> & Hb)%list_elem_of_fmap_1.
  rewrite Forall_forall in Hhd. now apply Hhd.
Qed.

#[local] Instance created_desc_trans : Transitive created_desc.
Proof. intros a b c. unfold created_desc. lia. Qed.

#[local] Instance created_desc_total : stdpp.base.Total created_desc.
Proof. intros a b. unfold created_desc. lia. Qed.

Lemma merge_sort_created_desc (l : list order_row) :
  StronglySorted created_desc (merge_sort created_desc l).
Proof. apply StronglySorted_merge_sort; apply _. Qed.

Lemma StronglySorted_take_drop {A : Type} (R : relation A) (l : list A) (i j : nat) :
  StronglySorted R l -> StronglySorted R (take j (drop i l)).
Proof.
  intros Hs.
  rewrite <- (take_drop i l) in Hs. apply StronglySorted_app_1_r in Hs.
  rewrite <- (take_drop j (drop i l)) in Hs. now apply StronglySorted_app_1_l in Hs.
Qed.

Lemma page_rows_sorted (q : list cond) (offset limit : Z) (d : DB) :
  StronglySorted created_desc (page_rows q offset limit d).
Proof.
  unfold page_rows.
  pose proof (merge_sort_created_desc (selected q d)) as Hs.
  destruct (limit <? 0).
  - rewrite <- (take_drop (Z.to_nat offset) _) in Hs.
    now apply StronglySorted_app_1_r in Hs.
  - now apply StronglySorted_take_drop.
Qed.

Lemma Find_ok (env : Env) (q : list cond) (offset limit : Z) (w w' : World)
  (os : list model.Order) :
  Find env q offset limit w = (Ok os, w') ->
  after_find_all (scan_order <$> page_rows q offset limit (db w)) = Ok os
  /\ w' = logged w [SelectOrders q offset limit].
Proof.
  unfold Find, bind. unfold exec.
  destruct (stmt_fault env (SelectOrders q offset limit)); [discriminate |].
  unfold get_db, lift. cbn [db]. fold (page_rows q offset limit (db w)).
  intros Hrun. injection Hrun as Hos <-. split; [exact Hos | reflexivity].
Qed.

Lemma Count_ok (env : Env) (q : list cond) (w w' : World) (total : Z) :
  Count env q w = (Ok total, w') ->
  total = Z.of_nat (List.length (selected q (db w)))
  /\ w' = logged w [CountOrders q].
Proof.
  unfold Count, bind, exec.
  destruct (stmt_fault env (CountOrders q)); [discriminate |].
  unfold get_db, ret. cbn [db]. intros Hrun. injection Hrun as <- <-. done.
Qed.


(** What a 200 answer tells. *)
Lemma ListTransactions_ok (env : Env) (req : TransactionListRequest)
  (user : model.User) (w w' : World) (resp : TransactionListResponse) :
  ListTransactions env (Ok req) user w = ((StatusOK, util.OK resp), w') ->
  validate req = []
  /\ Total resp = Z.of_nat (List.length (selected (base_query req user) (db w)))
  /\ after_find_all
       (scan_order <$> page_rows (base_query req user)
                         (wrap64 ((Page req - 1) * PageSize req)) (PageSize req) (db w))
     = Ok (Orders resp)
  /\ w' = logged w [CountOrders (base_query req user);
                    SelectOrders (base_query req user)
                      (wrap64 ((Page req - 1) * PageSize req)) (PageSize req)].
Proof.
  unfold ListTransactions.
  destruct (validate req) as [| fe errs] eqn:Hval.
  2: { rewrite ShouldBindJSON_rejects by (rewrite Hval; discriminate). discriminate. }
  rewrite ShouldBindJSON_accepts by done.
  assert ((let baseQuery := [PayeeOrPayer (model.Username user)] in
           let baseQuery :=
             if negb (Status req =? "")%string
             then (baseQuery ++ [StatusEq (Status req)])%list else baseQuery in
           let baseQuery :=
             if negb (Type_ req =? "")%string
             then (baseQuery ++ [TypeEq (Type_ req)])%list else baseQuery in
           let baseQuery :=
             match StartTime req with
             | Some t => (baseQuery ++ [CreatedGe t])%list
             | None => baseQuery
             end in
           match EndTime req with
           | Some t => (baseQuery ++ [CreatedLe t])%list
           | None => baseQuery
           end) = base_query req user) as Hq.
  { unfold base_query. cbv zeta.
    destruct (negb (Status req =? "")%string), (negb (Type_ req =? "")%string),
      (StartTime req), (EndTime req); reflexivity. }
  cbv zeta in Hq |- *. rewrite Hq.
  destruct (Count env (base_query req user) w) as [[total | e] w1] eqn:Hcount;
    [| discriminate].
  apply Count_ok in Hcount as [-> ->].
  destruct (Find env (base_query req user) (wrap64 ((Page req - 1) * PageSize req))
              (PageSize req) (logged w [CountOrders (base_query req user)]))
    as [[os | e] w2] eqn:Hfind; [| discriminate].
  apply Find_ok in Hfind as [Hos ->].
  intros Hrun. injection Hrun as <- <-.
  cbn [Total Orders]. split; [reflexivity |]. split; [reflexivity |].
  split; [exact Hos |]. unfold logged. cbn. now rewrite <- app_assoc.
Qed.




Lemma selected_spec (q : list cond) (d : DB) (row : order_row) :
  row ∈ selected q d <-> row ∈ orders d /\ forallb (fun c => holds c row) q = true.
Proof. unfold selected. rewrite !list_elem_of_In. apply filter_In. Qed.

End listing_facts.

(** ** Statements about the transaction listing *)

Section listing_claims.
Import decimal store gorm gorm_ops order ledger listing.

(** C8.  A request whose page size lies outside [1,100] (0 and 101
    among them) fails validation: the handler answers 400 with the
    validator's message and the world, trace of queries included, is
    untouched.  Every 200 answer comes from a request with a page size
    within [1,100] and lists its orders by creation time, latest
    first.  For page 1 without filters the first order listed is at
    least as recent as every order in which the requesting user is
    payer or payee, and the list is empty only if there is no such
    order. *)
Theorem list_transactions_page (env : Env) (req : TransactionListRequest)
  (user : model.User) (w : World) :
  (PageSize req < 1 \/ 100 < PageSize req ->
     validate req <> []
     /\ ListTransactions env (Ok req) user w
        = ((StatusBadRequest, util.Err_ (ValidationErrors_Error (validate req))), w))
  /\ (forall (resp : TransactionListResponse) (w' : World),
        ListTransactions env (Ok req) user w = ((StatusOK, util.OK resp), w') ->
        1 <= PageSize req <= 100
        /\ StronglySorted (fun a b => model.CreatedAt b <= model.CreatedAt a)
             (Orders resp)
        /\ (Page req = 1 -> Status req = "" -> Type_ req = "" ->
            StartTime req = None -> EndTime req = None ->
            (forall (o : model.Order) (rest : list model.Order) (row : order_row),
               Orders resp = o :: rest ->
               row ∈ orders (db w) ->
               o_payee_username row = model.Username user
               \/ o_payer_username row = model.Username user ->
               o_created_at row <= model.CreatedAt o)
            /\ (Orders resp = [] ->
                forall row : order_row,
                  row ∈ orders (db w) ->
                  ~ (o_payee_username row = model.Username user
                     \/ o_payer_username row = model.Username user)))).
Proof.
  split.
  { intros Hout.
    assert (validate req <> []) as Hne.
    { rewrite validate_nil, validate_PageSize_nil. lia. }
    split; [exact Hne | now apply ListTransactions_rejected]. }
  intros resp w' Hrun.
  apply ListTransactions_ok in Hrun as (Hval & _ & Hos & _).
  apply validate_nil in Hval as (_ & Hsize%validate_PageSize_nil & _).
  split; [exact Hsize |].
  pose proof (after_find_all_created _ _ Hos) as Hkeys.
  rewrite <- list_fmap_compose in Hkeys.
  change (model.CreatedAt ∘ scan_order) with o_created_at in Hkeys.
  split.
  { apply sorted_by_key. rewrite Hkeys. apply (key_sorted o_created_at).
    apply page_rows_sorted. }
  intros Hpage Hstatus Htype Hstart Hend.
  assert (base_query req user = [PayeeOrPayer (model.Username user)]) as Hq.
  { unfold base_query. rewrite Hstatus, Htype, Hstart, Hend. reflexivity. }
  rewrite Hq, Hpage in Hkeys. change (wrap64 ((1 - 1) * PageSize req)) with 0 in Hkeys.
  unfold page_rows in Hkeys.
  destruct (Z.ltb_spec (PageSize req) 0) as [| _]; [lia |].
  change (Z.to_nat 0) with 0%nat in Hkeys. rewrite drop_0 in Hkeys.
  set (sel := selected [PayeeOrPayer (model.Username user)] (db w)) in *.
  pose proof (merge_sort_created_desc sel) as Hsorted.
  pose proof (merge_sort_Permutation created_desc sel) as Hperm.
  assert (forall row : order_row,
            row ∈ orders (db w) ->
            o_payee_username row = model.Username user
            \/ o_payer_username row = model.Username user ->
            row ∈ merge_sort created_desc sel) as Hin.
  { intros row Hrow Hparty. rewrite Hperm. apply selected_spec.
    split; [exact Hrow |]. cbn. rewrite andb_true_r. apply orb_true_iff.
    destruct Hparty as [Hp | Hp]; [left | right]; now apply String.eqb_eq. }
  destruct (Z.to_nat (PageSize req)) as [| limit] eqn:Hlimit; [lia |].
  destruct (merge_sort created_desc sel) as [| r sorted].
  - split.
    + intros o rest row Ho. rewrite Ho in Hkeys. discriminate.
    + intros _ row Hrow Hparty. specialize (Hin row Hrow Hparty).
      now apply elem_of_nil in Hin.
  - cbn in Hkeys. split.
    + intros o rest row Ho Hrow Hparty. rewrite Ho in Hkeys. cbn in Hkeys.
      injection Hkeys as -> _.
      specialize (Hin row Hrow Hparty).
      apply StronglySorted_inv in Hsorted as [_ Hhd].
      apply elem_of_cons in Hin as [-> | Hin]; [lia |].
      rewrite Forall_forall in Hhd. exact (Hhd row Hin).
    + intros Hnil. rewrite Hnil in Hkeys. discriminate.
Qed.

Lemma list_transactions_page_witness :
  (validate (example.first_page 0 "") <> []
   /\ ListTransactions (example.env_score 0) (Ok (example.first_page 0 ""))
        (scan_user 1 example.alice) example.w_orders
      = ((StatusBadRequest,
          util.Err_ (ValidationErrors_Error (validate (example.first_page 0 "")))),
         example.w_orders))
  /\ (validate (example.first_page 101 "") <> []
      /\ ListTransactions (example.env_score 0) (Ok (example.first_page 101 ""))
           (scan_user 1 example.alice) example.w_orders
         = ((StatusBadRequest,
             util.Err_ (ValidationErrors_Error (validate (example.first_page 101 "")))),
            example.w_orders))
  /\ exists (resp : TransactionListResponse) (w' : World),
      ListTransactions (example.env_score 0) (Ok (example.first_page 2 ""))
        (scan_user 1 example.alice) example.w_orders = ((StatusOK, util.OK resp), w')
      /\ model.ID <$> Orders resp = [2%N; 4%N]
      /\ StronglySorted (fun a b => model.CreatedAt b <= model.CreatedAt a)
           (Orders resp).
Proof.
  split; [| split].
  - apply (proj1 (list_transactions_page (example.env_score 0)
                    (example.first_page 0 "") (scan_user 1 example.alice)
                    example.w_orders)).
    left. vm_compute. reflexivity.
  - apply (proj1 (list_transactions_page (example.env_score 0)
                    (example.first_page 101 "") (scan_user 1 example.alice)
                    example.w_orders)).
    right. vm_compute. reflexivity.
  - eexists _, _. split; [vm_compute; reflexivity |].
    split; [vm_compute; reflexivity |].
    apply (proj2 (list_transactions_page (example.env_score 0)
                    (example.first_page 2 "") (scan_user 1 example.alice)
                    example.w_orders) _ _ eq_refl).
Defined.



End listing_claims.

(** ** More on the single-user worker *)

Section worker_more.
Import decimal store gorm gorm_ops asynq user ledger runs.

Lemma Zsum_app (l k : list Z) : Zsum (l ++ k) = Zsum l + Zsum k.
Proof. unfold Zsum. induction l as [| x l IH]; cbn; lia. Qed.

Lemma Zsum_Permutation (l k : list Z) : l ≡ₚ k -> Zsum l = Zsum k.
Proof.
  unfold Zsum. induction 1 as [| x l k _ IH | x y l | l k m _ IH1 _ IH2]; cbn; lia.
Qed.

(** Replacing the row of [uid] moves a column total by the change in
    that row. *)
Lemma Zsum_insert (f : user_row -> Z) (m : gmap N user_row) (uid : N) (r r' : user_row) :
  m !! uid = Some r ->
  Zsum ((fun kr : N * user_row => f kr.2) <$> map_to_list (<[uid := r']> m))
  = Zsum ((fun kr : N * user_row => f kr.2) <$> map_to_list m) - f r + f r'.
Proof.
  intros Hr.
  pose proof (map_to_list_insert (delete uid m) uid r' (lookup_delete_eq m uid)) as Hnew.
  rewrite insert_delete_eq in Hnew.
  pose proof (map_to_list_delete m uid r Hr) as Hold.
  rewrite (Zsum_Permutation _ _ (fmap_Permutation _ _ _ Hnew)).
  rewrite <- (Zsum_Permutation _ _ (fmap_Permutation _ _ _ Hold)).
  unfold Zsum. cbn. lia.
Qed.

(** What one run does to the tables, whatever its outcome. *)
Lemma worker_step (env : Env) (t : Task) (w : World) :
  let w' := (HandleUpdateSingleUserGamificationScore env t w).2 in
  queue w' = queue w
  /\ ((users (db w') = users (db w) /\ orders (db w') = orders (db w))
      \/ exists (uid : N) (r : user_row) (score : Z),
          users (db w) !! uid = Some r
          /\ users (db w') = <[uid := credited r score]> (users (db w))
          /\ orders (db w')
             = (orders (db w)
                ++ [row_of_order (score_order env uid r score)
                      (orders_seq (db w) + 1)%N (now env)])%list).
Proof.
  destruct (worker_outcome env t w) as (res & w' & Hrun & Hq & Hcases).
  rewrite Hrun. cbn [snd]. split; [exact Hq |].
  destruct Hcases as [Hsame | (_ & uid & r & score & _ & Hr & _ & _ & Hu & Ho)].
  - now left.
  - right. exists uid, r, score. done.
Qed.

Lemma score_order_amount (env : Env) (uid : N) (r : user_row) (score : Z) (oid : N) (at_ : Z) :
  o_amount (row_of_order (score_order env uid r score) oid at_)
  = score * 100 - total_community r.
Proof.
  cbn [row_of_order o_amount score_order community_order model.Amount].
  unfold score_diff, store_numeric. cbn. lia.
Qed.

Lemma credited_kept (r : user_row) (score : Z) :
  other_columns_kept r (credited r score)
  /\ available_balance (credited r score) - total_community (credited r score)
     = available_balance r - total_community r
  /\ total_receive (credited r score) - total_community (credited r score)
     = total_receive r - total_community r.
Proof. unfold other_columns_kept, credited. cbn. split; [reflexivity | lia]. Qed.

Lemma other_columns_kept_refl (r : user_row) : other_columns_kept r r.
Proof. unfold other_columns_kept. destruct r; reflexivity. Qed.

Lemma other_columns_kept_trans (r1 r2 r3 : user_row) :
  other_columns_kept r1 r2 -> other_columns_kept r2 r3 -> other_columns_kept r1 r3.
Proof.
  unfold other_columns_kept, with_totals. intros H12 H23.
  destruct r1, r2, r3. cbn in *.
  injection H12 as -> -> -> -> -> -> -> -> -> -> -> -> -> -> .
  injection H23 as -> -> -> -> -> -> -> -> -> -> -> -> -> -> .
  reflexivity.
Qed.

(** X1.  Any number of worker runs, whatever the jobs and whatever
    their outcomes: no user row appears or disappears; in every row
    the columns other than [total_receive], [total_community] and
    [available_balance] keep their values; [available_balance -
    total_community] and [total_receive - total_community] keep their
    values; the orders present before stay in place, the new ones
    being appended after them, all of type [community]; and nothing
    is enqueued. *)
Theorem worker_runs_keep_ledger (jobs : list (Env * Task)) (w : World) (uid : N) :
  queue (run_worker jobs w) = queue w
  /\ (exists added : list order_row,
        orders (db (run_worker jobs w)) = (orders (db w) ++ added)%list
        /\ Forall (fun o => o_type o = "community") added)
  /\ match users (db w) !! uid, users (db (run_worker jobs w)) !! uid with
     | Some r, Some r' =>
         other_columns_kept r r'
         /\ available_balance r' - total_community r'
            = available_balance r - total_community r
         /\ total_receive r' - total_community r'
            = total_receive r - total_community r
     | None, None => True
     | _, _ => False
     end.
Proof.
  revert w. induction jobs as [| [env t] jobs IH]; intros w.
  - cbn [run_worker]. split; [reflexivity |]. split.
    + exists []. rewrite app_nil_r. split; [reflexivity | constructor].
    + destruct (users (db w) !! uid) as [r |]; [| exact I].
      split; [apply other_columns_kept_refl | lia].
  - cbn [run_worker].
    destruct (worker_step env t w) as [Hq Hstep].
    set (w1 := (HandleUpdateSingleUserGamificationScore env t w).2) in *.
    destruct (IH w1) as (IHq & (added & IHo & IHty) & IHrow).
    split; [congruence |].
    destruct Hstep as [[Hu Ho] | (uid' & r0 & score & Hr0 & Hu & Ho)].
    + rewrite Hu in IHrow. rewrite Ho in IHo. split; [| exact IHrow].
      exists added. done.
    + split.
      * eexists. rewrite IHo, Ho, <- app_assoc. split; [reflexivity |].
        constructor; [reflexivity | exact IHty].
      * rewrite Hu in IHrow. destruct (decide (uid' = uid)) as [-> | Hne].
        -- rewrite lookup_insert_eq in IHrow. rewrite Hr0.
           destruct (users (db (run_worker jobs w1)) !! uid) as [r' |]; [| exact IHrow].
           destruct IHrow as (Hk & Hab & Htr).
           destruct (credited_kept r0 score) as (Hk0 & Hab0 & Htr0).
           split; [exact (other_columns_kept_trans _ _ _ Hk0 Hk) | lia].
        -- rewrite lookup_insert_ne in IHrow by done. exact IHrow.
Qed.

(** X2.  Any number of worker runs keep the books balanced: the total
    of [available_balance] over all users minus the total of the
    amounts of all orders does not change, and neither does the total
    of [total_receive] minus the total of the amounts. *)
Theorem worker_runs_conserve (jobs : list (Env * Task)) (w : World) :
  sum_available (db (run_worker jobs w)) - sum_amounts (db (run_worker jobs w))
  = sum_available (db w) - sum_amounts (db w)
  /\ sum_receive (db (run_worker jobs w)) - sum_amounts (db (run_worker jobs w))
     = sum_receive (db w) - sum_amounts (db w).
Proof.
  revert w. induction jobs as [| [env t] jobs IH]; intros w; [done |].
  cbn [run_worker].
  destruct (worker_step env t w) as [_ Hstep].
  set (w1 := (HandleUpdateSingleUserGamificationScore env t w).2) in *.
  destruct (IH w1) as [IHa IHr]. rewrite IHa, IHr. clear IHa IHr.
  unfold sum_available, sum_receive, sum_amounts.
  destruct Hstep as [[-> ->] | (uid & r & score & Hr & -> & ->)]; [done |].
  rewrite fmap_app, Zsum_app.
  rewrite (Zsum_insert available_balance _ uid r) by done.
  rewrite (Zsum_insert total_receive _ uid r) by done.
  cbn [fmap list_fmap]. rewrite score_order_amount.
  unfold credited, Zsum. cbn. lia.
Qed.

(** X3.  Whatever the stored total and the observed score: after a
    run that returned [nil] the stored [total_community] is the
    observed score (the decimal comparison of the worker now holds),
    [total_receive] and [available_balance] have moved by [new - old],
    and the run added no order when [new = old] and exactly one order,
    of amount [new - old] and payable to the user, otherwise. *)
Theorem worker_reconciles (env : Env) (t : Task) (w w' : World) (uid : N)
  (r : user_row) (score : Z)
  (Hpayload : Payload t = UserIDPayload uid)
  (Huser : users (db w) !! uid = Some r)
  (Hscore : score_source env (username r) = Ok {| model.GamificationScore := score |})
  (Hrun : HandleUpdateSingleUserGamificationScore env t w = (Ok tt, w')) :
  exists r' : user_row,
    users (db w') !! uid = Some r'
    /\ total_community r' = score * 100
    /\ Equal (model.TotalCommunity (scan_user uid r')) (NewFromInt score) = true
    /\ total_receive r' = total_receive r + (score * 100 - total_community r)
    /\ available_balance r' = available_balance r + (score * 100 - total_community r)
    /\ ((total_community r = score * 100 /\ orders (db w') = orders (db w))
        \/ (total_community r <> score * 100
            /\ exists o : order_row,
                orders (db w') = (orders (db w) ++ [o])%list
                /\ o_amount o = score * 100 - total_community r
                /\ o_payee_username o = username r
                /\ o_id o = (orders_seq (db w) + 1)%N)).
Proof.
  destruct (worker_ok_cases env t w w' uid r score Hpayload Huser Hscore Hrun)
    as [[Heq ->] | (Hne & Hu & Ho & _)].
  - exists r. cbn [db logged]. split; [exact Huser |]. split; [exact Heq |].
    split.
    { change (model.TotalCommunity (scan_user uid r))
        with (scan_numeric (total_community r)).
      rewrite Equal_scan_NewFromInt. now apply Z.eqb_eq. }
    split; [lia |]. split; [lia |]. left. done.
  - exists (credited r score). rewrite Hu, lookup_insert_eq.
    split; [reflexivity |]. split; [reflexivity |].
    split.
    { change (model.TotalCommunity (scan_user uid (credited r score)))
        with (scan_numeric (total_community (credited r score))).
      rewrite Equal_scan_NewFromInt. now apply Z.eqb_eq. }
    split; [reflexivity |]. split; [reflexivity |]. right.
    split; [exact Hne |]. eexists. split; [exact Ho |].
    split; [apply score_order_amount |]. split; reflexivity.
Qed.

Lemma worker_reconciles_witness :
  exists r' : user_row,
    users (db (HandleUpdateSingleUserGamificationScore (example.env_score 77)
                 (example.task_for 2) example.w0).2) !! 2%N = Some r'
    /\ total_community r' = 7700
    /\ available_balance r' = available_balance example.bob + 2700.
Proof.
  destruct (worker_reconciles (example.env_score 77) (example.task_for 2) example.w0
              (HandleUpdateSingleUserGamificationScore (example.env_score 77)
                 (example.task_for 2) example.w0).2
              2%N example.bob 77)
    as (r' & Hr' & Htc & _ & _ & Hab & _).
  - reflexivity.
  - vm_compute. reflexivity.
  - reflexivity.
  - vm_compute. reflexivity.
  - exists r'. split; [exact Hr' |]. split; [exact Htc |]. exact Hab.
Defined.

(** X4.  A task the worker cannot start on touches nothing.  With a
    payload that does not decode, the worker returns the decoding
    error wrapped and sends no statement.  With the identifier of no
    user, it returns [gorm.ErrRecordNotFound] wrapped, the message
    naming the identifier in decimal, after the one lookup; the score
    source plays no part, and tables and queue are as before. *)
Theorem worker_rejects_task (env : Env) (t : Task) (w : World) :
  (forall (raw : string) (e : error),
     Payload t = BadPayload raw e ->
     HandleUpdateSingleUserGamificationScore env t w
     = (Err (Errorf "解析任务参数失败" e), w))
  /\ (forall uid : N,
        Payload t = UserIDPayload uid ->
        (uid < 2 ^ 64)%N ->
        users (db w) !! uid = None ->
        stmt_fault env (SelectUserByID uid) = None ->
        HandleUpdateSingleUserGamificationScore env t w
        = (Err (Errorf ("查询用户ID[" ++ pretty uid ++ "]失败") ErrRecordNotFound),
           logged w [SelectUserByID uid])
        /\ errors_Is (Errorf ("查询用户ID[" ++ pretty uid ++ "]失败") ErrRecordNotFound)
             ErrRecordNotFound = true).
Proof.
  split.
  - intros raw e Hp. unfold HandleUpdateSingleUserGamificationScore. now rewrite Hp.
  - intros uid Hp Hu Hnone Hf. split; [| apply errors_Is_wrapped].
    unfold HandleUpdateSingleUserGamificationScore. rewrite Hp.
    unfold bind at 1. unfold First_user, bind. rewrite exec_ok by done.
    unfold get_db, logged. cbn [db]. rewrite Hnone. unfold fail.
    now rewrite query_user_prefix_ok.
Qed.

Lemma worker_rejects_task_witness :
  HandleUpdateSingleUserGamificationScore (example.env_score 5) (example.task_for 9)
    example.w0
  = (Err (Errorf ("查询用户ID[" ++ pretty 9%N ++ "]失败") ErrRecordNotFound),
     logged example.w0 [SelectUserByID 9]).
Proof.
  refine (proj1 (proj2 (worker_rejects_task (example.env_score 5) (example.task_for 9)
                          example.w0) 9%N _ _ _ _)).
  - reflexivity.
  - vm_compute. reflexivity.
  - vm_compute. reflexivity.
  - reflexivity.
Defined.

(** X5.  When the score source fails for a user that exists, the
    worker returns that very error (it is not wrapped), the lookup of
    the user is the only statement sent (no transaction is begun), and
    tables and queue are as before. *)
Theorem worker_score_failure (env : Env) (t : Task) (w : World) (uid : N)
  (r : user_row) (e : error)
  (Hpayload : Payload t = UserIDPayload uid)
  (Huser : users (db w) !! uid = Some r)
  (Hfind : stmt_fault env (SelectUserByID uid) = None)
  (Hscore : score_source env (username r) = Err e) :
  HandleUpdateSingleUserGamificationScore env t w
  = (Err e, logged w [SelectUserByID uid]).
Proof.
  unfold HandleUpdateSingleUserGamificationScore. rewrite Hpayload.
  unfold bind at 1. rewrite (First_user_found env uid r) by done.
  unfold bind, lift. cbn [model.Username scan_user]. now rewrite Hscore.
Qed.

Lemma worker_score_failure_witness :
  HandleUpdateSingleUserGamificationScore example.env_source_down (example.task_for 1)
    example.w0
  = (Err (ErrExternal "Get https://linux.do: timeout"),
     logged example.w0 [SelectUserByID 1]).
Proof.
  apply (worker_score_failure example.env_source_down (example.task_for 1)
           example.w0 1%N example.alice).
  - reflexivity.
  - vm_compute. reflexivity.
  - reflexivity.
  - reflexivity.
Defined.

End worker_more.

(** ** More on the dispatcher *)

Section dispatch_more.
Import decimal store gorm gorm_ops asynq user ledger dispatch window.












End dispatch_more.

(** ** More on the transaction listing *)

Section listing_more.
Import decimal store gorm gorm_ops order ledger listing.

(** The hook returns the orders it was given, each with a display
    number. *)
Lemma after_find_all_shape (os os' : list model.Order) :
  after_find_all os = Ok os' ->
  Forall2 (fun o o' => exists s : string,
                         fmt.Sprintf_018d (model.ID o) = Some s
                         /\ o' = model.set_OrderNo o s) os os'.
Proof.
  revert os'. induction os as [| o os IH]; intros os' Hall; cbn in Hall.
  - injection Hall as <-. constructor.
  - unfold model.AfterFind in Hall.
    destruct (fmt.Sprintf_018d (model.ID o)) as [s |] eqn:Hs; [| discriminate].
    destruct (after_find_all os) as [rest |]; [| discriminate].
    injection Hall as <-. constructor; [eauto | now apply IH].
Qed.

Lemma after_find_all_total (os : list model.Order) :
  Forall (fun o => (model.ID o < 2 ^ 64)%N) os ->
  after_find_all os
  = Ok ((fun o => model.set_OrderNo o (spec.order_no (model.ID o))) <$> os).
Proof.
  induction 1 as [| o os Hid _ IH]; [reflexivity |].
  cbn. unfold model.AfterFind. rewrite Sprintf_018d_spec by done. now rewrite IH.
Qed.

Lemma page_rows_selected (q : list cond) (offset limit : Z) (d : DB) (row : order_row) :
  row ∈ page_rows q offset limit d -> row ∈ selected q d.
Proof.
  unfold page_rows. intros Hin.
  rewrite <- (merge_sort_Permutation created_desc (selected q d)).
  destruct (limit <? 0).
  - eapply elem_of_sublist; [exact Hin | apply sublist_drop].
  - eapply elem_of_sublist; [eapply elem_of_sublist; [exact Hin |] |];
      [apply sublist_take | apply sublist_drop].
Qed.

Lemma page_rows_length (q : list cond) (offset limit : Z) (d : DB) :
  0 <= limit ->
  (List.length (page_rows q offset limit d) <= Z.to_nat limit)%nat
  /\ (List.length (page_rows q offset limit d) <= List.length (selected q d))%nat.
Proof.
  intros Hl. unfold page_rows. destruct (Z.ltb_spec limit 0); [lia |].
  rewrite length_take, length_drop.
  rewrite (Permutation_length (merge_sort_Permutation created_desc (selected q d))).
  lia.
Qed.

(** What membership in the handler's query means, filter by filter. *)
Lemma base_query_holds (req : TransactionListRequest) (user : model.User)
  (row : order_row) :
  forallb (fun c => holds c row) (base_query req user) = true
  <-> (o_payee_username row = model.Username user
       \/ o_payer_username row = model.Username user)
      /\ (Status req <> "" -> o_status row = Status req)
      /\ (Type_ req <> "" -> o_type row = Type_ req)
      /\ (forall t : Z, StartTime req = Some t -> t <= o_created_at row)
      /\ (forall t : Z, EndTime req = Some t -> o_created_at row <= t).
Proof.
  unfold base_query. rewrite !forallb_app, !andb_true_iff.
  assert (forallb (fun c => holds c row) [PayeeOrPayer (model.Username user)] = true
          <-> (o_payee_username row = model.Username user
               \/ o_payer_username row = model.Username user)) as ->.
  { cbn. rewrite andb_true_r, orb_true_iff, !String.eqb_eq. tauto. }
  assert (forallb (fun c => holds c row)
            (if negb (Status req =? "")%string then [StatusEq (Status req)] else [])
          = true <-> (Status req <> "" -> o_status row = Status req)) as ->.
  { destruct (String.eqb_spec (Status req) "") as [He | Hne]; cbn.
    - split; [intros _ Hc; contradiction | reflexivity].
    - rewrite andb_true_r, String.eqb_eq. tauto. }
  assert (forallb (fun c => holds c row)
            (if negb (Type_ req =? "")%string then [TypeEq (Type_ req)] else [])
          = true <-> (Type_ req <> "" -> o_type row = Type_ req)) as ->.
  { destruct (String.eqb_spec (Type_ req) "") as [He | Hne]; cbn.
    - split; [intros _ Hc; contradiction | reflexivity].
    - rewrite andb_true_r, String.eqb_eq. tauto. }
  assert (forallb (fun c => holds c row)
            match StartTime req with Some t => [CreatedGe t] | None => [] end
          = true <-> (forall t : Z, StartTime req = Some t -> t <= o_created_at row)) as ->.
  { destruct (StartTime req) as [t |]; cbn.
    - rewrite andb_true_r, Z.leb_le. split; [intros H t' [= <-]; exact H | eauto].
    - split; [discriminate | reflexivity]. }
  assert (forallb (fun c => holds c row)
            match EndTime req with Some t => [CreatedLe t] | None => [] end
          = true <-> (forall t : Z, EndTime req = Some t -> o_created_at row <= t)) as ->.
  { destruct (EndTime req) as [t |]; cbn.
    - rewrite andb_true_r, Z.leb_le. split; [intros H t' [= <-]; exact H | eauto].
    - split; [discriminate | reflexivity]. }
  tauto.
Qed.

(** The handler on a valid request, its query spelled out. *)
Lemma ListTransactions_base (env : Env) (req : TransactionListRequest)
  (user : model.User) (w : World) :
  validate req = [] ->
  ListTransactions env (Ok req) user w
  = match Count env (base_query req user) w with
    | (Err err, w1) => ((StatusInternalServerError, util.Err_ (Error err)), w1)
    | (Ok total, w1) =>
        match Find env (base_query req user) (wrap64 ((Page req - 1) * PageSize req))
                (PageSize req) w1 with
        | (Err err, w2) => ((StatusInternalServerError, util.Err_ (Error err)), w2)
        | (Ok orders, w2) =>
            ((StatusOK,
              util.OK {| Total := total; resp_Page := Page req;
                         resp_PageSize := PageSize req; Orders := orders |}), w2)
        end
    end.
Proof.
  intros Hval. unfold ListTransactions. rewrite ShouldBindJSON_accepts by done.
  cbv zeta. unfold base_query.
  destruct (negb (Status req =? "")%string), (negb (Type_ req =? "")%string),
    (StartTime req), (EndTime req); reflexivity.
Qed.

Lemma ListTransactions_echo (env : Env) (req : TransactionListRequest)
  (user : model.User) (w w' : World) (resp : TransactionListResponse) :
  ListTransactions env (Ok req) user w = ((StatusOK, util.OK resp), w') ->
  resp_Page resp = Page req /\ resp_PageSize resp = PageSize req.
Proof.
  unfold ListTransactions.
  destruct (ShouldBindJSON (Ok req)) as [req' | e] eqn:Hbind; [| discriminate].
  assert (req' = req) as ->.
  { unfold ShouldBindJSON in Hbind. destruct (validate req); [congruence | discriminate]. }
  cbv zeta.
  destruct (Count env _ w) as [[total | e] w1]; [| discriminate].
  destruct (Find env _ _ _ w1) as [[os | e] w2]; [| discriminate].
  intros Hrun. injection Hrun as <- <-. done.
Qed.

(** X8.  In a 200 answer every order listed is a stored row, with
    the display number formatted from the row's ID, in which
    the requesting user is payer or payee, has the requested status
    and type when these filters are set, and was created within the
    requested time range; at most [PageSize] orders are listed;
    [Total] counts all the rows that match, listed or not; the page
    number and size of the request are echoed. *)
Theorem list_transactions_only_matching (env : Env) (req : TransactionListRequest)
  (user : model.User) (w w' : World) (resp : TransactionListResponse)
  (Hrun : ListTransactions env (Ok req) user w = ((StatusOK, util.OK resp), w')) :
  Forall (fun o : model.Order =>
            (exists row : order_row,
               row ∈ orders (db w)
               /\ fmt.Sprintf_018d (o_id row) = Some (model.OrderNo o)
               /\ o = model.set_OrderNo (scan_order row) (model.OrderNo o))
            /\ (model.PayeeUsername o = model.Username user
                \/ model.PayerUsername o = model.Username user)
            /\ (Status req <> "" -> model.Status o = Status req)
            /\ (Type_ req <> "" -> model.Type_ o = Type_ req)
            /\ (forall t : Z, StartTime req = Some t -> t <= model.CreatedAt o)
            /\ (forall t : Z, EndTime req = Some t -> model.CreatedAt o <= t))
    (Orders resp)
  /\ Z.of_nat (List.length (Orders resp)) <= PageSize req
  /\ Z.of_nat (List.length (Orders resp)) <= Total resp
  /\ Total resp
     = Z.of_nat (List.length
                   (List.filter
                      (fun row => forallb (fun c => holds c row) (base_query req user))
                      (orders (db w))))
  /\ resp_Page resp = Page req /\ resp_PageSize resp = PageSize req.
Proof.
  pose proof (ListTransactions_echo _ _ _ _ _ _ Hrun) as [Hpage Hsize].
  apply ListTransactions_ok in Hrun as (Hval & Htotal & Hos & _).
  apply validate_nil in Hval as (_ & Hps%validate_PageSize_nil & _).
  pose proof (after_find_all_shape _ _ Hos) as Hshape.
  pose proof (Forall2_length _ _ _ Hshape) as Hlen. rewrite length_fmap in Hlen.
  destruct (page_rows_length (base_query req user)
              (wrap64 ((Page req - 1) * PageSize req)) (PageSize req) (db w))
    as [Hle1 Hle2]; [lia |].
  split; [| split; [lia | split; [rewrite Htotal; lia | split; [exact Htotal | done]]]].
  apply Forall2_fmap_l in Hshape.
  apply Forall_forall. intros o Ho.
  apply list_elem_of_lookup in Ho as [i Hi].
  destruct (Forall2_lookup_r _ _ _ i o Hshape Hi) as (row & Hrow & s & Hs & ->).
  assert (row ∈ selected (base_query req user) (db w)) as Hsel.
  { eapply page_rows_selected. apply list_elem_of_lookup. eauto. }
  apply selected_spec in Hsel as [Hin Hholds].
  apply base_query_holds in Hholds as (Hparty & Hst & Hty & Hge & Hle).
  split; [exists row; split; [exact Hin | split; [exact Hs | reflexivity]] |].
  cbn. done.
Qed.

Lemma list_transactions_only_matching_witness :
  exists (resp : TransactionListResponse) (w' : World),
    ListTransactions (example.env_score 0) (Ok (example.first_page 2 ""))
      (scan_user 1 example.alice) example.w_orders = ((StatusOK, util.OK resp), w')
    /\ Total resp = 3
    /\ Forall (fun o : model.Order =>
                 model.PayeeUsername o = "alice" \/ model.PayerUsername o = "alice")
         (Orders resp).
Proof.
  eexists _, _. split; [vm_compute; reflexivity |].
  destruct (list_transactions_only_matching (example.env_score 0)
              (example.first_page 2 "") (scan_user 1 example.alice)
              example.w_orders _ _ eq_refl) as (Hall & _ & _ & Htotal & _).
  split; [vm_compute; reflexivity |].
  eapply Forall_impl; [exact Hall |]. intros o (_ & Hparty & _). exact Hparty.
Defined.

(** X9.  The listing only reads.  Whatever the request and whatever
    fails, the tables and the queue are as before.  The answer is 400
    with no statement sent (body not decoded or not valid), or 500
    after a failed [COUNT] alone, or 500 after the [COUNT] and a failed
    [SELECT], or 200 after both; data comes with the 200 answer and
    with no other. *)
Theorem list_transactions_reads_only (env : Env)
  (decoded : result TransactionListRequest) (user : model.User) (w : World) :
  db (ListTransactions env decoded user w).2 = db w
  /\ queue (ListTransactions env decoded user w).2 = queue w
  /\ ((exists msg : string,
         ListTransactions env decoded user w = ((StatusBadRequest, util.Err_ msg), w))
      \/ (exists (req : TransactionListRequest) (e : error),
            decoded = Ok req
            /\ stmt_fault env (CountOrders (base_query req user)) = Some e
            /\ ListTransactions env decoded user w
               = ((StatusInternalServerError, util.Err_ (Error e)),
                  logged w [CountOrders (base_query req user)]))
      \/ (exists (req : TransactionListRequest) (e : error),
            decoded = Ok req
            /\ ListTransactions env decoded user w
               = ((StatusInternalServerError, util.Err_ (Error e)),
                  logged w [CountOrders (base_query req user);
                            SelectOrders (base_query req user)
                              (wrap64 ((Page req - 1) * PageSize req)) (PageSize req)]))
      \/ (exists (req : TransactionListRequest) (resp : TransactionListResponse),
            decoded = Ok req
            /\ ListTransactions env decoded user w
               = ((StatusOK, util.OK resp),
                  logged w [CountOrders (base_query req user);
                            SelectOrders (base_query req user)
                              (wrap64 ((Page req - 1) * PageSize req)) (PageSize req)])))
  /\ (util.Data (ListTransactions env decoded user w).1.2 <> None
      <-> (ListTransactions env decoded user w).1.1 = StatusOK).
Proof.
  assert ((exists msg : string,
             ListTransactions env decoded user w = ((StatusBadRequest, util.Err_ msg), w))
          \/ (exists (req : TransactionListRequest) (e : error),
                decoded = Ok req
                /\ stmt_fault env (CountOrders (base_query req user)) = Some e
                /\ ListTransactions env decoded user w
                   = ((StatusInternalServerError, util.Err_ (Error e)),
                      logged w [CountOrders (base_query req user)]))
          \/ (exists (req : TransactionListRequest) (e : error),
                decoded = Ok req
                /\ ListTransactions env decoded user w
                   = ((StatusInternalServerError, util.Err_ (Error e)),
                      logged w [CountOrders (base_query req user);
                                SelectOrders (base_query req user)
                                  (wrap64 ((Page req - 1) * PageSize req))
                                  (PageSize req)]))
          \/ (exists (req : TransactionListRequest) (resp : TransactionListResponse),
                decoded = Ok req
                /\ ListTransactions env decoded user w
                   = ((StatusOK, util.OK resp),
                      logged w [CountOrders (base_query req user);
                                SelectOrders (base_query req user)
                                  (wrap64 ((Page req - 1) * PageSize req))
                                  (PageSize req)]))) as Hcases.
  { destruct decoded as [req | e0]; [| left; eexists; reflexivity].
    destruct (validate req) as [| fe errs] eqn:Hval.
    2: { left. eexists. apply ListTransactions_rejected. rewrite Hval. discriminate. }
    right.
    pose proof (ListTransactions_base env req user w Hval) as Hrun.
    unfold Count, bind, exec in Hrun.
    destruct (stmt_fault env (CountOrders (base_query req user))) as [e |] eqn:Hc.
    { left. exists req, e. done. }
    right. unfold get_db, ret in Hrun. cbn [db] in Hrun.
    unfold Find, bind, exec in Hrun.
    destruct (stmt_fault env (SelectOrders _ _ _)) as [e |].
    { left. exists req, e. split; [done |]. rewrite Hrun.
      unfold logged. cbn. now rewrite <- app_assoc. }
    unfold get_db, lift in Hrun. cbn [db] in Hrun.
    destruct (after_find_all _) as [os | e].
    - right. eexists req, _. split; [done |]. rewrite Hrun.
      unfold logged. cbn. now rewrite <- app_assoc.
    - left. exists req, e. split; [done |]. rewrite Hrun.
      unfold logged. cbn. now rewrite <- app_assoc. }
  split; [| split; [| split; [exact Hcases |]]];
    destruct Hcases as [(msg & ->) | [(req & e & _ & _ & ->) | [(req & e & _ & ->)
                                                              | (req & resp & _ & ->)]]];
    cbn; try done.
  all: split; [intros _; reflexivity || (intros H; exfalso; now apply H) | discriminate].
Qed.

(** Creation times in descending order: there is one such
    arrangement of the times of the matching rows, whatever the order
    of rows that share a time. *)
Lemma descending_keys (l : list order_row) (keys : list Z) :
  StronglySorted (fun a b : Z => b <= a) keys ->
  keys ≡ₚ o_created_at <$> l ->
  o_created_at <$> merge_sort created_desc l = keys.
Proof.
  intros Hsorted Hperm.
  assert (AntiSymm (=) (fun a b : Z => b <= a)) as Hanti by (intros a b ? ?; lia).
  apply (StronglySorted_unique (fun a b : Z => b <= a)).
  - apply (key_sorted o_created_at). apply merge_sort_created_desc.
  - exact Hsorted.
  - rewrite Hperm. apply fmap_Permutation. apply merge_sort_Permutation.
Qed.

(** X10.  Paging.  For a valid request, a datastore that answers both
    statements, and an offset [(Page - 1) * PageSize] that fits 63
    bits, the answer is 200.  [Total] counts the matching orders.  The
    creation times listed are the entries [(Page - 1) * PageSize]
    onward, at most [PageSize] of them, of the descending arrangement
    of the matching orders' creation times; so the page holds
    [min PageSize (Total - (Page - 1) * PageSize)] orders, none past
    the end.  Every order listed carries the display number of its
    ID. *)
Theorem list_transactions_pages (env : Env) (req : TransactionListRequest)
  (user : model.User) (w : World) (keys : list Z)
  (Hval : validate req = [])
  (Hcount : stmt_fault env (CountOrders (base_query req user)) = None)
  (Hselect : stmt_fault env (SelectOrders (base_query req user)
                               ((Page req - 1) * PageSize req) (PageSize req)) = None)
  (Hfits : (Page req - 1) * PageSize req < 2 ^ 63)
  (Hids : Forall (fun row : order_row => (o_id row < 2 ^ 64)%N) (orders (db w)))
  (Hsorted : StronglySorted (fun a b : Z => b <= a) keys)
  (Hkeys : keys ≡ₚ o_created_at <$> selected (base_query req user) (db w)) :
  exists (resp : TransactionListResponse) (w' : World),
    ListTransactions env (Ok req) user w = ((StatusOK, util.OK resp), w')
    /\ Total resp = Z.of_nat (List.length keys)
    /\ model.CreatedAt <$> Orders resp
       = take (Z.to_nat (PageSize req))
           (drop (Z.to_nat ((Page req - 1) * PageSize req)) keys)
    /\ Z.of_nat (List.length (Orders resp))
       = Z.min (PageSize req) (Z.max 0 (Total resp - (Page req - 1) * PageSize req))
    /\ Forall (fun o : model.Order => model.OrderNo o = spec.order_no (model.ID o))
         (Orders resp).
Proof.
  pose proof Hval as Hv.
  apply validate_nil in Hv as (Hpage & Hsize%validate_PageSize_nil & _).
  assert (1 <= Page req) as Hp.
  { unfold validate_Page in Hpage. destruct (Z.ltb_spec (Page req) 1); [discriminate | lia]. }
  assert (wrap64 ((Page req - 1) * PageSize req) = (Page req - 1) * PageSize req) as Hwrap.
  { apply wrap64_id. nia. }
  pose proof (ListTransactions_base env req user w Hval) as Hrun.
  rewrite Hwrap in Hrun.
  set (q := base_query req user) in *.
  set (off := (Page req - 1) * PageSize req) in *.
  set (rows := page_rows q off (PageSize req) (db w)).
  unfold Count, bind, exec in Hrun. rewrite Hcount in Hrun.
  unfold get_db, ret in Hrun. cbn [db] in Hrun.
  unfold Find, bind, exec in Hrun. rewrite Hselect in Hrun.
  unfold get_db, lift in Hrun. cbn [db] in Hrun.
  change (if PageSize req <? 0 then _ else _) with rows in Hrun.
  rewrite after_find_all_total in Hrun.
  2: { apply Forall_fmap, Forall_forall. intros row Hin. cbn.
       apply page_rows_selected, selected_spec in Hin as [Hin _].
       rewrite Forall_forall in Hids. exact (Hids row Hin). }
  eexists _, _. split; [exact Hrun |]. cbn [Total Orders].
  assert (o_created_at <$> rows
          = take (Z.to_nat (PageSize req)) (drop (Z.to_nat off) keys)) as Hrows.
  { unfold rows, page_rows. destruct (Z.ltb_spec (PageSize req) 0); [lia |].
    rewrite fmap_take, fmap_drop. now rewrite (descending_keys _ keys). }
  assert (List.length keys = List.length (selected q (db w))) as Hlen.
  { rewrite Hkeys. now rewrite length_fmap. }
  split; [now rewrite Hlen |]. split.
  { rewrite <- Hrows. rewrite <- !list_fmap_compose. reflexivity. }
  split.
  { rewrite !length_fmap. rewrite <- (length_fmap o_created_at), Hrows.
    rewrite length_take, length_drop. rewrite <- Hlen.
    assert (0 <= off) as Hoff by (unfold off; nia).
    clearbody off. lia. }
  apply Forall_fmap, Forall_forall. intros o _. reflexivity.
Qed.

Lemma list_transactions_pages_witness :
  exists (resp : TransactionListResponse) (w' : World),
    ListTransactions (example.env_score 0)
      (Ok {| Page := 2; PageSize := 2; Type_ := ""; Status := "";
             StartTime := None; EndTime := None |})
      (scan_user 1 example.alice) example.w_orders = ((StatusOK, util.OK resp), w')
    /\ Total resp = 3
    /\ model.CreatedAt <$> Orders resp = [example.now0 - 300].
Proof.
  destruct (list_transactions_pages (example.env_score 0)
              {| Page := 2; PageSize := 2; Type_ := ""; Status := "";
                 StartTime := None; EndTime := None |}
              (scan_user 1 example.alice) example.w_orders
              [example.now0 - 100; example.now0 - 200; example.now0 - 300])
    as (resp & w' & Hrun & Htotal & Hkeys & _).
  - reflexivity.
  - reflexivity.
  - reflexivity.
  - reflexivity.
  - repeat constructor.
  - repeat constructor; unfold example.now0; lia.
  - vm_compute. symmetry. apply (Permutation_cons_append [_; _]).
  - exists resp, w'. split; [exact Hrun |]. split; [exact Htotal | exact Hkeys].
Defined.

End listing_more.

(** ** A whole cycle: the sweep, then the scheduled tasks *)

Section cycle_facts.
Import decimal store gorm gorm_ops asynq user ledger dispatch runs.







End cycle_facts.

(** ** More on the display number *)

Section display_facts.
Import display.

Lemma pretty_N_char_digit (d : N) :
  (d < 10)%N ->
  digit_value (pretty_N_char d) = d /\ is_digit (pretty_N_char d) = true.
Proof.
  intros Hd. destruct d as [| p]; [split; reflexivity |].
  do 4 (destruct p as [p | p |]; try (split; reflexivity); try lia).
Qed.

Lemma read_pretty_go (x : N) : forall s : string,
  read_from 0 (pretty_N_go x s) = read_from x s.
Proof.
  induction (N.lt_wf_0 x) as [x _ IH]. intros s.
  destruct (N.eq_dec x 0) as [-> | Hx]; [now rewrite pretty_N_go_0 |].
  rewrite pretty_N_go_step by lia.
  rewrite IH by (apply N.div_lt; lia). cbn [read_from].
  destruct (pretty_N_char_digit (x mod 10)) as [-> _]; [apply N.mod_lt; lia |].
  f_equal. rewrite (N.div_mod x 10) at 3 by lia. lia.
Qed.

Lemma read_zeros (k : nat) (s : string) :
  read_number (string_of_list_ascii (replicate k "0"%char) ++ s) = read_number s.
Proof. induction k as [| k IH]; [reflexivity | exact IH]. Qed.

Lemma read_pretty (x : N) : read_number (pretty x) = x.
Proof.
  unfold pretty, pretty_N. destruct (decide (x = 0%N)) as [-> | _]; [reflexivity |].
  unfold read_number. now rewrite read_pretty_go.
Qed.

Lemma read_order_no (id : N) : read_number (spec.order_no id) = id.
Proof. unfold spec.order_no, spec.pad. rewrite read_zeros. apply read_pretty. Qed.

Lemma go_length_ge (x : N) : forall s : string,
  (String.length s <= String.length (pretty_N_go x s))%nat.
Proof.
  induction (N.lt_wf_0 x) as [x _ IH]. intros s.
  destruct (N.eq_dec x 0) as [-> | Hx]; [now rewrite pretty_N_go_0 |].
  rewrite pretty_N_go_step by lia.
  etrans; [| apply IH, N.div_lt; lia]. cbn. lia.
Qed.

Lemma go_length (k : nat) : forall (x : N) (s : string),
  (x < 10 ^ N.of_nat k)%N
  <-> (String.length (pretty_N_go x s) <= k + String.length s)%nat.
Proof.
  induction k as [| k IH]; intros x s.
  - destruct (N.eq_dec x 0) as [-> | Hx].
    + rewrite pretty_N_go_0. cbn. lia.
    + rewrite pretty_N_go_step by lia.
      pose proof (go_length_ge (x / 10) (String (pretty_N_char (x mod 10)) s)) as Hge.
      cbn in Hge. cbn. lia.
  - destruct (N.eq_dec x 0) as [-> | Hx].
    + rewrite pretty_N_go_0. split; [lia |]. intros _. apply N.neq_0_lt_0.
      now apply N.pow_nonzero.
    + rewrite pretty_N_go_step by lia.
      specialize (IH (x / 10)%N (String (pretty_N_char (x mod 10)) s)).
      cbn [String.length] in IH.
      replace (S k + String.length s)%nat with (k + S (String.length s))%nat by lia.
      rewrite <- IH. rewrite Nat2N.inj_succ, N.pow_succ_r'.
      split; intros Hlt.
      * apply N.Div0.div_lt_upper_bound. lia.
      * pose proof (N.div_mod x 10 ltac:(lia)) as Hdm.
        pose proof (N.mod_lt x 10 ltac:(lia)). lia.
Qed.

Lemma pretty_length (k : nat) (x : N) :
  (0 < k)%nat ->
  (x < 10 ^ N.of_nat k)%N <-> (String.length (pretty x) <= k)%nat.
Proof.
  intros Hk. unfold pretty, pretty_N. destruct (decide (x = 0%N)) as [-> | Hx].
  - cbn. split; [lia |]. intros _. apply N.neq_0_lt_0. now apply N.pow_nonzero.
  - rewrite (go_length k x ""). cbn. lia.
Qed.

Lemma go_digits (x : N) : forall s : string,
  Forall (fun c => is_digit c = true) (list_ascii_of_string s) ->
  Forall (fun c => is_digit c = true) (list_ascii_of_string (pretty_N_go x s)).
Proof.
  induction (N.lt_wf_0 x) as [x _ IH]. intros s Hs.
  destruct (N.eq_dec x 0) as [-> | Hx]; [now rewrite pretty_N_go_0 |].
  rewrite pretty_N_go_step by lia. apply IH; [apply N.div_lt; lia |].
  cbn. constructor; [| exact Hs].
  apply pretty_N_char_digit, N.mod_lt. lia.
Qed.

Lemma order_no_digits (id : N) :
  Forall (fun c => is_digit c = true) (list_ascii_of_string (spec.order_no id)).
Proof.
  unfold spec.order_no, spec.pad.
  generalize (18 - String.length (pretty id))%nat. intros k.
  induction k as [| k IH]; cbn.
  - unfold pretty, pretty_N. destruct (decide (id = 0%N)).
    + repeat constructor.
    + apply go_digits. constructor.
  - constructor; [reflexivity | exact IH].
Qed.

(** X12.  The display number set by [AfterFind] is a string of decimal
    digits that reads back as the ID, so two orders with the same
    display number have the same ID.  It has exactly 18 characters
    while the ID is below [10 ^ 18]; from there on it is the ID's own
    19 or 20 digits. *)
Theorem order_no_reads_back (o : model.Order) (Hid : (model.ID o < 2 ^ 64)%N) :
  exists o' : model.Order,
    model.AfterFind o = Ok o'
    /\ model.ID o' = model.ID o
    /\ read_number (model.OrderNo o') = model.ID o
    /\ Forall (fun c => is_digit c = true) (list_ascii_of_string (model.OrderNo o'))
    /\ ((model.ID o < 10 ^ 18)%N -> String.length (model.OrderNo o') = 18%nat)
    /\ ((10 ^ 18 <= model.ID o)%N ->
        model.OrderNo o' = pretty (model.ID o)
        /\ (19 <= String.length (model.OrderNo o') <= 20)%nat)
    /\ (forall o2 o2' : model.Order,
          model.AfterFind o2 = Ok o2' ->
          (model.ID o2 < 2 ^ 64)%N ->
          model.OrderNo o2' = model.OrderNo o' ->
          model.ID o2 = model.ID o).
Proof.
  exists (model.set_OrderNo o (spec.order_no (model.ID o))).
  split; [unfold model.AfterFind; now rewrite Sprintf_018d_spec |].
  cbn [model.ID model.OrderNo model.set_OrderNo].
  split; [reflexivity |]. split; [apply read_order_no |].
  split; [apply order_no_digits |].
  split; [| split].
  - intros Hsmall. unfold spec.order_no. rewrite pad_length.
    apply (pretty_length 18) in Hsmall; [lia | lia].
  - intros Hbig.
    assert (18 < String.length (pretty (model.ID o)))%nat as Hlen.
    { apply Nat.nle_gt. intros Hle. apply (pretty_length 18) in Hle; [| lia].
      change (N.of_nat 18) with 18%N in Hle. lia. }
    assert (String.length (pretty (model.ID o)) <= 20)%nat as Hmax.
    { apply (pretty_length 20); [lia |]. pose proof pow10_20. lia. }
    assert (spec.order_no (model.ID o) = pretty (model.ID o)) as ->.
    { unfold spec.order_no, spec.pad.
      replace (18 - String.length (pretty (model.ID o)))%nat with 0%nat by lia.
      reflexivity. }
    split; [reflexivity | lia].
  - intros o2 o2' Hfind Hid2 Hsame. unfold model.AfterFind in Hfind.
    rewrite Sprintf_018d_spec in Hfind by exact Hid2. injection Hfind as <-.
    cbn [model.OrderNo model.set_OrderNo] in Hsame.
    rewrite <- (read_order_no (model.ID o2)), Hsame. apply read_order_no.
Qed.

Lemma order_no_reads_back_witness :
  exists o' : model.Order,
    model.AfterFind (store.scan_order (example.order_row_at 42 "a" "b" 1 2)) = Ok o'
    /\ read_number (model.OrderNo o') = 42%N
    /\ String.length (model.OrderNo o') = 18%nat.
Proof.
  destruct (order_no_reads_back (store.scan_order (example.order_row_at 42 "a" "b" 1 2)))
    as (o' & Hfind & _ & Hread & _ & Hlen & _).
  - vm_compute. reflexivity.
  - exists o'. split; [exact Hfind |]. split; [exact Hread |].
    apply Hlen. vm_compute. reflexivity.
Defined.

End display_facts.

(** ** Hexadecimal and base64 *)

Section encoding_facts.

Lemma list_ind2 {A : Type} (P : list A -> Prop) :
  P [] -> (forall a : A, P [a]) ->
  (forall (a b : A) (l : list A), P l -> P (a :: b :: l)) ->
  forall l : list A, P l.
Proof.
  intros H0 H1 H2 l.
  assert (P l /\ forall a : A, P (a :: l)) as [Hl _]; [| exact Hl].
  induction l as [| b l [IH1 IH2]]; [split; [exact H0 | exact H1] |].
  split; [apply IH2 |]. intros a. now apply H2.
Qed.

Lemma list_ind3 {A : Type} (P : list A -> Prop) :
  P [] -> (forall a : A, P [a]) -> (forall a b : A, P [a; b]) ->
  (forall (a b c : A) (l : list A), P l -> P (a :: b :: c :: l)) ->
  forall l : list A, P l.
Proof.
  intros H0 H1 H2 H3 l.
  assert (P l /\ (forall a : A, P (a :: l)) /\ forall a b : A, P (a :: b :: l))
    as [Hl _]; [| exact Hl].
  induction l as [| c l (IH1 & IH2 & IH3)]; [split; [exact H0 | split; [exact H1 | exact H2]] |].
  split; [apply IH2 |]. split; [intros a; apply IH3 |]. intros a b. now apply H3.
Qed.

Lemma byte_of_to_N (v : byte) : byte_of (Byte.to_N v) = v.
Proof.
  unfold byte_of. pose proof (Byte.to_N_bounded v).
  rewrite N.mod_small by lia. now rewrite Byte.of_to_N.
Qed.

(** *** [encoding/hex] *)

Lemma hex_digit (i : N) :
  (i < 16)%N ->
  hex.fromHexChar (hex.hexchar i) = Some i.
Proof.
  intros Hi. destruct i as [| p]; [reflexivity |].
  do 4 (destruct p as [p | p |]; try reflexivity; try lia).
Qed.

Lemma hex_byte (v : byte) :
  hex.fromHexChar (hex.hexchar (N.shiftr (Byte.to_N v) 4))
  = Some (N.shiftr (Byte.to_N v) 4)
  /\ hex.fromHexChar (hex.hexchar (N.land (Byte.to_N v) 15))
     = Some (N.land (Byte.to_N v) 15)
  /\ byte_of (N.lor (N.shiftl (N.shiftr (Byte.to_N v) 4) 4) (N.land (Byte.to_N v) 15))
     = v.
Proof. destruct v; vm_compute; repeat split. Qed.

Lemma hex_Decode_Encode (src : list byte) : hex.Decode (hex.Encode src) = Done src.
Proof.
  induction src as [| v src IH]; [reflexivity |].
  destruct (hex_byte v) as (Hhi & Hlo & Hv).
  cbn [hex.Encode hex.Decode]. rewrite Hhi, Hlo, IH, Hv. reflexivity.
Qed.

Lemma hex_Encode_length (src : list byte) :
  List.length (hex.Encode src) = (2 * List.length src)%nat.
Proof. induction src as [| v src IH]; cbn; lia. Qed.

(** What [Decode] accepts: an even number of digits of either case. *)
Lemma hex_Decode_Done (src : list ascii) (bs : list byte) :
  hex.Decode src = Done bs ->
  List.length src = (2 * List.length bs)%nat
  /\ Forall (fun c => hex.fromHexChar c <> None) src.
Proof.
  revert bs. induction src as [| p | p q src IH] using list_ind2; intros bs Hd.
  - injection Hd as <-. split; [reflexivity | constructor].
  - cbn in Hd. destruct (hex.fromHexChar p); discriminate.
  - cbn [hex.Decode] in Hd.
    destruct (hex.fromHexChar p) as [a |] eqn:Hp; [| discriminate].
    destruct (hex.fromHexChar q) as [b |] eqn:Hq; [| discriminate].
    destruct (hex.Decode src) as [bs' | e]; [| discriminate].
    injection Hd as <-. destruct (IH bs' eq_refl) as [Hlen Hall].
    split; [cbn; lia |].
    constructor; [congruence |]. constructor; [congruence | exact Hall].
Qed.

Lemma hex_Decode_digits (src : list ascii) :
  Forall (fun c => hex.fromHexChar c <> None) src ->
  Nat.Even (List.length src) ->
  exists bs : list byte, hex.Decode src = Done bs.
Proof.
  induction src as [| p | p q src IH] using list_ind2; intros Hall Heven.
  - now exists [].
  - destruct Heven as [k Hk]. cbn in Hk. lia.
  - apply Forall_cons in Hall as [Hp Hall]. apply Forall_cons in Hall as [Hq Hall].
    destruct IH as [bs Hbs]; [exact Hall | |].
    { destruct Heven as [k Hk]. cbn in Hk. exists (k - 1)%nat. lia. }
    cbn [hex.Decode].
    destruct (hex.fromHexChar p); [| done]. destruct (hex.fromHexChar q); [| done].
    rewrite Hbs. eauto.
Qed.

(** *** [encoding/base64] *)

Lemma lor_disjoint (a b k : N) :
  (a mod 2 ^ k = 0)%N -> (b < 2 ^ k)%N -> N.lor a b = (a + b)%N.
Proof.
  intros Ha Hb. rewrite <- N.lxor_lor, <- N.add_nocarry_lxor; try reflexivity.
  all: apply N.bits_inj_0; intros n; rewrite N.land_spec.
  all: destruct (N.lt_ge_cases n k) as [Hlt | Hge].
  all: try (rewrite <- (N.mod_pow2_bits_low a k n Hlt), Ha, N.bits_0; reflexivity).
  all: rewrite <- (N.mod_small b (2 ^ k) Hb), (N.mod_pow2_bits_high b k n Hge).
  all: apply andb_false_r.
Qed.

Lemma b64_index (i : N) :
  (i < 64)%N ->
  base64.decodeMap (base64.encode i) = Some i
  /\ base64.newline (base64.encode i) = false.
Proof.
  intros Hi. destruct i as [| p]; [split; reflexivity |].
  do 6 (destruct p as [p | p |]; try (split; reflexivity); try lia).
Qed.

Lemma land_63 (n : N) : N.land n 63 = (n mod 64)%N.
Proof. change 63%N with (N.ones 6). now rewrite N.land_ones. Qed.

Lemma sextet_index (val k : N) :
  base64.decodeMap (base64.sextet val k) = Some ((val / 2 ^ k) mod 64)%N
  /\ base64.newline (base64.sextet val k) = false.
Proof.
  unfold base64.sextet. rewrite land_63, N.shiftr_div_pow2.
  apply b64_index. apply N.mod_lt. discriminate.
Qed.

Lemma quantum_sum (d0 d1 d2 d3 : N) :
  (d0 < 64)%N -> (d1 < 64)%N -> (d2 < 64)%N -> (d3 < 64)%N ->
  base64.quantum d0 d1 d2 d3 = (d0 * 262144 + d1 * 4096 + d2 * 64 + d3)%N.
Proof.
  intros H0 H1 H2 H3. unfold base64.quantum. rewrite !N.shiftl_mul_pow2.
  change (2 ^ 18)%N with 262144%N. change (2 ^ 12)%N with 4096%N.
  change (2 ^ 6)%N with 64%N.
  rewrite (lor_disjoint (d0 * 262144) (d1 * 4096) 18).
  2: { change (2 ^ 18)%N with 262144%N. apply N.Div0.mod_mul. }
  2: { change (2 ^ 18)%N with 262144%N. lia. }
  rewrite (lor_disjoint (d0 * 262144 + d1 * 4096) (d2 * 64) 12).
  2: { change (2 ^ 12)%N with 4096%N.
       replace (d0 * 262144 + d1 * 4096)%N with ((d0 * 64 + d1) * 4096)%N by lia.
       apply N.Div0.mod_mul. }
  2: { change (2 ^ 12)%N with 4096%N. lia. }
  rewrite (lor_disjoint (d0 * 262144 + d1 * 4096 + d2 * 64) d3 6).
  2: { change (2 ^ 6)%N with 64%N.
       replace (d0 * 262144 + d1 * 4096 + d2 * 64)%N
         with ((d0 * 4096 + d1 * 64 + d2) * 64)%N by lia.
       apply N.Div0.mod_mul. }
  2: { change (2 ^ 6)%N with 64%N. lia. }
  reflexivity.
Qed.

Lemma word24 (b0 b1 b2 : byte) :
  N.lor (N.lor (N.shiftl (Byte.to_N b0) 16) (N.shiftl (Byte.to_N b1) 8)) (Byte.to_N b2)
  = (Byte.to_N b0 * 65536 + Byte.to_N b1 * 256 + Byte.to_N b2)%N.
Proof.
  pose proof (Byte.to_N_bounded b0). pose proof (Byte.to_N_bounded b1).
  pose proof (Byte.to_N_bounded b2).
  rewrite !N.shiftl_mul_pow2.
  change (2 ^ 16)%N with 65536%N. change (2 ^ 8)%N with 256%N.
  rewrite (lor_disjoint (Byte.to_N b0 * 65536) (Byte.to_N b1 * 256) 16).
  2: { change (2 ^ 16)%N with 65536%N. apply N.Div0.mod_mul. }
  2: { change (2 ^ 16)%N with 65536%N. lia. }
  rewrite (lor_disjoint _ (Byte.to_N b2) 8).
  2: { change (2 ^ 8)%N with 256%N.
       replace (Byte.to_N b0 * 65536 + Byte.to_N b1 * 256)%N
         with ((Byte.to_N b0 * 256 + Byte.to_N b1) * 256)%N by lia.
       apply N.Div0.mod_mul. }
  2: { change (2 ^ 8)%N with 256%N. lia. }
  reflexivity.
Qed.

Lemma word16 (b0 b1 : byte) :
  N.lor (N.shiftl (Byte.to_N b0) 16) (N.shiftl (Byte.to_N b1) 8)
  = (Byte.to_N b0 * 65536 + Byte.to_N b1 * 256)%N.
Proof.
  pose proof (word24 b0 b1 x00) as H. cbn [Byte.to_N] in H.
  rewrite N.lor_0_r, N.add_0_r in H. exact H.
Qed.

(** The three bytes come back from the four sextets. *)
Lemma sextets_back (val : N) :
  (val < 16777216)%N ->
  ((val / 262144) mod 64 * 262144 + (val / 4096) mod 64 * 4096
   + (val / 64) mod 64 * 64 + val mod 64 = val)%N.
Proof. intros H. zify. Z.to_euclidean_division_equations. lia. Qed.

Lemma word24_bytes (n0 n1 n2 : N) :
  (n0 < 256)%N -> (n1 < 256)%N -> (n2 < 256)%N ->
  (((n0 * 65536 + n1 * 256 + n2) / 65536) mod 256 = n0)%N
  /\ (((n0 * 65536 + n1 * 256 + n2) / 256) mod 256 = n1)%N
  /\ ((n0 * 65536 + n1 * 256 + n2) mod 256 = n2)%N.
Proof.
  intros H0 H1 H2. repeat split; zify; Z.to_euclidean_division_equations; lia.
Qed.

Lemma quantum_val (val : N) :
  (val < 16777216)%N ->
  base64.quantum ((val / 2 ^ 18) mod 64) ((val / 2 ^ 12) mod 64)
    ((val / 2 ^ 6) mod 64) ((val / 2 ^ 0) mod 64) = val.
Proof.
  intros Hval. rewrite quantum_sum by (apply N.mod_lt; discriminate).
  change (2 ^ 18)%N with 262144%N. change (2 ^ 12)%N with 4096%N.
  change (2 ^ 6)%N with 64%N. change (2 ^ 0)%N with 1%N. rewrite N.div_1_r.
  now apply sextets_back.
Qed.

Lemma byte_of_mod (n : N) (v : byte) : (n mod 256 = Byte.to_N v)%N -> byte_of n = v.
Proof. intros Hn. unfold byte_of. rewrite Hn. now rewrite Byte.of_to_N. Qed.

Lemma b64_padding :
  base64.decodeMap base64.StdPadding = None
  /\ base64.newline base64.StdPadding = false.
Proof. split; reflexivity. Qed.

Lemma to_N_lt (v : byte) : (Byte.to_N v < 256)%N.
Proof. pose proof (Byte.to_N_bounded v). lia. Qed.

Lemma b64_group3 (b0 b1 b2 : byte) (rest : list ascii) (bs : list byte) :
  base64.decodeQuanta rest = Done bs ->
  let val := N.lor (N.lor (N.shiftl (Byte.to_N b0) 16) (N.shiftl (Byte.to_N b1) 8))
               (Byte.to_N b2) in
  base64.decodeQuanta
    (base64.sextet val 18 :: base64.sextet val 12 :: base64.sextet val 6
       :: base64.sextet val 0 :: rest)
  = Done (b0 :: b1 :: b2 :: bs).
Proof.
  intros Hrest. cbv zeta. rewrite word24.
  pose proof (to_N_lt b0) as H0. pose proof (to_N_lt b1) as H1.
  pose proof (to_N_lt b2) as H2.
  set (val := (Byte.to_N b0 * 65536 + Byte.to_N b1 * 256 + Byte.to_N b2)%N).
  assert (val < 16777216)%N as Hval by (unfold val; lia).
  cbn [base64.decodeQuanta].
  rewrite (proj1 (sextet_index val 18)), (proj1 (sextet_index val 12)),
    (proj1 (sextet_index val 6)), (proj1 (sextet_index val 0)).
  rewrite Hrest, quantum_val by exact Hval.
  destruct (word24_bytes _ _ _ H0 H1 H2) as (E0 & E1 & E2). fold val in E0, E1, E2.
  rewrite !N.shiftr_div_pow2.
  change (2 ^ 16)%N with 65536%N. change (2 ^ 8)%N with 256%N.
  rewrite (byte_of_mod _ b0 E0), (byte_of_mod _ b1 E1), (byte_of_mod _ b2 E2).
  reflexivity.
Qed.

Lemma b64_group2 (b0 b1 : byte) :
  let val := N.lor (N.shiftl (Byte.to_N b0) 16) (N.shiftl (Byte.to_N b1) 8) in
  base64.decodeQuanta
    [base64.sextet val 18; base64.sextet val 12; base64.sextet val 6; base64.StdPadding]
  = Done [b0; b1].
Proof.
  cbv zeta. rewrite word16.
  pose proof (to_N_lt b0) as H0. pose proof (to_N_lt b1) as H1.
  set (val := (Byte.to_N b0 * 65536 + Byte.to_N b1 * 256)%N).
  assert (val < 16777216)%N as Hval by (unfold val; lia).
  cbn [base64.decodeQuanta].
  rewrite (proj1 (sextet_index val 18)), (proj1 (sextet_index val 12)),
    (proj1 (sextet_index val 6)), (proj1 b64_padding).
  rewrite Ascii.eqb_refl, bool_decide_eq_true_2 by reflexivity. cbn [andb].
  assert (base64.quantum ((val / 2 ^ 18) mod 64) ((val / 2 ^ 12) mod 64)
            ((val / 2 ^ 6) mod 64) 0 = val) as ->.
  { rewrite <- (quantum_val val Hval) at 4. f_equal.
    change (2 ^ 0)%N with 1%N. rewrite N.div_1_r. unfold val.
    zify. Z.to_euclidean_division_equations. lia. }
  destruct (word24_bytes (Byte.to_N b0) (Byte.to_N b1) 0 H0 H1 ltac:(lia))
    as (E0 & E1 & _).
  rewrite N.add_0_r in E0, E1. fold val in E0, E1.
  rewrite !N.shiftr_div_pow2.
  change (2 ^ 16)%N with 65536%N. change (2 ^ 8)%N with 256%N.
  rewrite (byte_of_mod _ b0 E0), (byte_of_mod _ b1 E1). reflexivity.
Qed.

Lemma b64_group1 (b0 : byte) :
  let val := N.shiftl (Byte.to_N b0) 16 in
  base64.decodeQuanta
    [base64.sextet val 18; base64.sextet val 12; base64.StdPadding; base64.StdPadding]
  = Done [b0].
Proof.
  cbv zeta. rewrite N.shiftl_mul_pow2. change (2 ^ 16)%N with 65536%N.
  pose proof (to_N_lt b0) as H0.
  set (val := (Byte.to_N b0 * 65536)%N).
  assert (val < 16777216)%N as Hval by (unfold val; lia).
  cbn [base64.decodeQuanta].
  rewrite (proj1 (sextet_index val 18)), (proj1 (sextet_index val 12)),
    (proj1 b64_padding).
  rewrite Ascii.eqb_refl, bool_decide_eq_true_2 by reflexivity. cbn [andb].
  assert (base64.quantum ((val / 2 ^ 18) mod 64) ((val / 2 ^ 12) mod 64) 0 0 = val)
    as ->.
  { rewrite <- (quantum_val val Hval) at 3. f_equal.
    - unfold val. change (2 ^ 6)%N with 64%N.
      zify. Z.to_euclidean_division_equations. lia.
    - change (2 ^ 0)%N with 1%N. rewrite N.div_1_r. unfold val.
      zify. Z.to_euclidean_division_equations. lia. }
  destruct (word24_bytes (Byte.to_N b0) 0 0 H0 ltac:(lia) ltac:(lia)) as (E0 & _).
  rewrite !N.add_0_r in E0. fold val in E0.
  rewrite !N.shiftr_div_pow2. change (2 ^ 16)%N with 65536%N.
  rewrite (byte_of_mod _ b0 E0). reflexivity.
Qed.

Lemma b64_decodeQuanta_Encode (src : list byte) :
  base64.decodeQuanta (base64.Encode src) = Done src.
Proof.
  induction src as [| b0 | b0 b1 | b0 b1 b2 src IH] using list_ind3.
  - reflexivity.
  - apply b64_group1.
  - apply b64_group2.
  - cbn [base64.Encode]. now apply b64_group3.
Qed.

Lemma b64_Encode_lines (src : list byte) :
  Forall (fun c => base64.newline c = false) (base64.Encode src).
Proof.
  induction src as [| b0 | b0 b1 | b0 b1 b2 src IH] using list_ind3;
    cbn [base64.Encode]; cbv zeta;
    repeat (constructor; [first [apply sextet_index | reflexivity] |]);
    first [exact IH | constructor].
Qed.

Lemma filter_all {A : Type} (f : A -> bool) (l : list A) :
  Forall (fun x => f x = true) l -> List.filter f l = l.
Proof.
  induction 1 as [| x l Hx _ IH]; [reflexivity |]. cbn. now rewrite Hx, IH.
Qed.

Lemma b64_round_trip (src : list byte) :
  base64.DecodeString (base64.EncodeToString src) = Done src.
Proof.
  unfold base64.DecodeString, base64.EncodeToString.
  rewrite list_ascii_of_string_of_list_ascii.
  rewrite filter_all; [apply b64_decodeQuanta_Encode |].
  eapply Forall_impl; [apply b64_Encode_lines |]. cbn. intros c ->. reflexivity.
Qed.

Lemma hex_round_trip (src : list byte) :
  hex.DecodeString (hex.EncodeToString src) = Done src.
Proof.
  unfold hex.DecodeString, hex.EncodeToString.
  rewrite list_ascii_of_string_of_list_ascii. apply hex_Decode_Encode.
Qed.

End encoding_facts.

(** ** Field encryption and identifiers *)

Section crypto_facts.
Import util_crypto.

Lemma key_passes (key : list byte) :
  List.length key = 32%nat ->
  aes.NewCipher key = Done {| aes.key := key |}.
Proof. intros Hlen. unfold aes.NewCipher. now rewrite Hlen. Qed.

Lemma ReadFull_enough (random : list byte) (n : nat) :
  (n <= List.length random)%nat ->
  io.ReadFull random n = Done (take n random).
Proof.
  intros Hn. unfold io.ReadFull.
  destruct (Nat.leb_spec n (List.length random)); [reflexivity | lia].
Qed.

(** X13.  With the same 64-digit key, [Decrypt] gives back what
    [Encrypt] was given, for every text and every nonce drawn, as
    long as the cipher opens what it sealed: the nonce is the first
    12 random bytes, the ciphertext is the base64 text of the nonce
    followed by the sealed bytes, and [Decrypt] splits it there. *)
Theorem encrypt_decrypt_round_trip `{cipher.Algorithm} (random : list byte)
  (signKey : string) (key : list byte) (plaintext : string)
  (Hlaw : forall nonce text : list byte,
      List.length nonce = 12%nat ->
      cipher.open key nonce (cipher.seal key nonce text []) [] = Some text)
  (Hkey : hex.DecodeString signKey = Done key)
  (Hlen : List.length key = 32%nat)
  (Hrandom : (12 <= List.length random)%nat) :
  exists ciphertext : string,
    Encrypt random signKey plaintext = Done ciphertext
    /\ base64.DecodeString ciphertext
       = Done (take 12 random
               ++ cipher.seal key (take 12 random) (list_byte_of_string plaintext) [])%list
    /\ Decrypt signKey ciphertext = Done plaintext.
Proof.
  eexists. split; [| split].
  - unfold Encrypt, encryptBytes. rewrite Hkey, Hlen. cbn [Nat.eqb negb].
    rewrite key_passes by exact Hlen. cbn [cipher.NewGCM aes.BlockSize Nat.eqb].
    unfold cipher.NonceSize. rewrite ReadFull_enough by exact Hrandom.
    reflexivity.
  - unfold cipher.Seal. cbn [cipher.block aes.key]. apply b64_round_trip.
  - unfold Decrypt, decryptBytes. rewrite Hkey, Hlen. cbn [Nat.eqb negb].
    rewrite b64_round_trip. rewrite key_passes by exact Hlen.
    cbn [cipher.NewGCM aes.BlockSize Nat.eqb]. unfold cipher.NonceSize, cipher.Seal.
    cbn [cipher.block aes.key].
    assert (List.length (take 12 random) = 12%nat) as Hnonce
      by (rewrite length_take; lia).
    destruct (Nat.ltb_spec (List.length (take 12 random ++ cipher.seal key
                 (take 12 random) (list_byte_of_string plaintext) [])) 12) as [Hlt | _].
    { rewrite length_app in Hlt. lia. }
    rewrite take_app_length' by (symmetry; exact Hnonce).
    rewrite drop_app_length' by (symmetry; exact Hnonce).
    unfold cipher.Open. cbn [cipher.block aes.key]. rewrite Hlaw by exact Hnonce.
    cbn [app]. now rewrite string_of_list_byte_of_string.
Qed.

Lemma encrypt_decrypt_round_trip_witness :
  exists ciphertext : string,
    @Encrypt example_crypto.null_cipher example_crypto.nonce_source
      example_crypto.sign_key "pay key 123456" = Done ciphertext
    /\ @Decrypt example_crypto.null_cipher example_crypto.sign_key ciphertext
       = Done "pay key 123456".
Proof.
  destruct (@encrypt_decrypt_round_trip example_crypto.null_cipher
              example_crypto.nonce_source example_crypto.sign_key
              example_crypto.key_bytes "pay key 123456")
    as (ciphertext & Henc & _ & Hdec).
  - intros nonce text _. reflexivity.
  - vm_compute. reflexivity.
  - reflexivity.
  - vm_compute. lia.
  - exists ciphertext. split; [exact Henc | exact Hdec].
Defined.

(** The keys that pass the two checks at the head of [encryptBytes]
    and [decryptBytes]. *)
Lemma accepted_keys (signKey : string) :
  (exists key : list byte,
     hex.DecodeString signKey = Done key /\ List.length key = 32%nat)
  <-> String.length signKey = 64%nat
      /\ Forall (fun c => hex.fromHexChar c <> None) (list_ascii_of_string signKey).
Proof.
  unfold hex.DecodeString.
  assert (String.length signKey = List.length (list_ascii_of_string signKey)) as ->.
  { induction signKey as [| c s IH]; cbn; [reflexivity | now rewrite IH]. }
  split.
  - intros (key & Hkey & Hlen). apply hex_Decode_Done in Hkey as [Hl Hall].
    split; [lia | exact Hall].
  - intros [Hlen Hall].
    destruct (hex_Decode_digits _ Hall) as [key Hkey].
    { exists 32%nat. lia. }
    exists key. split; [exact Hkey |].
    apply hex_Decode_Done in Hkey as [Hl _]. lia.
Qed.

(** X14.  The sign key is checked first and in the same way by
    [Encrypt] and [Decrypt].  A key passes exactly when it consists of
    64 hexadecimal digits, of either case.  A key that does not decode
    gives ["invalid sign key"] wrapping the decoder's error, and a key
    of another length gives ["sign key must be 32 bytes (64 hex
    characters)"], whatever the text, the ciphertext and the random
    source.  The failures ["failed to create cipher"] and ["failed to
    create GCM"] never occur.  With a key that passes, [Encrypt] fails
    only for want of 12 random bytes, and [Decrypt] rejects a
    ciphertext that is not base64 or that decodes to fewer than 12
    bytes (the empty string among them) without opening anything. *)
Theorem sign_key_check `{cipher.Algorithm} (random : list byte) (signKey : string)
  (plaintext ciphertext : string) :
  ((exists key : list byte,
      hex.DecodeString signKey = Done key /\ List.length key = 32%nat)
   <-> String.length signKey = 64%nat
       /\ Forall (fun c => hex.fromHexChar c <> None) (list_ascii_of_string signKey))
  /\ (forall e : failure,
        hex.DecodeString signKey = Failed e ->
        Encrypt random signKey plaintext = Failed (fmt_Errorf "invalid sign key" e)
        /\ Decrypt signKey ciphertext = Failed (fmt_Errorf "invalid sign key" e))
  /\ (forall key : list byte,
        hex.DecodeString signKey = Done key ->
        List.length key <> 32%nat ->
        Encrypt random signKey plaintext
        = Failed (errors_New "sign key must be 32 bytes (64 hex characters)")
        /\ Decrypt signKey ciphertext
           = Failed (errors_New "sign key must be 32 bytes (64 hex characters)"))
  /\ (forall (prefix : string) (e : failure),
        Encrypt random signKey plaintext = Failed (fmt_Errorf prefix e)
        \/ Decrypt signKey ciphertext = Failed (fmt_Errorf prefix e) ->
        prefix <> "failed to create cipher" /\ prefix <> "failed to create GCM")
  /\ (forall key : list byte,
        hex.DecodeString signKey = Done key ->
        List.length key = 32%nat ->
        ((12 <= List.length random)%nat ->
         exists text : string, Encrypt random signKey plaintext = Done text)
        /\ ((List.length random < 12)%nat ->
            exists e : failure,
              Encrypt random signKey plaintext
              = Failed (fmt_Errorf "failed to generate nonce" e))
        /\ (forall e : failure,
              base64.DecodeString ciphertext = Failed e ->
              Decrypt signKey ciphertext
              = Failed (fmt_Errorf "failed to decode ciphertext" e))
        /\ (forall data : list byte,
              base64.DecodeString ciphertext = Done data ->
              (List.length data < 12)%nat ->
              Decrypt signKey ciphertext = Failed (errors_New "ciphertext too short"))
        /\ Decrypt signKey "" = Failed (errors_New "ciphertext too short")).
Proof.
  split; [apply accepted_keys |].
  split.
  { intros e He. unfold Encrypt, Decrypt, encryptBytes, decryptBytes.
    now rewrite He. }
  split.
  { intros key Hkey Hlen. unfold Encrypt, Decrypt, encryptBytes, decryptBytes.
    rewrite Hkey. apply Nat.eqb_neq in Hlen. now rewrite Hlen. }
  assert (forall key : list byte,
            hex.DecodeString signKey = Done key ->
            List.length key = 32%nat ->
            Encrypt random signKey plaintext
            = match io.ReadFull random 12 with
              | Failed err => Failed (fmt_Errorf "failed to generate nonce" err)
              | Done nonce =>
                  Done (base64.EncodeToString
                          (nonce ++ cipher.seal key nonce
                                      (list_byte_of_string plaintext) [])%list)
              end) as Henc.
  { intros key Hkey Hlen. unfold Encrypt, encryptBytes.
    rewrite Hkey, Hlen, key_passes by exact Hlen. reflexivity. }
  assert (forall (key : list byte) (text : string),
            hex.DecodeString signKey = Done key ->
            List.length key = 32%nat ->
            Decrypt signKey text
            = match base64.DecodeString text with
              | Failed err => Failed (fmt_Errorf "failed to decode ciphertext" err)
              | Done data =>
                  if (List.length data <? 12)%nat
                  then Failed (errors_New "ciphertext too short")
                  else match cipher.open key (take 12 data) (drop 12 data) [] with
                       | Some text => Done (string_of_list_byte text)
                       | None => Failed (fmt_Errorf "failed to decrypt" errOpen)
                       end
              end) as Hdec.
  { intros key text Hkey Hlen. unfold Decrypt, decryptBytes.
    rewrite Hkey, Hlen, key_passes by exact Hlen. cbn [Nat.eqb negb].
    destruct (base64.DecodeString text) as [data | e]; [| reflexivity].
    cbn [cipher.NewGCM aes.BlockSize Nat.eqb]. unfold cipher.NonceSize.
    destruct (List.length data <? 12)%nat; [reflexivity |].
    unfold cipher.Open. cbn [cipher.block aes.key app].
    destruct (cipher.open key _ _ _); reflexivity. }
  split.
  { intros prefix e Hfail.
    destruct (hex.DecodeString signKey) as [key |e0] eqn:Hkey.
    - destruct (decide (List.length key = 32%nat)) as [Hlen | Hlen].
      + rewrite (Henc key eq_refl Hlen), (Hdec key ciphertext eq_refl Hlen) in Hfail.
        destruct Hfail as [Hfail | Hfail].
        * destruct (io.ReadFull random 12); [discriminate |].
          injection Hfail as <- _. split; discriminate.
        * destruct (base64.DecodeString ciphertext) as [data | e1].
          -- destruct (List.length data <? 12)%nat; [discriminate |].
             destruct (cipher.open key _ _ _); [discriminate |].
             injection Hfail as <- _. split; discriminate.
          -- injection Hfail as <- _. split; discriminate.
      + unfold Encrypt, Decrypt, encryptBytes, decryptBytes in Hfail.
        rewrite Hkey in Hfail. apply Nat.eqb_neq in Hlen. rewrite Hlen in Hfail.
        destruct Hfail; discriminate.
    - unfold Encrypt, Decrypt, encryptBytes, decryptBytes in Hfail.
      rewrite Hkey in Hfail.
      destruct Hfail as [Hfail | Hfail]; injection Hfail as <- _; split; discriminate. }
  intros key Hkey Hlen.
  split.
  { intros Hr. rewrite (Henc key Hkey Hlen), ReadFull_enough by exact Hr. eauto. }
  split.
  { intros Hr. rewrite (Henc key Hkey Hlen). unfold io.ReadFull.
    destruct (Nat.leb_spec 12 (List.length random)); [lia |].
    destruct random; eauto. }
  split.
  { intros e He. rewrite (Hdec key ciphertext Hkey Hlen). now rewrite He. }
  split.
  { intros data Hdata Hshort. rewrite (Hdec key ciphertext Hkey Hlen), Hdata.
    apply Nat.ltb_lt in Hshort. now rewrite Hshort. }
  rewrite (Hdec key "" Hkey Hlen). reflexivity.
Qed.

Lemma copy_full (dst src : list byte) :
  List.length dst = List.length src -> copy dst src = src.
Proof.
  intros Hlen. unfold copy. rewrite Hlen, take_ge, drop_ge by lia.
  apply app_nil_r.
Qed.

Lemma hex_Encode_inj (l k : list byte) : hex.Encode l = hex.Encode k -> l = k.
Proof.
  intros Heq. apply (f_equal hex.Decode) in Heq.
  rewrite !hex_Decode_Encode in Heq. now injection Heq.
Qed.

Lemma hex_Encode_digits (src : list byte) :
  Forall (fun c => c ∈ list_ascii_of_string hex.hextable) (hex.Encode src).
Proof.
  induction src as [| v src IH]; [constructor |].
  cbn [hex.Encode]. constructor; [| constructor; [| exact IH]].
  all: destruct v; vm_compute; repeat (first [apply list_elem_of_here
                                             | apply list_elem_of_further]).
Qed.

(** X15.  An identifier from [GenerateUniqueIDSimple] always has 64
    characters, all lower-case hexadecimal digits, and decodes to 32
    bytes: the random bytes when the random source delivered 32, and
    the SHA-256 of the UUID text otherwise.  Two identifiers made from
    random bytes are equal only if the random bytes were.  Every
    identifier passes the sign-key check of [Encrypt]. *)
Theorem unique_id_shape `{sha256.Hash} (random : list byte) (uuid : string) :
  String.length (GenerateUniqueIDSimple random uuid) = 64%nat
  /\ Forall (fun c => c ∈ list_ascii_of_string hex.hextable)
       (list_ascii_of_string (GenerateUniqueIDSimple random uuid))
  /\ (exists bytes : list byte,
        hex.DecodeString (GenerateUniqueIDSimple random uuid) = Done bytes
        /\ List.length bytes = 32%nat
        /\ bytes = if (32 <=? List.length random)%nat then take 32 random
                   else sha256.Sum256 (list_byte_of_string uuid))
  /\ (forall (random' : list byte) (uuid' : string),
        (32 <= List.length random)%nat ->
        (32 <= List.length random')%nat ->
        GenerateUniqueIDSimple random' uuid' = GenerateUniqueIDSimple random uuid ->
        take 32 random' = take 32 random)
  /\ (forall (algorithm : cipher.Algorithm) (source : list byte) (plaintext : string),
        (12 <= List.length source)%nat ->
        exists text : string,
          @Encrypt algorithm source (GenerateUniqueIDSimple random uuid) plaintext
          = Done text).
Proof.
  assert (forall (r : list byte) (u : string),
            exists bytes : list byte,
              GenerateUniqueIDSimple r u = hex.EncodeToString bytes
              /\ List.length bytes = 32%nat
              /\ bytes = if (32 <=? List.length r)%nat then take 32 r
                         else sha256.Sum256 (list_byte_of_string u)) as Hid.
  { intros r u. unfold GenerateUniqueIDSimple, io.ReadFull. cbv zeta.
    destruct (Nat.leb_spec 32 (List.length r)) as [Hle | Hlt].
    - eexists. split; [reflexivity |]. split; [rewrite length_take; lia | reflexivity].
    - exists (sha256.Sum256 (list_byte_of_string u)).
      split; [| split; [apply sha256.Size | reflexivity]].
      assert (copy (r ++ drop (List.length r) (replicate 32 x00))
                (sha256.Sum256 (list_byte_of_string u))
              = sha256.Sum256 (list_byte_of_string u)) as Hcopy.
      { apply copy_full. rewrite length_app, length_drop, length_replicate, sha256.Size.
        lia. }
      destruct r; now rewrite Hcopy. }
  destruct (Hid random uuid) as (bytes & Heq & Hlen & Hbytes).
  assert (hex.DecodeString (GenerateUniqueIDSimple random uuid) = Done bytes) as Hdec.
  { rewrite Heq. apply hex_round_trip. }
  split.
  { rewrite Heq. unfold hex.EncodeToString.
    assert (forall l : list ascii,
              String.length (string_of_list_ascii l) = List.length l) as ->.
    { induction l as [| c l IH]; cbn; [reflexivity | now rewrite IH]. }
    rewrite hex_Encode_length. lia. }
  split.
  { rewrite Heq. unfold hex.EncodeToString.
    rewrite list_ascii_of_string_of_list_ascii. apply hex_Encode_digits. }
  split; [exists bytes; done |].
  split.
  { intros random' uuid' Hr Hr' Hsame.
    destruct (Hid random' uuid') as (bytes' & Heq' & _ & Hbytes').
    apply Nat.leb_le in Hr, Hr'. rewrite Hr in Hbytes. rewrite Hr' in Hbytes'.
    rewrite Heq, Heq' in Hsame. unfold hex.EncodeToString in Hsame.
    apply (f_equal list_ascii_of_string) in Hsame.
    rewrite !list_ascii_of_string_of_list_ascii in Hsame.
    apply hex_Encode_inj in Hsame. congruence. }
  intros algorithm source plaintext Hsource.
  unfold Encrypt, encryptBytes. rewrite Hdec, Hlen, key_passes by exact Hlen.
  cbn [Nat.eqb negb cipher.NewGCM aes.BlockSize]. unfold cipher.NonceSize.
  rewrite ReadFull_enough by exact Hsource. eauto.
Qed.

Lemma unique_id_shape_witness :
  String.length (@GenerateUniqueIDSimple example_crypto.zero_hash
                   example_crypto.nonce_source "f47ac10b-58cc-4372-a567-0e02b2c3d479")
  = 64%nat.
Proof.
  apply (@unique_id_shape example_crypto.zero_hash example_crypto.nonce_source
           "f47ac10b-58cc-4372-a567-0e02b2c3d479").
Defined.

End crypto_facts.

(** ** The merchant's API key in the request context *)

Section merchant_facts.
Import gin merchant.

(** X16.  What [SetAPIKeyToContext] stores, [GetAPIKeyFromContext]
    returns with [true]: also on a context without a key map, also
    over an earlier value of any type, and also for a [nil] key, which
    comes back as [nil] with [true].  Entries under other names are
    untouched by the store.  On a context that holds nothing under the
    name, or a value of another type, the lookup gives [nil] with
    [false]; whenever it gives [false] the key is [nil]. *)
Theorem api_key_context_round_trip {K : Type} (APIKeyObjKey : string) (c : Context K) :
  (forall apiKey : option K,
     GetAPIKeyFromContext APIKeyObjKey (SetAPIKeyToContext APIKeyObjKey c apiKey)
     = (apiKey, true))
  /\ GetAPIKeyFromContext APIKeyObjKey (SetAPIKeyToContext APIKeyObjKey c None)
     = (None, true)
  /\ (forall first second : option K,
        GetAPIKeyFromContext APIKeyObjKey
          (SetAPIKeyToContext APIKeyObjKey
             (SetAPIKeyToContext APIKeyObjKey c first) second)
        = (second, true))
  /\ (forall (apiKey : option K) (other : string),
        other <> APIKeyObjKey ->
        Get (SetAPIKeyToContext APIKeyObjKey c apiKey) other = Get c other)
  /\ (Get c APIKeyObjKey = (NilAny, false) ->
      GetAPIKeyFromContext APIKeyObjKey c = (None, false))
  /\ (forall typ repr : string,
        Get c APIKeyObjKey = (OtherValue typ repr, true) ->
        GetAPIKeyFromContext APIKeyObjKey c = (None, false))
  /\ GetAPIKeyFromContext APIKeyObjKey {| Keys := None |} = (@None K, false)
  /\ ((GetAPIKeyFromContext APIKeyObjKey c).2 = false ->
      (GetAPIKeyFromContext APIKeyObjKey c).1 = None)
  /\ (forall key : K,
        GetAPIKeyFromContext APIKeyObjKey c = (Some key, true)
        <-> Get c APIKeyObjKey = (APIKeyPointer (Some key), true)).
Proof.
  assert (forall (c' : Context K) (apiKey : option K),
            GetAPIKeyFromContext APIKeyObjKey (SetAPIKeyToContext APIKeyObjKey c' apiKey)
            = (apiKey, true)) as Hround.
  { intros c' apiKey. unfold GetAPIKeyFromContext, SetAPIKeyToContext, Get, Set_.
    cbn [Keys]. now rewrite lookup_insert_eq. }
  split; [apply Hround |]. split; [apply Hround |]. split; [intros; apply Hround |].
  split.
  { intros apiKey other Hne. unfold SetAPIKeyToContext, Get, Set_. cbn [Keys].
    rewrite lookup_insert_ne by done.
    destruct (Keys c) as [m |]; [reflexivity |]. now rewrite lookup_empty. }
  split.
  { intros Hget. unfold GetAPIKeyFromContext. now rewrite Hget. }
  split.
  { intros typ repr Hget. unfold GetAPIKeyFromContext. now rewrite Hget. }
  split; [reflexivity |].
  split.
  { unfold GetAPIKeyFromContext. destruct (Get c APIKeyObjKey) as [[| p | typ repr] []];
      cbn; done. }
  intros key. unfold GetAPIKeyFromContext.
  destruct (Get c APIKeyObjKey) as [[| p | typ repr] []]; cbn; split; congruence.
Qed.

End merchant_facts.
